(** * Student deployer: capacity accounting, admission and reconciliation

    A shallow embedding of [backend/k8s.py], [backend/db.py],
    [backend/models.py] and [backend/app.py], and the properties of the
    quantity parsers, the capacity accountant, the admission check, the
    deploy and resync handlers and the port-forward supervisor.

    Conventions.
    - A Python [str] is a Rocq [string]; each character stands for the code
      point of the same number (U+0000 to U+00FF).
    - A Python [int] is a [Z].  A Python [float] is a [pyfloat]: the exact
      dyadic value of a binary64 number, an infinity or a NaN; every
      operation rounds to nearest, ties to even, as the interpreter does.
    - A raised exception is the left injection of a sum; handlers that touch
      the cluster, the store or the operating system thread a state. *)

From Stdlib Require Import ZArith Ascii String List Bool Lia.
From stdpp Require Import base option list gmap strings pretty.

Local Open Scope string_scope.
Local Open Scope Z_scope.

(** ** Values *)

(** A [float]: [F_fin neg m e] is the number [(-1)^neg * m * 2^e] with
    [0 <= m]; the pair need not be normalised. *)
Inductive pyfloat : Type :=
| F_fin (neg : bool) (m : Z) (e : Z)
| F_inf (neg : bool)
| F_nan.

Global Instance pyfloat_eq_dec : EqDecision pyfloat.
Proof. solve_decision. Defined.

(** *** Capacity figures and admission decisions *)

Record capacity : Type := {
  cpu_millicores : Z;
  memory_mi : Z;
  storage_gi : Z
}.

(** The dict [get_cluster_resources] returns. *)
Record cluster_resources : Type := {
  total : capacity;
  used : capacity;
  available : capacity
}.

Inductive axis : Type := Cpu | Memory | Storage.

Global Instance axis_eq_dec : EqDecision axis.
Proof. solve_decision. Defined.

(** One entry of [issues]: the resource, the request and the available
    amount in the canonical unit, which the source renders as a sentence. *)
Record issue : Type := {
  issue_axis : axis;
  issue_requested : Z;
  issue_available : Z
}.

(** The three forms of the ["message"] of a decision: ["Resources
    available"], ["Insufficient cluster resources. "] followed by the issues
    joined with ["; "], and ["Failed to check cluster resources: "] followed
    by the text of the exception. *)
Inductive check_message : Type :=
| ResourcesAvailable
| Insufficient (issues : list issue)
| FailedToCheck (text : string).

(** The ["details"] of a decision; [None] is the empty dict. *)
Record check_details : Type := {
  details_requested : pyfloat * Z * Z;
  details_available : capacity
}.

(** The dict [check_resources_available] returns; [is_available] is its
    ["available"] entry. *)
Record decision : Type := {
  is_available : bool;
  message : check_message;
  details : option check_details
}.

(** ** Exceptions *)

(** The ["detail"] of an [HTTPException]: a sentence, or the dict [submit]
    builds from a negative decision. *)
Inductive http_detail : Type :=
| DetailText (text : string)
| DetailInsufficient (msg : check_message)
    (requested : option (pyfloat * Z * Z)) (avail : option capacity).

(** The exception classes the program raises or meets.  All of them derive
    from [Exception]; [OtherException] stands for any class a collaborator
    raises that is none of the others (a transport error of the HTTP client,
    a driver error of the store, a [FileNotFoundError]).  An [ApiException]
    is one whose response carried neither headers nor a body.

    [Blocked] is no exception: it is the outcome of a handler that waits in
    a call that never returns, so that the handler gives no answer.  Only
    [pf_start] produces it, outside every [try]. *)
Inductive exn : Type :=
| ValueError (msg : string)
| OverflowError (msg : string)
| ZeroDivisionError (msg : string)
| RuntimeError (msg : string)
| ApiException (status : Z) (reason : string)
| HTTPException (status_code : Z) (detail : http_detail)
| ProcessLookupError (msg : string)
| OtherException (cls : string) (msg : string)
| Blocked (call : string).

(** The line feed. *)
Definition newline : string := String (ascii_of_nat 10) EmptyString.

(** [str(e)]; for an [ApiException] the two lines its [__str__] writes
    when there are no headers and no body. *)
Definition str_exn (e : exn) : string :=
  match e with
  | ValueError m | OverflowError m | ZeroDivisionError m | RuntimeError m
  | ProcessLookupError m => m
  | ApiException st r =>
      "(" ++ pretty st ++ ")" ++ newline ++ "Reason: " ++ r ++ newline
  | HTTPException c (DetailText d) => pretty c ++ ": " ++ d
  | HTTPException c (DetailInsufficient _ _ _) => pretty c ++ ": "
  | OtherException _ m => m
  | Blocked _ => ""
  end.

Definition is_RuntimeError (e : exn) : bool :=
  match e with RuntimeError _ => true | _ => false end.

Definition result (A : Type) : Type := exn + A.

Definition rbind {A B} (r : result A) (k : A -> result B) : result B :=
  match r with inl e => inl e | inr a => k a end.

Declare Scope result_scope.
Delimit Scope result_scope with result.
Notation "'do!' x <- r ; k" := (rbind r (fun x => k))
  (at level 10, x name, r at level 100, k at level 200) : result_scope.

(** ** Python primitives *)

Module Py.

Definition code (c : ascii) : Z := Z.of_N (N_of_ascii c).

(** [str.isspace] on one character, as [str.strip()] uses it. *)
Definition is_space (c : ascii) : bool :=
  let n := code c in
  ((9 <=? n) && (n <=? 13)) || ((28 <=? n) && (n <=? 32))
  || (n =? 133) || (n =? 160).

(** The white space [int()] and [float()] skip at both ends: the C
    [isspace] set, and the two non-ASCII spaces, which the conversion
    rewrites to a blank first. *)
Definition is_num_space (c : ascii) : bool :=
  let n := code c in
  ((9 <=? n) && (n <=? 13)) || (n =? 32) || (n =? 133) || (n =? 160).

Definition is_digit (c : ascii) : bool :=
  let n := code c in (48 <=? n) && (n <=? 57).

Definition digit_val (c : ascii) : Z := code c - 48.

Definition to_lower (c : ascii) : ascii :=
  let n := code c in
  if (65 <=? n) && (n <=? 90) then ascii_of_N (Z.to_N (n + 32)) else c.

Definition drop_while (p : ascii -> bool) : list ascii -> list ascii :=
  fix go l := match l with
              | c :: r => if p c then go r else l
              | [] => []
              end.

Definition strip_with (p : ascii -> bool) (l : list ascii) : list ascii :=
  rev (drop_while p (rev (drop_while p l))).

(** [s.strip()] *)
Definition strip (s : string) : string :=
  string_of_list_ascii (strip_with is_space (list_ascii_of_string s)).

(** [s.endswith(suf)] *)
Definition endswith (s suf : string) : bool :=
  let n := String.length s in
  let k := String.length suf in
  (k <=? n)%nat && String.eqb (substring (n - k) k s) suf.

(** [s[:-k]] for a positive [k] *)
Definition drop_last (k : nat) (s : string) : string :=
  substring 0 (String.length s - k) s.

(** [not s] *)
Definition is_empty (s : string) : bool :=
  match s with EmptyString => true | _ => false end.

(** [s.replace(old, "")] for a non-empty [old]: the occurrences are removed
    from left to right, without overlap. *)
Fixpoint remove_all (old : string) (fuel : nat) (s : string) : string :=
  match fuel with
  | O => s
  | S fuel' =>
      match s with
      | EmptyString => EmptyString
      | String c r =>
          if String.prefix old s
          then remove_all old fuel'
                 (substring (String.length old)
                            (String.length s - String.length old) s)
          else String c (remove_all old fuel' r)
      end
  end.

Definition replace_empty (old s : string) : string :=
  remove_all old (String.length s) s.

(** *** [int(str)] *)

(** digit (["_"] digit)*, read left to right. *)
Fixpoint digits_from (prev_digit : bool) (acc : Z) (l : list ascii)
  : option Z :=
  match l with
  | [] => if prev_digit then Some acc else None
  | c :: r =>
      if is_digit c then digits_from true (10 * acc + digit_val c) r
      else if Ascii.eqb c "_"%char
           then (if prev_digit then digits_from false acc r else None)
           else None
  end.

Definition split_sign (l : list ascii) : bool * list ascii :=
  match l with
  | c :: r =>
      if Ascii.eqb c "-"%char then (true, r)
      else if Ascii.eqb c "+"%char then (false, r)
      else (false, l)
  | [] => (false, [])
  end.

Definition signed (neg : bool) (n : Z) : Z := if neg then - n else n.

Definition int_of_chars (l : list ascii) : option Z :=
  let (neg, ds) := split_sign (strip_with is_num_space l) in
  match digits_from false 0 ds with
  | Some n => Some (signed neg n)
  | None => None
  end.

(** *** [repr(s)] *)

Definition quote : ascii := ascii_of_nat 39.
Definition dquote : ascii := ascii_of_nat 34.
Definition backslash : ascii := ascii_of_nat 92.

(** [str.isprintable] on one character of the first 256. *)
Definition is_printable (c : ascii) : bool :=
  let n := code c in
  ((32 <=? n) && (n <? 127)) || ((161 <=? n) && negb (n =? 173)).

Definition hex_digit (n : Z) : ascii :=
  List.nth (Z.to_nat n) (list_ascii_of_string "0123456789abcdef") "0"%char.

Definition escaped (q c : ascii) : list ascii :=
  let n := code c in
  if Ascii.eqb c q || Ascii.eqb c backslash then [backslash; c]
  else if n =? 9 then [backslash; "t"%char]
  else if n =? 10 then [backslash; "n"%char]
  else if n =? 13 then [backslash; "r"%char]
  else if is_printable c then [c]
  else [backslash; "x"%char; hex_digit (n / 16); hex_digit (n mod 16)].

(** [repr(s)]: the double quote is chosen when [s] holds a single quote
    and no double one. *)
Definition repr (s : string) : string :=
  let l := list_ascii_of_string s in
  let q := if existsb (Ascii.eqb quote) l && negb (existsb (Ascii.eqb dquote) l)
           then dquote else quote in
  string_of_list_ascii
    (q :: List.flat_map (escaped q) l ++ [q])%list.

(** *** The limit on the digits of a literal *)

Definition int_max_str_digits : Z := 4300.

Definition is_digit_or_underscore (c : ascii) : bool :=
  is_digit c || Ascii.eqb c "_"%char.

Fixpoint take_while (p : ascii -> bool) (l : list ascii) : list ascii :=
  match l with
  | c :: r => if p c then c :: take_while p r else []
  | [] => []
  end.

(** The digits of the literal when they are more than the limit allows:
    the run of digits and underscores after the sign is well formed and
    holds that many digits.  What follows the run is not looked at. *)
Definition too_many_digits (l : list ascii) : option Z :=
  let (_, ds) := split_sign (strip_with is_num_space l) in
  let run := take_while is_digit_or_underscore ds in
  let count := Z.of_nat (List.length (List.filter is_digit run)) in
  match digits_from false 0 run with
  | Some _ => if int_max_str_digits <? count then Some count else None
  | None => None
  end.

(** [int(s)] for a [str] argument, base 10, with the limit the interpreter
    puts on the number of digits of a literal. *)
Definition int (s : string) : result Z :=
  match too_many_digits (list_ascii_of_string s) with
  | Some count =>
      inl (ValueError
             ("Exceeds the limit (" ++ pretty int_max_str_digits
              ++ " digits) for integer string conversion: value has "
              ++ pretty count
              ++ " digits; use sys.set_int_max_str_digits() to increase the limit"))
  | None =>
      match int_of_chars (list_ascii_of_string s) with
      | Some n => inr n
      | None =>
          inl (ValueError ("invalid literal for int() with base 10: "
                           ++ substring 0 200 (repr s)))
      end
  end.

(** [str(n)] for an int, as an f-string writes it, with the same limit:
    an int of more digits is not converted. *)
Definition str_int (n : Z) : result string :=
  if 10 ^ int_max_str_digits <=? Z.abs n then
    inl (ValueError
           ("Exceeds the limit (" ++ pretty int_max_str_digits
            ++ " digits) for integer string conversion; use sys.set_int_max_str_digits() to increase the limit"))
  else inr (pretty n).

(** *** binary64 values *)

Definition round_half_even (n d : Z) : Z :=
  let q := n / d in
  let r := n mod d in
  if 2 * r <? d then q
  else if d <? 2 * r then q + 1
  else if Z.even q then q else q + 1.

(** The integer part of the binary logarithm of [n / d], [0 < n], [0 < d]. *)
Definition ilog2_ratio (n d : Z) : Z :=
  let c := Z.log2 n - Z.log2 d in
  let fits := if 0 <=? c then d * 2 ^ c <=? n else d <=? n * 2 ^ (- c) in
  if fits then c else c - 1.

(** The binary64 number nearest to [n / d] ([0 <= n], [0 < d]), ties to
    even: its significand and the exponent of its last place, or [None] when
    the quotient rounds beyond the largest finite number.  The last place is
    never below [2^-1074] (subnormal numbers and underflow to zero). *)
Definition binary64_round (n d : Z) : option (Z * Z) :=
  if n =? 0 then Some (0, 0)
  else
    let e := Z.max (ilog2_ratio n d - 52) (-1074) in
    let m := if 0 <=? e then round_half_even n (d * 2 ^ e)
             else round_half_even (n * 2 ^ (- e)) d in
    if (971 <? e) || ((e =? 971) && (m =? 2 ^ 53)) then None
    else Some (m, e).

Definition float_of_ratio (neg : bool) (n d : Z) : pyfloat :=
  match binary64_round n d with
  | Some (m, e) => F_fin neg m e
  | None => F_inf neg
  end.

(** The float of a scaled integer [m * 2^e], [0 <= m]. *)
Definition float_of_scaled (neg : bool) (m e : Z) : pyfloat :=
  if 0 <=? e then float_of_ratio neg (m * 2 ^ e) 1
  else float_of_ratio neg m (2 ^ (- e)).

(** [x * y] on floats. *)
Definition float_mul (x y : pyfloat) : pyfloat :=
  match x, y with
  | F_nan, _ | _, F_nan => F_nan
  | F_inf s1, F_inf s2 => F_inf (xorb s1 s2)
  | F_inf s1, F_fin s2 m _ | F_fin s2 m _, F_inf s1 =>
      if m =? 0 then F_nan else F_inf (xorb s1 s2)
  | F_fin s1 m1 e1, F_fin s2 m2 e2 =>
      float_of_scaled (xorb s1 s2) (m1 * m2) (e1 + e2)
  end.

(** The float [1000.0], to which the int [1000] converts exactly. *)
Definition float_1000 : pyfloat := F_fin false 1000 0.

(** [int(x)] for a float [x]: truncation toward zero. *)
Definition int_of_float (x : pyfloat) : result Z :=
  match x with
  | F_fin neg m e =>
      inr (signed neg (if 0 <=? e then m * 2 ^ e else m / 2 ^ (- e)))
  | F_inf _ => inl (OverflowError "cannot convert float infinity to integer")
  | F_nan => inl (ValueError "cannot convert float NaN to integer")
  end.

(** [a / b] on ints (true division): the correctly rounded quotient. *)
Definition true_div (a b : Z) : result pyfloat :=
  if b =? 0 then inl (ZeroDivisionError "division by zero")
  else
    match binary64_round (Z.abs a) (Z.abs b) with
    | Some (m, e) => inr (F_fin (xorb (a <? 0) (b <? 0)) m e)
    | None =>
        inl (OverflowError "integer division result too large for a float")
    end.


(** [x < 1] for a float [x] *)
Definition float_lt_one (x : pyfloat) : bool :=
  match x with
  | F_fin neg m e =>
      neg || (if 0 <=? e then m * 2 ^ e <? 1 else m <? 2 ^ (- e))
  | F_inf neg => neg
  | F_nan => false
  end.

(** [round(x)] for a float [x]: the nearest int, ties to even. *)
Definition round_float (x : pyfloat) : result Z :=
  match x with
  | F_fin neg m e =>
      inr (signed neg (if 0 <=? e then m * 2 ^ e
                       else round_half_even m (2 ^ (- e))))
  | F_inf _ => inl (OverflowError "cannot convert float infinity to integer")
  | F_nan => inl (ValueError "cannot convert float NaN to integer")
  end.

(** *** [float(str)] *)

Definition span_digits : list ascii -> list ascii * list ascii :=
  fix go l := match l with
              | c :: r => if is_digit c
                          then let (ds, rest) := go r in (c :: ds, rest)
                          else ([], l)
              | [] => ([], [])
              end.

Definition digits_value (ds : list ascii) : Z :=
  fold_left (fun acc c => 10 * acc + digit_val c) ds 0.

(** An underscore may stand only between two digits; the check runs over
    the whole literal before the underscores are dropped. *)
Fixpoint underscores_ok (prev : option ascii) (l : list ascii) : bool :=
  match l with
  | [] => match prev with
          | Some p => negb (Ascii.eqb p "_"%char)
          | None => true
          end
  | c :: r =>
      let prev_digit := match prev with Some p => is_digit p | None => false end in
      let prev_us := match prev with
                     | Some p => Ascii.eqb p "_"%char
                     | None => false
                     end in
      if Ascii.eqb c "_"%char
      then prev_digit && underscores_ok (Some c) r
      else negb (prev_us && negb (is_digit c)) && underscores_ok (Some c) r
  end.

Definition drop_underscores (l : list ascii) : list ascii :=
  List.filter (fun c => negb (Ascii.eqb c "_"%char)) l.

(** The decimal literal: digits, an optional point and digits, at least one
    digit in all, an optional exponent; the result is the digit string read
    as an integer and the power of ten that scales it. *)
Definition decimal_of_chars (l : list ascii) : option (Z * Z) :=
  let (d1, r1) := span_digits l in
  let (d2, r2) := match r1 with
                  | c :: r => if Ascii.eqb c "."%char then span_digits r
                              else ([], r1)
                  | [] => ([], [])
                  end in
  match (d1 ++ d2)%list with
  | [] => None
  | ds =>
      let k := Z.of_nat (List.length d2) in
      match r2 with
      | [] => Some (digits_value ds, - k)
      | c :: r3 =>
          if Ascii.eqb (to_lower c) "e"%char then
            let (eneg, r4) := split_sign r3 in
            let (d3, r5) := span_digits r4 in
            match d3, r5 with
            | _ :: _, [] => Some (digits_value ds, signed eneg (digits_value d3) - k)
            | _, _ => None
            end
          else None
      end
  end.

Definition float_of_decimal (neg : bool) (d x : Z) : pyfloat :=
  if 0 <=? x then float_of_ratio neg (d * 10 ^ x) 1
  else float_of_ratio neg d (10 ^ (- x)).

Definition float_of_chars (l : list ascii) : option pyfloat :=
  let t := strip_with is_num_space l in
  if underscores_ok None t then
    let (neg, body) := split_sign (drop_underscores t) in
    let low := string_of_list_ascii (List.map to_lower body) in
    if String.eqb low "inf" || String.eqb low "infinity" then Some (F_inf neg)
    else if String.eqb low "nan" then Some F_nan
    else match decimal_of_chars body with
         | Some (d, x) => Some (float_of_decimal neg d x)
         | None => None
         end
  else None.

(** [float(s)] for a [str] argument. *)
Definition float (s : string) : result pyfloat :=
  match float_of_chars (list_ascii_of_string s) with
  | Some x => inr x
  | None => inl (ValueError ("could not convert string to float: " ++ repr s))
  end.

End Py.

(** ** Quantity parsers ([k8s.py]) *)

Module Quantity.

Import Py.
Local Open Scope result_scope.

(** [_parse_cpu_to_millicores] *)
Definition _parse_cpu_to_millicores (cpu_str : string) : result Z :=
  if is_empty cpu_str || String.eqb cpu_str "0" then inr 0
  else if endswith cpu_str "m" then Py.int (drop_last 1 cpu_str)
  else
    do! x <- Py.float cpu_str;
    int_of_float (float_mul x float_1000).

(** [_parse_memory_to_mi] *)
Definition _parse_memory_to_mi (memory_str : string) : result Z :=
  if is_empty memory_str || String.eqb memory_str "0" then inr 0
  else
    let memory_str := strip memory_str in
    if endswith memory_str "Ki" then
      do! n <- Py.int (drop_last 2 memory_str);
      do! q <- true_div n 1024;
      int_of_float q
    else if endswith memory_str "Mi" then
      Py.int (drop_last 2 memory_str)
    else if endswith memory_str "Gi" then
      do! n <- Py.int (drop_last 2 memory_str);
      inr (n * 1024)
    else if endswith memory_str "Ti" then
      do! n <- Py.int (drop_last 2 memory_str);
      inr (n * 1024 * 1024)
    else
      do! n <- Py.int memory_str;
      do! q <- true_div n (1024 * 1024);
      int_of_float q.

(** [_parse_storage_to_gi] *)
Definition _parse_storage_to_gi (storage_str : string) : result Z :=
  if is_empty storage_str || String.eqb storage_str "0" then inr 0
  else
    let storage_str := strip storage_str in
    if endswith storage_str "Ki" then
      do! n <- Py.int (drop_last 2 storage_str);
      do! q <- true_div n (1024 * 1024);
      int_of_float q
    else if endswith storage_str "Mi" then
      do! n <- Py.int (drop_last 2 storage_str);
      do! q <- true_div n 1024;
      int_of_float q
    else if endswith storage_str "Gi" then
      Py.int (drop_last 2 storage_str)
    else if endswith storage_str "Ti" then
      do! n <- Py.int (drop_last 2 storage_str);
      inr (n * 1024)
    else
      do! n <- Py.int storage_str;
      do! q <- true_div n (1024 * 1024 * 1024);
      int_of_float q.

(** The first character after the leading white space is a minus sign. *)
Definition starts_minus (l : list ascii) : bool :=
  match drop_while is_space l with
  | c :: _ => Ascii.eqb c "-"%char
  | [] => false
  end.

Definition leading_minus (s : string) : bool :=
  starts_minus (list_ascii_of_string s).

End Quantity.

(** ** The cluster, the store and the handlers' state *)

(** A node, a pod and a container, as far as the program reads them. *)
Record V1Node : Type := { allocatable : gmap string string }.

Record V1Container : Type := {
  (** [container.resources], then [resources.requests]; either may be
      [None]. *)
  resources_requests : option (option (gmap string string))
}.

Record V1Pod : Type := {
  pod_namespace : string;
  pod_phase : string;
  pod_containers : list V1Container
}.

(** The manifest [create_pod] submits. *)
Record V1PodManifest : Type := {
  manifest_name : string;
  manifest_image : string;
  manifest_requests : gmap string string;
  manifest_limits : gmap string string
}.

(** The cluster interface: the [kubernetes] package, its configuration
    loaders and the [CoreV1Api] calls the program makes.  [K] is the state
    of the world behind the client; every call may change it and may raise.
    The loaders answer [Some msg] when they raise. *)
Class CoreV1Api (K : Type) : Type := {
  import_kubernetes : K -> option string;
  load_kube_config : K -> option string;
  load_incluster_config : K -> option string;
  list_node : K -> K * result (list V1Node);
  list_pod_for_all_namespaces : K -> K * result (list V1Pod);
  create_namespace_call : string -> K -> K * result unit;
  create_namespaced_pod : string -> V1PodManifest -> K -> K * result unit;
  read_namespaced_pod : string -> string -> K -> K * result string;
  delete_namespaced_pod : string -> string -> K -> K * result unit;
  delete_namespace_call : string -> K -> K * result unit
}.

(** A student document of the [students] collection. *)
Record doc : Type := {
  doc_name : string;
  doc_input_numeric : option (pyfloat * Z * Z);
  doc_k8s_resources : option (gmap string string);
  doc_status : option string;
  doc_last_error : option string
}.

(** The calls a handler makes to the helpers it imports, in order. *)
Inductive event : Type :=
| CheckResources (cpu : pyfloat) (memory storage : Z)
| SaveStudent (name status : string)
| UpdateStatus (name status : string) (error : option string)
| GetStudent (name : string)
| ListStudents
| DeleteStudent (name : string)
| GetPodStatus (namespace name : string)
| CreateNamespace (namespace : string)
| CreatePod (namespace name : string)
| DeletePod (namespace name : string)
| DeleteNamespace (namespace : string).

(** The state the handlers run in: the cluster behind the client, the
    module globals of [k8s.py] and [db.py], the collection, and the log of
    helper calls. *)
Record World (K : Type) : Type := {
  cluster : K;
  k8s_v1 : bool;                     (* [_k8s_v1 is not None] *)
  mongodb_url : string;              (* [MONGODB_URL], empty when unset *)
  pymongo_import : option string;    (* [Some msg]: the import raises *)
  students_col : bool;               (* [_students_col is not None] *)
  db_fault : option (exn * bool);    (* the driver raises on every call;
                                        the flag: after it wrote *)
  students : gmap string doc;
  trace : list event
}.
Arguments cluster {K} _.
Arguments k8s_v1 {K} _.
Arguments mongodb_url {K} _.
Arguments pymongo_import {K} _.
Arguments students_col {K} _.
Arguments db_fault {K} _.
Arguments students {K} _.
Arguments trace {K} _.
Arguments Build_World {K}.

(** State and exception monad over a state [S]: a raise keeps the state
    reached so far. *)
Definition ST (S A : Type) : Type := S -> S * result A.

Definition ret {S A} (a : A) : ST S A := fun w => (w, inr a).
Definition raise {S A} (e : exn) : ST S A := fun w => (w, inl e).
Definition bind {S A B} (m : ST S A) (k : A -> ST S B) : ST S B :=
  fun w => match m w with
           | (w', inr a) => k a w'
           | (w', inl e) => (w', inl e)
           end.
(** [try: m  except Exception as e: h e] *)
Definition try_except {S A} (m : ST S A) (h : exn -> ST S A) : ST S A :=
  fun w => match m w with
           | (w', inl e) => h e w'
           | r => r
           end.
Definition lift {S A} (r : result A) : ST S A := fun w => (w, r).

(** The handlers of the cluster and the store run over a [World]. *)
Abbreviation M K := (ST (World K)).

Declare Scope prog_scope.
Delimit Scope prog_scope with prog.
Notation "'io!' x <- m ; k" := (bind m (fun x => k))
  (at level 10, x name, m at level 100, k at level 200) : prog_scope.

Definition log {K} (ev : event) : M K unit :=
  fun w => (Build_World (cluster w) (k8s_v1 w) (mongodb_url w)
              (pymongo_import w) (students_col w) (db_fault w) (students w)
              (trace w ++ [ev])%list, inr tt).

Definition set_cluster {K} (k : K) (w : World K) : World K :=
  Build_World k (k8s_v1 w) (mongodb_url w) (pymongo_import w)
    (students_col w) (db_fault w) (students w) (trace w).

Definition set_k8s_v1 {K} (b : bool) (w : World K) : World K :=
  Build_World (cluster w) b (mongodb_url w) (pymongo_import w)
    (students_col w) (db_fault w) (students w) (trace w).

Definition set_students_col {K} (b : bool) (w : World K) : World K :=
  Build_World (cluster w) (k8s_v1 w) (mongodb_url w) (pymongo_import w)
    b (db_fault w) (students w) (trace w).

Definition set_students {K} (s : gmap string doc) (w : World K) : World K :=
  Build_World (cluster w) (k8s_v1 w) (mongodb_url w) (pymongo_import w)
    (students_col w) (db_fault w) s (trace w).

(** A call through the client. *)
Definition api {K A} (call : K -> K * result A) : M K A :=
  fun w => let (k', r) := call (cluster w) in (set_cluster k' w, r).

(** ** [k8s.py] *)

Module K8s.

Import Py Quantity.
Local Open Scope prog_scope.

Section Client.

Context {K : Type} `{!CoreV1Api K}.

(** [_ensure_k8s] *)
Definition _ensure_k8s : M K unit := fun w =>
  if k8s_v1 w then (w, inr tt)
  else
    match import_kubernetes (cluster w) with
    | Some msg =>
        (w, inl (RuntimeError ("kubernetes package not available: " ++ msg)))
    | None =>
        match load_kube_config (cluster w) with
        | None => (set_k8s_v1 true w, inr tt)
        | Some _ =>
            match load_incluster_config (cluster w) with
            | None => (set_k8s_v1 true w, inr tt)
            | Some msg =>
                (w, inl (RuntimeError ("could not load kube config: " ++ msg)))
            end
        end
    end.

(** [except ApiException as e: if e.status == code: <pass> else: raise] *)
Definition except_status {A} (code : Z) (m : M K A) (fallback : A) : M K A :=
  try_except m (fun e =>
    match e with
    | ApiException status _ =>
        if status =? code then ret fallback else raise e
    | _ => raise e
    end).

(** [create_namespace] *)
Definition create_namespace (namespace_name : string) : M K unit :=
  io! _ <- log (CreateNamespace namespace_name);
  io! _ <- _ensure_k8s;
  except_status 409 (api (create_namespace_call namespace_name)) tt.

(** The manifest [create_pod] builds.  [storage_qty] is written with an
    f-string; both callers pass an int that was converted from or to text
    before, so that it is short enough to be written. *)
Definition pod_manifest (name image cpu_qty memory_qty : string)
    (storage_qty : Z) : V1PodManifest :=
  let rs : gmap string string :=
    <["cpu" := cpu_qty]>
      (<["memory" := memory_qty]>
         (<["ephemeral-storage" := pretty storage_qty ++ "Gi"]> ∅)) in
  {| manifest_name := name ++ "-pod";
     manifest_image := image;
     manifest_requests := rs;
     manifest_limits := rs |}.

(** [create_pod] *)
Definition create_pod (namespace name image cpu_qty memory_qty : string)
    (storage_qty : Z) : M K unit :=
  io! _ <- log (CreatePod namespace name);
  io! _ <- _ensure_k8s;
  except_status 409
    (api (create_namespaced_pod namespace
            (pod_manifest name image cpu_qty memory_qty storage_qty))) tt.

(** [get_pod_status] *)
Definition get_pod_status (namespace name : string) : M K string :=
  io! _ <- log (GetPodStatus namespace name);
  io! _ <- _ensure_k8s;
  except_status 404
    (api (read_namespaced_pod (name ++ "-pod") namespace)) "Not Found".

(** [delete_pod] *)
Definition delete_pod (namespace name : string) : M K unit :=
  io! _ <- log (DeletePod namespace name);
  io! _ <- _ensure_k8s;
  except_status 404
    (api (delete_namespaced_pod (name ++ "-pod") namespace)) tt.

(** [delete_namespace] *)
Definition delete_namespace (namespace : string) : M K unit :=
  io! _ <- log (DeleteNamespace namespace);
  io! _ <- _ensure_k8s;
  except_status 404 (api (delete_namespace_call namespace)) tt.

(** [d.get(key, "0")] *)
Definition get_or_zero (d : gmap string string) (key : string) : string :=
  default "0" (d !! key).

(** The three parsed entries of an allocatable or requests dict, parsed in
    the order cpu, memory, ephemeral-storage. *)
Definition parse_quantities (d : gmap string string) : result capacity :=
  (do! c <- _parse_cpu_to_millicores (get_or_zero d "cpu");
   do! m <- _parse_memory_to_mi (get_or_zero d "memory");
   do! s <- _parse_storage_to_gi (get_or_zero d "ephemeral-storage");
   inr {| cpu_millicores := c; memory_mi := m; storage_gi := s |})%result.

Definition add_capacity (a b : capacity) : capacity :=
  {| cpu_millicores := cpu_millicores a + cpu_millicores b;
     memory_mi := memory_mi a + memory_mi b;
     storage_gi := storage_gi a + storage_gi b |}.

Definition sub_capacity (a b : capacity) : capacity :=
  {| cpu_millicores := cpu_millicores a - cpu_millicores b;
     memory_mi := memory_mi a - memory_mi b;
     storage_gi := storage_gi a - storage_gi b |}.

Definition zero_capacity : capacity :=
  {| cpu_millicores := 0; memory_mi := 0; storage_gi := 0 |}.

(** The inner loop: [for container in pod.spec.containers]. *)
Fixpoint add_containers (acc : capacity) (cs : list V1Container)
  : result capacity :=
  match cs with
  | [] => inr acc
  | c :: rest =>
      match resources_requests c with
      | Some (Some requests) =>
          if bool_decide (requests = ∅) then add_containers acc rest
          else
            (do! q <- parse_quantities requests;
             add_containers (add_capacity acc q) rest)%result
      | _ => add_containers acc rest
      end
  end.

Definition skip_namespaces : list string :=
  ["kube-system"; "kube-public"; "kube-node-lease"].

Definition counted_phases : list string := ["Running"; "Pending"].

(** The outer loop: [for pod in pods]. *)
Fixpoint add_pods (acc : capacity) (pods : list V1Pod) : result capacity :=
  match pods with
  | [] => inr acc
  | pod :: rest =>
      if bool_decide (pod_namespace pod ∈ skip_namespaces) then
        add_pods acc rest
      else if negb (bool_decide (pod_phase pod ∈ counted_phases)) then
        add_pods acc rest
      else
        (do! acc' <- add_containers acc (pod_containers pod);
         add_pods acc' rest)%result
  end.

(** [get_cluster_resources] *)
Definition get_cluster_resources : M K cluster_resources :=
  io! _ <- _ensure_k8s;
  io! nodes <- api list_node;
  match nodes with
  | [] => raise (RuntimeError "No nodes found in cluster")
  | node :: _ =>
      (* Single node minikube cluster *)
      io! tot <- lift (parse_quantities (allocatable node));
      io! pods <- api list_pod_for_all_namespaces;
      io! use <- lift (add_pods zero_capacity pods);
      ret {| total := tot; used := use; available := sub_capacity tot use |}
  end.

(** The body of the [try] of [check_resources_available] once the
    resources are known. *)
Definition decide_admission (res : cluster_resources) (cpu_cores : pyfloat)
    (memory_mi0 storage_gi0 : Z) : result decision :=
  let avail := available res in
  (do! requested_cpu_m <- int_of_float (float_mul cpu_cores float_1000);
   do! cpu_issues <-
     (if cpu_millicores avail <? requested_cpu_m then
        (* the sentence shows [available / 1000] with two decimals *)
        do! _ <- true_div (cpu_millicores avail) 1000;
        inr [ {| issue_axis := Cpu; issue_requested := requested_cpu_m;
                 issue_available := cpu_millicores avail |} ]
      else inr []);
   let memory_issues :=
     if memory_mi avail <? memory_mi0 then
       [ {| issue_axis := Memory; issue_requested := memory_mi0;
            issue_available := memory_mi avail |} ]
     else [] in
   let storage_issues :=
     if storage_gi avail <? storage_gi0 then
       [ {| issue_axis := Storage; issue_requested := storage_gi0;
            issue_available := storage_gi avail |} ]
     else [] in
   let issues := (cpu_issues ++ memory_issues ++ storage_issues)%list in
   let det := {| details_requested := (cpu_cores, memory_mi0, storage_gi0);
                 details_available := avail |} in
   match issues with
   | _ :: _ =>
       inr {| is_available := false; message := Insufficient issues;
              details := Some det |}
   | [] =>
       inr {| is_available := true; message := ResourcesAvailable;
              details := Some det |}
   end)%result.

(** [check_resources_available] *)
Definition check_resources_available (cpu_cores : pyfloat)
    (memory_mi0 storage_gi0 : Z) : M K decision :=
  io! _ <- log (CheckResources cpu_cores memory_mi0 storage_gi0);
  try_except
    (io! res <- get_cluster_resources;
     lift (decide_admission res cpu_cores memory_mi0 storage_gi0))
    (fun e => ret {| is_available := false;
                     message := FailedToCheck (str_exn e);
                     details := None |}).

End Client.

End K8s.

(** ** [db.py] *)

Module Db.

Local Open Scope prog_scope.

Section Store.

Context {K : Type}.

(** [_init_db] *)
Definition _init_db : M K unit := fun w =>
  if students_col w then (w, inr tt)
  else if Py.is_empty (mongodb_url w) then
    (w, inl (RuntimeError
      "MONGODB_URL not configured. Set it in backend/.env or the environment."))
  else
    match pymongo_import w with
    | Some msg =>
        (w, inl (RuntimeError
                   ("pymongo is required but not installed: " ++ msg)))
    | None => (set_students_col true w, inr tt)
    end.

(** A call on the collection: the call goes through, or the driver raises.
    When it raises, the operation may have reached the collection before the
    error came back (the flag of the fault) or not. *)
Definition collection {A} (op : gmap string doc -> gmap string doc * A)
  : M K A := fun w =>
  match db_fault w with
  | Some (e, written) =>
      (if written then set_students (op (students w)).1 w else w, inl e)
  | None => let (s', a) := op (students w) in (set_students s' w, inr a)
  end.

(** A key of the dict [d] if [d] has it, of the stored document otherwise. *)
Definition set_key {A} (new : option A) (old : option A) : option A :=
  match new with Some x => Some x | None => old end.

(** [update_one({"name": d["name"]}, {"$set": d}, upsert=True)]: the keys
    of [d] are overwritten, the other keys of the stored document are
    kept; without a stored document, [d] is inserted. *)
Definition upsert_set (d : doc) (s : gmap string doc) : gmap string doc :=
  let old := s !! doc_name d in
  <[doc_name d :=
      {| doc_name := doc_name d;
         doc_input_numeric :=
           set_key (doc_input_numeric d) (old ≫= doc_input_numeric);
         doc_k8s_resources :=
           set_key (doc_k8s_resources d) (old ≫= doc_k8s_resources);
         doc_status := set_key (doc_status d) (old ≫= doc_status);
         doc_last_error :=
           set_key (doc_last_error d) (old ≫= doc_last_error) |}]> s.

(** [save_or_update_student] *)
Definition save_or_update_student (d : doc) (status : string) : M K unit :=
  io! _ <- log (SaveStudent (doc_name d) status);
  io! _ <- _init_db;
  let d := {| doc_name := doc_name d;
              doc_input_numeric := doc_input_numeric d;
              doc_k8s_resources := doc_k8s_resources d;
              doc_status := Some status;
              doc_last_error := doc_last_error d |} in
  collection (fun s => (upsert_set d s, tt)).

(** [get_student] *)
Definition get_student (name : string) : M K (option doc) :=
  io! _ <- log (GetStudent name);
  io! _ <- _init_db;
  collection (fun s => (s, s !! name)).

(** [list_students].  The documents come in the order in which the
    collection answers, which [db.py] does not choose (it asks for no
    sorting); the model lists them in the order of its map, and nothing
    stated below depends on the order. *)
Definition list_students : M K (list doc) :=
  io! _ <- log ListStudents;
  io! _ <- _init_db;
  collection (fun s => (s, (map_to_list s).*2)).

(** [delete_student] *)
Definition delete_student (name : string) : M K Z :=
  io! _ <- log (DeleteStudent name);
  io! _ <- _init_db;
  collection (fun s => (delete name s,
                        match s !! name with Some _ => 1 | None => 0 end)).

(** [update_one({"name": name}, {"$set": update})]: no upsert. *)
Definition set_status (name status : string) (error : option string)
    (s : gmap string doc) : gmap string doc :=
  match s !! name with
  | Some old =>
      <[name := {| doc_name := doc_name old;
                   doc_input_numeric := doc_input_numeric old;
                   doc_k8s_resources := doc_k8s_resources old;
                   doc_status := Some status;
                   doc_last_error :=
                     match error with
                     | Some err => if Py.is_empty err then doc_last_error old
                                   else Some err
                     | None => doc_last_error old
                     end |}]> s
  | None => s
  end.

(** [update_student_status] *)
Definition update_student_status (name status : string)
    (error : option string) : M K unit :=
  io! _ <- log (UpdateStatus name status error);
  io! _ <- _init_db;
  collection (fun s => (set_status name status error s, tt)).

End Store.

End Db.

(** ** [models.py] *)

Module Models.

Record StudentSpec : Type := {
  name : string;
  cpu : pyfloat;
  memory : Z;
  storage : Z
}.




(** The dict [to_k8s_resources] returns. *)
Record k8s_strings : Type := {
  k8s_cpu : string;
  k8s_memory : string;
  k8s_storage : string
}.

Definition k8s_dict (r : k8s_strings) : gmap string string :=
  <["cpu" := k8s_cpu r]>
    (<["memory" := k8s_memory r]> (<["storage" := k8s_storage r]> ∅)).

(** [to_k8s_resources] *)
Definition to_k8s_resources (spec : StudentSpec) : result k8s_strings :=
  (do! cpu_str <-
     (if Py.float_lt_one (cpu spec) then
        do! n <- Py.round_float (Py.float_mul (cpu spec) Py.float_1000);
        do! digits <- Py.str_int n;
        inr (digits ++ "m")
      else
        do! n <- Py.round_float (cpu spec);
        Py.str_int n);
   do! mem <- Py.str_int (memory spec);
   do! sto <- Py.str_int (storage spec);
   inr {| k8s_cpu := cpu_str; k8s_memory := mem ++ "Mi";
          k8s_storage := sto ++ "Gi" |})%result.

(** [to_persisted_doc] *)
Definition to_persisted_doc (spec : StudentSpec) : result doc :=
  (do! k <- to_k8s_resources spec;
   inr {| doc_name := name spec;
          doc_input_numeric := Some (cpu spec, memory spec, storage spec);
          doc_k8s_resources := Some (k8s_dict k);
          doc_status := None;
          doc_last_error := None |})%result.

End Models.

(** ** [app.py]: submit, deploy, resync, cleanup *)

(** The body of a successful [deploy] or [deploy_from_db]. *)
Record deploy_response : Type := {
  resp_status : string;
  resp_namespace : string;
  resp_pod : string;
  resp_image : string;
  resp_requested : gmap string string;
  resp_phase : string
}.

(** One element of the list [admin_students] returns: the document with its
    [status] as the handler leaves it, and the two keys the handler adds. *)
Record student_row : Type := {
  row_doc : doc;
  live_phase : string;
  db_status : string
}.

Module App.

Import Models Db K8s.
Local Open Scope prog_scope.

Section Handlers.

Context {K : Type} `{!CoreV1Api K}.

(** The configuration read from the environment at import. *)
Variable STUDENT_POD_IMAGE : string.
Variable ADMIN_PASSWORD : string.

(** [ensure_admin] *)
Definition ensure_admin (x_admin_key : option string) : M K unit :=
  if Py.is_empty ADMIN_PASSWORD then
    raise (HTTPException 500 (DetailText "ADMIN_PASSWORD not configured"))
  else if bool_decide (x_admin_key = Some ADMIN_PASSWORD) then ret tt
  else raise (HTTPException 401 (DetailText "Unauthorized")).

(** [submit]; the answer is the name of the queued student. *)
Definition submit (spec : StudentSpec) : M K string :=
  io! resource_check <-
    check_resources_available (cpu spec) (memory spec) (storage spec);
  if negb (is_available resource_check) then
    raise (HTTPException 400
             (DetailInsufficient (message resource_check)
                (details_requested <$> details resource_check)
                (details_available <$> details resource_check)))
  else
    io! d <- lift (to_persisted_doc spec);
    try_except
      (io! _ <- save_or_update_student d "pending";
       ret (name spec))
      (fun e =>
         raise (HTTPException 500
                  (DetailText ("Database error: " ++ str_exn e)))).

Definition already_exists (existing_phase : string) : exn :=
  HTTPException 409
    (DetailText ("Pod already exists with status: " ++ existing_phase
                 ++ ". Delete it first or use a different name.")).

(** The [try] both deploy handlers end with: create the namespace and the
    pod, read the phase, mark the record deployed; on any exception mark it
    failed and answer 500. *)
Definition provision (nm cpu_qty memory_qty : string) (storage_qty : Z)
  : M K string :=
  try_except
    (io! _ <- create_namespace nm;
     io! _ <- create_pod nm nm STUDENT_POD_IMAGE cpu_qty memory_qty
                storage_qty;
     io! phase <- get_pod_status nm nm;
     io! _ <- update_student_status nm "deployed" None;
     ret phase)
    (fun e =>
       io! _ <- update_student_status nm "failed" (Some (str_exn e));
       raise (HTTPException 500 (DetailText ("K8s error: " ++ str_exn e)))).

(** [deploy] *)
Definition deploy (spec : StudentSpec) : M K deploy_response :=
  io! existing_phase <- get_pod_status (name spec) (name spec);
  if negb (String.eqb existing_phase "Not Found") then
    raise (already_exists existing_phase)
  else
    io! d <- lift (to_persisted_doc spec);
    io! _ <- save_or_update_student d "pending";
    io! r <- lift (to_k8s_resources spec);
    let ns := name spec in
    let pod_base := name spec in
    io! phase <- provision ns (k8s_cpu r) (k8s_memory r) (storage spec);
    ret {| resp_status := "deploying";
           resp_namespace := ns;
           resp_pod := pod_base ++ "-pod";
           resp_image := STUDENT_POD_IMAGE;
           resp_requested := k8s_dict r;
           resp_phase := phase |}.

(** [not s] for an optional string: [None] or empty. *)
Definition is_falsy (s : option string) : bool :=
  match s with Some v => Py.is_empty v | None => true end.

(** [deploy_from_db] *)
Definition deploy_from_db (nm : string) : M K deploy_response :=
  io! found <- get_student nm;
  match found with
  | None =>
      raise (HTTPException 404 (DetailText "Student not found in MongoDB"))
  | Some d =>
      let k8s := default ∅ (doc_k8s_resources d) in
      let cpu0 := k8s !! "cpu" in
      let memory0 := k8s !! "memory" in
      let storage_str := default "1Gi" (k8s !! "storage") in
      io! storage_gb <- lift (Py.int (Py.replace_empty "Gi" storage_str));
      if is_falsy cpu0 || is_falsy memory0 then
        raise (HTTPException 500
                 (DetailText "Stored doc missing k8s_resources.cpu/memory"))
      else
        (* Check if cluster is accessible *)
        io! _ <-
          try_except
            (io! existing_phase <- get_pod_status nm nm;
             if negb (String.eqb existing_phase "Not Found") then
               raise (already_exists existing_phase)
             else ret tt)
            (fun e =>
               if is_RuntimeError e then
                 (* Cluster is down or unreachable *)
                 io! _ <- update_student_status nm "pending"
                            (Some ("Cluster unreachable: " ++ str_exn e));
                 raise (HTTPException 503
                   (DetailText
                      ("Kubernetes cluster is unreachable. Request saved as pending. Error: "
                       ++ str_exn e)))
               else raise e);
        io! phase <- provision nm (default "" cpu0) (default "" memory0)
                       storage_gb;
        ret {| resp_status := "deploying-from-db";
               resp_namespace := nm;
               resp_pod := nm ++ "-pod";
               resp_image := STUDENT_POD_IMAGE;
               resp_requested := k8s;
               resp_phase := phase |}
  end.

(** [status] *)
Definition status (nm : string) : M K string :=
  try_except (get_pod_status nm nm)
    (fun e =>
       raise (HTTPException 404
                (DetailText ("Pod not found or error: " ++ str_exn e)))).

Definition with_status (d : doc) (st : string) : doc :=
  {| doc_name := doc_name d;
     doc_input_numeric := doc_input_numeric d;
     doc_k8s_resources := doc_k8s_resources d;
     doc_status := Some st;
     doc_last_error := doc_last_error d |}.

(** The body of the loop of [admin_students] for one document. *)
Definition sync_student (cluster_accessible : bool) (d : doc)
  : M K student_row :=
  let nm := doc_name d in
  let db_status0 := default "unknown" (doc_status d) in
  io! r <-
    (if cluster_accessible then
       try_except
         (io! phase <- get_pod_status nm nm;
          (* Auto-sync mismatched statuses *)
          if String.eqb phase "Running" && String.eqb db_status0 "pending"
          then
            io! _ <- update_student_status nm "deployed" None;
            ret (with_status d "deployed", phase)
          else if String.eqb phase "Not Found"
                  && (String.eqb db_status0 "deployed"
                      || String.eqb db_status0 "pending")
          then
            io! _ <- update_student_status nm "failed"
                       (Some "Pod not found");
            ret (with_status d "failed", phase)
          else ret (d, phase))
         (fun _ =>
            (* If pod check fails and status is pending, mark as failed *)
            if String.eqb db_status0 "pending" then
              io! _ <- update_student_status nm "failed"
                         (Some "Cannot check pod status");
              ret (with_status d "failed", "Not Found")
            else ret (d, "Not Found"))
     else ret (d, "Cluster Down"));
  ret {| row_doc := r.1;
         live_phase := r.2;
         db_status := default "unknown" (doc_status r.1) |}.

Fixpoint sync_all (cluster_accessible : bool) (ds : list doc)
  : M K (list student_row) :=
  match ds with
  | [] => ret []
  | d :: rest =>
      io! row <- sync_student cluster_accessible d;
      io! rows <- sync_all cluster_accessible rest;
      ret (row :: rows)
  end.

(** [admin_students] *)
Definition admin_students (x_admin_key : option string)
  : M K (list student_row) :=
  io! _ <- ensure_admin x_admin_key;
  (* Check if cluster is accessible *)
  io! cluster_accessible <-
    try_except (io! _ <- _ensure_k8s; ret true) (fun _ => ret false);
  io! ds <- list_students;
  sync_all cluster_accessible ds.

(** [cleanup]; the answer is [bool(deleted)]. *)
Definition cleanup (nm : string) (x_admin_key : option string) : M K bool :=
  io! _ <- ensure_admin x_admin_key;
  io! _ <- try_except (delete_pod nm nm) (fun _ => ret tt);
  io! _ <- try_except (delete_namespace nm) (fun _ => ret tt);
  io! deleted <- delete_student nm;
  ret (negb (deleted =? 0)).

End Handlers.

End App.

(** ** [app.py]: the port-forward supervisor *)

(** The content of a registry file, as [_save_pf] writes it and [_load_pf]
    reads it back. *)
Record pf_info : Type := {
  info_name : string;
  info_pid : Z;
  info_port : Z
}.

(** The local operating system as the supervisor uses it: [connect_ex] on
    the loopback address (the answer is whether it failed), [Popen] (the
    answer is the process id), [poll], [sleep], reading the standard error
    of a child to its end, and [os.kill].  [OS] is the state of the machine.
    The read returns once the child has closed its standard error, which a
    child does when it exits; it answers [None] when that never happens and
    the read waits for ever. *)
Class LocalOS (OS : Type) : Type := {
  connect_fails : Z -> OS -> OS * result bool;
  popen : list string -> OS -> OS * result Z;
  poll : Z -> OS -> OS * option Z;
  sleep : OS -> OS;
  read_stderr : Z -> OS -> option (OS * result string);
  kill : Z -> Z -> OS -> OS * result unit
}.

(** The calls that start, probe or signal a process. *)
Inductive os_event : Type :=
| Spawned (cmd : list string)
| Signalled (pid : Z) (signal : Z).

(** The state the supervisor runs in: the machine, the registry files the
    supervisor wrote, by path, and the log of process calls.  A file is
    known by the path [pathlib] prints for it: the model is exact for names
    without a [".."] part, which the file system could resolve to the path
    of another name. *)
Record Host (OS : Type) : Type := {
  os : OS;
  pf_files : gmap string pf_info;
  os_log : list os_event
}.
Arguments os {OS} _.
Arguments pf_files {OS} _.
Arguments os_log {OS} _.
Arguments Build_Host {OS}.

(** The body of a successful [pf_start]. *)
Record pf_response : Type := {
  pf_status : string;
  pf_name : string;
  local_port : Z;
  url : string
}.

Module Forward.

Local Open Scope prog_scope.

Definition SIGTERM : Z := 15.
Definition SIGKILL : Z := 9.

Section Supervisor.

Context {OS : Type} `{!LocalOS OS}.

Definition sys {A} (call : OS -> OS * result A) : ST (Host OS) A :=
  fun h => let (o', r) := call (os h) in
           (Build_Host o' (pf_files h) (os_log h), r).

Definition os_note (ev : os_event) : ST (Host OS) unit :=
  fun h => (Build_Host (os h) (pf_files h) (os_log h ++ [ev])%list, inr tt).

Definition PF_DIR : string := "/tmp/student_pf".

Definition slash : ascii := "/"%char.

Fixpoint split_at_slash (cur l : list ascii) : list (list ascii) :=
  match l with
  | [] => [rev cur]
  | c :: r => if Ascii.eqb c slash then rev cur :: split_at_slash [] r
              else split_at_slash (c :: cur) r
  end.

(** The parts of a path string as [pathlib] keeps them: the pieces between
    the slashes, without the empty ones and the ["."] ones. *)
Definition path_parts (s : string) : list string :=
  List.filter (fun part => negb (String.eqb part "" || String.eqb part "."))
    (List.map string_of_list_ascii
       (split_at_slash [] (list_ascii_of_string s))).

(** The root of a POSIX path string: two leading slashes are kept, three
    or more are one. *)
Definition path_root (s : string) : string :=
  if String.prefix "///" s then "/"
  else if String.prefix "//" s then "//"
  else if String.prefix "/" s then "/"
  else "".

(** [str(PF_DIR / file)]: an absolute [file] replaces [PF_DIR]. *)
Definition under_pf_dir (file : string) : string :=
  if String.eqb (path_root file) "" then
    match path_parts file with
    | [] => PF_DIR
    | parts => PF_DIR ++ "/" ++ String.concat "/" parts
    end
  else path_root file ++ String.concat "/" (path_parts file).

(** [_pidfile] *)
Definition _pidfile (name : string) : string :=
  under_pf_dir (name ++ ".json").




(** [_is_port_free] *)
Definition _is_port_free (port : Z) : ST (Host OS) bool :=
  sys (connect_fails port).

(** [_next_free_port]: [count] ports are tried from [start] on. *)
Fixpoint next_free_from (count : nat) (p : Z) : ST (Host OS) Z :=
  match count with
  | O => raise (RuntimeError "No free local port found in range 8001-9000")
  | S count' =>
      io! free <- _is_port_free p;
      if free then ret p else next_free_from count' (p + 1)
  end.

Definition _next_free_port (start end_ : Z) : ST (Host OS) Z :=
  next_free_from (Z.to_nat (end_ + 1 - start)) start.

(** [_save_pf]; the write is taken to succeed. *)
Definition _save_pf (name : string) (pid port : Z) : ST (Host OS) unit :=
  fun h =>
    (Build_Host (os h)
       (<[_pidfile name := {| info_name := name; info_pid := pid;
                              info_port := port |}]> (pf_files h))
       (os_log h), inr tt).

(** [_load_pf] *)
Definition _load_pf (name : string) : ST (Host OS) (option pf_info) :=
  fun h => (h, inr (pf_files h !! _pidfile name)).

(** [os.kill] with [except ProcessLookupError]: the answer is whether the
    process was still there. *)
Definition kill_or_gone (pid signal : Z) : ST (Host OS) bool :=
  io! _ <- os_note (Signalled pid signal);
  try_except (io! _ <- sys (kill pid signal); ret true)
    (fun e => match e with
              | ProcessLookupError _ => ret false
              | _ => raise e
              end).

(** The loop of [_kill_pid]: sleep, then probe with signal 0. *)
Fixpoint wait_exit (rounds : nat) (pid : Z) : ST (Host OS) bool :=
  match rounds with
  | O => ret false
  | S rounds' =>
      io! _ <- sys (fun o => (sleep o, inr tt));
      io! there <- kill_or_gone pid 0;
      if there then wait_exit rounds' pid else ret true
  end.

(** [_kill_pid] *)
Definition _kill_pid (pid : Z) : ST (Host OS) unit :=
  io! there <- kill_or_gone pid SIGTERM;
  if there then
    io! gone <- wait_exit 10 pid;
    if gone then ret tt
    else io! _ <- kill_or_gone pid SIGKILL; ret tt
  else ret tt.

(** The loop of [pf_start] that waits for the port to open; the answer is
    [ok]. *)
Fixpoint wait_open (rounds : nat) (pid lp : Z) : ST (Host OS) bool :=
  match rounds with
  | O => ret false
  | S rounds' =>
      io! _ <- sys (fun o => (sleep o, inr tt));
      io! code <- sys (fun o => let (o', c) := poll pid o in (o', inr c));
      match code with
      | Some _ => ret false
      | None =>
          io! free <- _is_port_free lp;
          if free then wait_open rounds' pid lp else ret true
      end
  end.

Definition all_space (s : string) : bool :=
  Py.is_empty (Py.strip s).

(** [proc.stderr.read()], decoded and stripped, inside its [try]: the text,
    or [""] when the read raises.  The read waits until the child has
    closed its standard error; when it never does, the handler is
    [Blocked] there. *)
Definition read_child_stderr (pid : Z) : ST (Host OS) string :=
  fun h =>
    match read_stderr pid (os h) with
    | None => (h, inl (Blocked "proc.stderr.read()"))
    | Some (o, r) =>
        (Build_Host o (pf_files h) (os_log h),
         inr match r with inr text => Py.strip text | inl _ => "" end)
    end.

(** [pf_start] *)
Definition pf_start (name : string) (target_port : Z)
    (local_port0 : option Z) : ST (Host OS) pf_response :=
  if all_space name then
    raise (HTTPException 400 (DetailText "name required"))
  else
    io! existing <- _load_pf name;
    match existing with
    | Some info =>
        ret {| pf_status := "already-forwarding";
               pf_name := name;
               local_port := info_port info;
               url := "http://127.0.0.1:" ++ pretty (info_port info) ++ "/" |}
    | None =>
        io! lp <- match local_port0 with
                  | Some p => if p =? 0 then _next_free_port 8001 9000
                              else ret p
                  | None => _next_free_port 8001 9000
                  end;
        let cmd := ["kubectl"; "port-forward"; "-n"; name;
                    "pod/" ++ name ++ "-pod";
                    pretty lp ++ ":" ++ pretty target_port] in
        io! _ <- os_note (Spawned cmd);
        io! pid <- sys (popen cmd);
        (* Wait for port to open *)
        io! ok <- wait_open 20 pid lp;
        if negb ok then
          io! err <- read_child_stderr pid;
          io! _ <- try_except (_kill_pid pid) (fun _ => ret tt);
          raise (HTTPException 500
                   (DetailText ("Failed to start port-forward (port="
                                ++ pretty lp ++ "). " ++ err)))
        else
          io! _ <- _save_pf name pid lp;
          ret {| pf_status := "forwarding";
                 pf_name := name;
                 local_port := lp;
                 url := "http://127.0.0.1:" ++ pretty lp ++ "/" |}
    end.






End Supervisor.

End Forward.

(** ** Properties of traces and decisions *)

(** Every call that persists a spec or creates cluster resources comes
    after a call of the admission check for the triple [req]; [checked]
    tells whether such a call was seen. *)
Fixpoint guarded_by_check (req : pyfloat * Z * Z)
    (checked : bool) (tr : list event) : bool :=
  match tr with
  | [] => true
  | CheckResources c m s :: rest =>
      guarded_by_check req
        (checked || bool_decide ((c, m, s) = req)) rest
  | SaveStudent _ _ :: rest
  | CreateNamespace _ :: rest
  | CreatePod _ _ :: rest => checked && guarded_by_check req checked rest
  | _ :: rest => guarded_by_check req checked rest
  end.

Definition is_check (ev : event) : bool :=
  match ev with CheckResources _ _ _ => true | _ => false end.

Definition is_status_update (ev : event) : bool :=
  match ev with UpdateStatus _ _ _ => true | _ => false end.




(** The component-wise sum of the allocatable figures of all the nodes:
    the total as the specification words it. *)
Fixpoint sum_allocatable (nodes : list V1Node) : result capacity :=
  match nodes with
  | [] => inr K8s.zero_capacity
  | node :: rest =>
      (do! q <- K8s.parse_quantities (allocatable node);
       do! r <- sum_allocatable rest;
       inr (K8s.add_capacity q r))%result
  end.

(** A float that is not negative: a NaN, the positive infinity, or a
    finite number without the sign bit. *)
Definition unsigned_float (x : pyfloat) : Prop :=
  match x with
  | F_fin neg m _ => neg = false /\ 0 <= m
  | F_inf neg => neg = false
  | F_nan => True
  end.

(** The state right after a helper noted its call. *)
Definition logged {K} (ev : event) (w : World K) : World K :=
  (log ev w).1.

(** The decision of the [except] branch of the admission check. *)
Definition failed_check (e : exn) : decision :=
  {| is_available := false; message := FailedToCheck (str_exn e);
     details := None |}.

(** A computation that neither writes the collection nor notes a call. *)
Definition Quiet {K A} (m : M K A) : Prop :=
  forall w w' r, m w = (w', r) ->
                 students w' = students w /\ trace w' = trace w.

(** A computation that makes no call of the admission check: the calls it
    notes are appended to the log and none of them is [CheckResources]. *)
Definition Unchecked {K A} (m : M K A) : Prop :=
  forall w w' r, m w = (w', r) ->
    exists evs, trace w' = (trace w ++ evs)%list
                /\ existsb is_check evs = false.

(** The row of a document when the cluster is not accessible. *)
Definition cluster_down_row (d : doc) : student_row :=
  {| row_doc := d; live_phase := "Cluster Down";
     db_status := default "unknown" (doc_status d) |}.

(** A computation of the supervisor that neither writes a registry file nor
    starts or signals a process. *)
Definition Untouched {OS A} (m : ST (Host OS) A) : Prop :=
  forall h h' r, m h = (h', r) ->
                 pf_files h' = pf_files h /\ os_log h' = os_log h.

(** The body [pf_start] answers when the registry holds [port] for
    [name]. *)
Definition already_forwarding (name : string) (port : Z) : pf_response :=
  {| pf_status := "already-forwarding";
     pf_name := name;
     local_port := port;
     url := "http://127.0.0.1:" ++ pretty port ++ "/" |}.


(** *** Further vocabulary *)

Definition is_finite (x : pyfloat) : bool :=
  match x with F_fin _ _ _ => true | _ => false end.

(** A pod the accountant counts: it lies outside the skipped namespaces and
    its phase is ["Running"] or ["Pending"]. *)
Definition counted_pod (pod : V1Pod) : bool :=
  negb (bool_decide (pod_namespace pod ∈ K8s.skip_namespaces))
  && bool_decide (pod_phase pod ∈ K8s.counted_phases).

(** A container the accountant reads: it declares a non-empty dict of
    requests. *)
Definition declares_requests (c : V1Container) : bool :=
  match resources_requests c with
  | Some (Some requests) => negb (bool_decide (requests = ∅))
  | _ => false
  end.

(** A pod as the accountant sees it once the containers it skips are
    dropped. *)
Definition read_containers (pod : V1Pod) : V1Pod :=
  {| pod_namespace := pod_namespace pod;
     pod_phase := pod_phase pod;
     pod_containers := List.filter declares_requests (pod_containers pod) |}.

(** What the helpers of [k8s.py] make of an exception [e] of the client
    call when they absorb the status [code]: the [fallback] for an
    [ApiException] of that status, the exception itself otherwise. *)
Definition absorb_status {A} (code : Z) (fallback : A) (e : exn) : result A :=
  match e with
  | ApiException status _ => if status =? code then inr fallback else inl e
  | _ => inl e
  end.

(** No quantity the accountant parses from the dict begins with a minus
    sign. *)
Definition plain_quantities (d : gmap string string) : Prop :=
  Quantity.leading_minus (K8s.get_or_zero d "cpu") = false
  /\ Quantity.leading_minus (K8s.get_or_zero d "memory") = false
  /\ Quantity.leading_minus (K8s.get_or_zero d "ephemeral-storage") = false.

Definition plain_container (c : V1Container) : Prop :=
  match resources_requests c with
  | Some (Some requests) => plain_quantities requests
  | _ => True
  end.

Definition nonneg_capacity (c : capacity) : Prop :=
  0 <= cpu_millicores c /\ 0 <= memory_mi c /\ 0 <= storage_gi c.

(** The signals [_kill_pid] may send to [pid] after the first one:
    [probes] probes with signal 0, then, if [forced], the kill signal. *)
Definition escalation (pid : Z) (probes : nat) (forced : bool)
  : list os_event :=
  (repeat (Signalled pid 0) probes
   ++ (if forced then [Signalled pid Forward.SIGKILL] else []))%list.

Definition is_signal (ev : os_event) : bool :=
  match ev with Signalled _ _ => true | _ => false end.

(** What [_next_free_port] raises when it finds no port. *)
Definition no_free_port : exn :=
  RuntimeError "No free local port found in range 8001-9000".

(** [count] probes in a row, of the ports from [p] upwards and from the
    state [o] of the machine, each of which found its port taken; [o'] is
    the state the last one left. *)
Fixpoint taken_run {OS} `{!LocalOS OS} (count : nat) (p : Z) (o o' : OS)
  : Prop :=
  match count with
  | O => o' = o
  | S n => exists o1, connect_fails p o = (o1, inr false)
                      /\ taken_run n (p + 1) o1 o'
  end.

(** Every registry file lies at the path of the name it records. *)
Definition registry_wf (files : gmap string pf_info) : Prop :=
  forall path info,
    files !! path = Some info -> path = Forward._pidfile (info_name info).

(** A computation of the supervisor that writes no registry file. *)
Definition KeepsFiles {OS A} (m : ST (Host OS) A) : Prop :=
  forall h h' r, m h = (h', r) -> pf_files h' = pf_files h.

(** The collection, its handle and its configuration are the same in two
    states. *)
Definition same_store {K} (w w' : World K) : Prop :=
  students w' = students w /\ students_col w' = students_col w
  /\ db_fault w' = db_fault w /\ mongodb_url w' = mongodb_url w
  /\ pymongo_import w' = pymongo_import w.

(** A computation over the world that leaves the store as it is. *)
Definition KeepsStore {K A} (m : M K A) : Prop :=
  forall w w' r, m w = (w', r) -> same_store w w'.

(** The store can be used: its handle is there and the driver works. *)
Definition store_ready {K} (w : World K) : Prop :=
  students_col w = true /\ db_fault w = None.

(** What [$set] leaves under a key: the value the dict carries when it has
    the key, the stored one otherwise. *)
Definition written_over {A} (new old stored : option A) : Prop :=
  match new with
  | Some x => stored = Some x
  | None => stored = old
  end.

(** The new status and error [admin_students] writes for a record of
    status [st] whose pod is in [phase], if it writes one. *)
Definition resync_target (st phase : string)
  : option (string * option string) :=
  if String.eqb phase "Running" && String.eqb st "pending"
  then Some ("deployed", None)
  else if String.eqb phase "Not Found"
          && (String.eqb st "deployed" || String.eqb st "pending")
  then Some ("failed", Some "Pod not found")
  else None.

(** ** A simulated cluster and a simulated machine *)

Module Sim.

(** A small cluster: a fault every call raises, the configuration error of
    both loaders, the nodes, the pods listed, the namespaces, the phase of
    each pod by namespace and name, and the pods a concurrent caller creates
    between a read and a create. *)
Record cluster_state : Type := {
  sim_fault : option exn;
  sim_config_error : option string;
  sim_nodes : list V1Node;
  sim_pods : list V1Pod;
  sim_namespaces : list string;
  sim_phases : gmap (string * string) string;
  sim_racing : list (string * string)
}.

Definition guard {A} (k : cluster_state)
    (body : cluster_state * result A) : cluster_state * result A :=
  match sim_fault k with
  | Some e => (k, inl e)
  | None => body
  end.

Definition conflict : exn := ApiException 409 "Conflict".
Definition not_found : exn := ApiException 404 "Not Found".

Definition sim_create_namespace (ns : string) (k : cluster_state)
  : cluster_state * result unit :=
  guard k
    (if bool_decide (ns ∈ sim_namespaces k) then (k, inl conflict)
     else ({| sim_fault := sim_fault k;
              sim_config_error := sim_config_error k;
              sim_nodes := sim_nodes k;
              sim_pods := sim_pods k;
              sim_namespaces := ns :: sim_namespaces k;
              sim_phases := sim_phases k;
              sim_racing := sim_racing k |}, inr tt)).

Definition sim_create_pod (ns : string) (body : V1PodManifest)
    (k : cluster_state) : cluster_state * result unit :=
  guard k
    (if bool_decide (ns ∈ sim_namespaces k) then
       match sim_phases k !! (ns, manifest_name body) with
       | Some _ => (k, inl conflict)
       | None =>
           ({| sim_fault := sim_fault k;
               sim_config_error := sim_config_error k;
               sim_nodes := sim_nodes k;
               sim_pods := sim_pods k;
               sim_namespaces := sim_namespaces k;
               sim_phases :=
                 <[(ns, manifest_name body) := "Pending"]> (sim_phases k);
               sim_racing := sim_racing k |},
            if bool_decide ((ns, manifest_name body) ∈ sim_racing k)
            then inl conflict else inr tt)
       end
     else (k, inl not_found)).

Definition sim_read_pod (name ns : string) (k : cluster_state)
  : cluster_state * result string :=
  guard k
    (match sim_phases k !! (ns, name) with
     | Some phase => (k, inr phase)
     | None => (k, inl not_found)
     end).

Definition sim_delete_pod (name ns : string) (k : cluster_state)
  : cluster_state * result unit :=
  guard k
    (match sim_phases k !! (ns, name) with
     | Some _ =>
         ({| sim_fault := sim_fault k;
             sim_config_error := sim_config_error k;
             sim_nodes := sim_nodes k;
             sim_pods := sim_pods k;
             sim_namespaces := sim_namespaces k;
             sim_phases := delete (ns, name) (sim_phases k);
             sim_racing := sim_racing k |}, inr tt)
     | None => (k, inl not_found)
     end).

Definition sim_delete_namespace (ns : string) (k : cluster_state)
  : cluster_state * result unit :=
  guard k
    (if bool_decide (ns ∈ sim_namespaces k) then
       ({| sim_fault := sim_fault k;
           sim_config_error := sim_config_error k;
           sim_nodes := sim_nodes k;
           sim_pods := sim_pods k;
           sim_namespaces :=
             List.filter (fun x => negb (String.eqb x ns)) (sim_namespaces k);
           sim_phases := sim_phases k;
           sim_racing := sim_racing k |}, inr tt)
     else (k, inl not_found)).

#[export] Instance sim_api : CoreV1Api cluster_state := {|
  import_kubernetes := fun _ => None;
  load_kube_config := sim_config_error;
  load_incluster_config := sim_config_error;
  list_node := fun k => guard k (k, inr (sim_nodes k));
  list_pod_for_all_namespaces := fun k => guard k (k, inr (sim_pods k));
  create_namespace_call := sim_create_namespace;
  create_namespaced_pod := sim_create_pod;
  read_namespaced_pod := sim_read_pod;
  delete_namespaced_pod := sim_delete_pod;
  delete_namespace_call := sim_delete_namespace
|}.

(** A small machine: the ports in use, the live children, the next process
    id, the port a spawned child binds, if it binds one, and whether a live
    child exits when its standard error is read to the end (if not, the
    read never returns). *)
Record machine : Type := {
  busy_ports : list Z;
  children : list Z;
  next_pid : Z;
  child_binds : option Z;
  child_exits : bool
}.

Definition sim_popen (cmd : list string) (o : machine) : machine * result Z :=
  ({| busy_ports := match child_binds o with
                    | Some p => p :: busy_ports o
                    | None => busy_ports o
                    end;
      children := next_pid o :: children o;
      next_pid := next_pid o + 1;
      child_binds := child_binds o;
      child_exits := child_exits o |}, inr (next_pid o)).

Definition without_child (pid : Z) (o : machine) : machine :=
  {| busy_ports := busy_ports o;
     children := List.filter (fun c => negb (c =? pid)) (children o);
     next_pid := next_pid o;
     child_binds := child_binds o;
     child_exits := child_exits o |}.

Definition sim_kill (pid signal : Z) (o : machine) : machine * result unit :=
  if bool_decide (pid ∈ children o) then
    (if signal =? 0 then o else without_child pid o, inr tt)
  else (o, inl (ProcessLookupError "No such process")).

Definition sim_read_stderr (pid : Z) (o : machine)
  : option (machine * result string) :=
  if bool_decide (pid ∈ children o) then
    if child_exits o
    then Some (without_child pid o, inr "error: unable to listen on port")
    else None
  else Some (o, inr "").

#[export] Instance sim_os : LocalOS machine := {|
  connect_fails := fun p o => (o, inr (negb (bool_decide (p ∈ busy_ports o))));
  popen := sim_popen;
  poll := fun pid o =>
            (o, if bool_decide (pid ∈ children o) then None else Some 1);
  sleep := fun o => o;
  read_stderr := sim_read_stderr;
  kill := sim_kill
|}.

(** *** Worlds *)

Definition node_of (c m s : string) : V1Node :=
  {| allocatable :=
       <["cpu" := c]> (<["memory" := m]> (<["ephemeral-storage" := s]> ∅)) |}.

Definition empty_cluster : cluster_state :=
  {| sim_fault := None; sim_config_error := None;
     sim_nodes := [node_of "4" "8Gi" "100Gi"]; sim_pods := [];
     sim_namespaces := []; sim_phases := ∅; sim_racing := [] |}.

Definition world_of (k : cluster_state) (initialised : bool)
    (s : gmap string doc) : World cluster_state :=
  {| cluster := k; k8s_v1 := initialised;
     mongodb_url := "mongodb://localhost"; pymongo_import := None;
     students_col := false; db_fault := None; students := s; trace := [] |}.

(** One cpu, 512 MiB, one GiB for [alice]. *)
Definition alice : Models.StudentSpec :=
  {| Models.name := "alice"; Models.cpu := F_fin false 1 0;
     Models.memory := 512; Models.storage := 1 |}.

Definition pending_alice : doc :=
  {| doc_name := "alice";
     doc_input_numeric := Some (F_fin false 1 0, 512, 1);
     doc_k8s_resources :=
       Some (<["cpu" := "1"]> (<["memory" := "512Mi"]>
               (<["storage" := "1Gi"]> ∅)));
     doc_status := Some "pending";
     doc_last_error := None |}.

(** Two nodes of one cpu, one GiB of memory and ten GiB of storage each. *)
Definition two_nodes : cluster_state :=
  {| sim_fault := None; sim_config_error := None;
     sim_nodes := [node_of "1" "1Gi" "10Gi"; node_of "1" "1Gi" "10Gi"];
     sim_pods := []; sim_namespaces := []; sim_phases := ∅;
     sim_racing := [] |}.

(** The client was initialised, then the API server went away. *)
Definition server_gone : cluster_state :=
  {| sim_fault := Some (OtherException "MaxRetryError" "Connection refused");
     sim_config_error := None;
     sim_nodes := []; sim_pods := []; sim_namespaces := [];
     sim_phases := ∅; sim_racing := [] |}.

(** No configuration can be loaded. *)
Definition no_config : cluster_state :=
  {| sim_fault := None; sim_config_error := Some "Invalid kube-config file";
     sim_nodes := []; sim_pods := []; sim_namespaces := [];
     sim_phases := ∅; sim_racing := [] |}.

(** [alice] runs already. *)
Definition alice_running : cluster_state :=
  {| sim_fault := None; sim_config_error := None;
     sim_nodes := [node_of "4" "8Gi" "100Gi"]; sim_pods := [];
     sim_namespaces := ["alice"];
     sim_phases := {[ ("alice", "alice-pod") := "Running" ]};
     sim_racing := [] |}.

(** The namespace of [alice] exists and a concurrent caller creates her
    pod between the read and the create. *)
Definition alice_raced : cluster_state :=
  {| sim_fault := None; sim_config_error := None;
     sim_nodes := [node_of "4" "8Gi" "100Gi"]; sim_pods := [];
     sim_namespaces := ["alice"]; sim_phases := ∅;
     sim_racing := [("alice", "alice-pod")] |}.

Definition host_of (o : machine) (files : gmap string pf_info)
  : Host machine :=
  {| os := o; pf_files := files; os_log := [] |}.


(** A registry file is left for [alice]; process 4242 has exited. *)
Definition stale_entry : Host machine :=
  host_of {| busy_ports := []; children := []; next_pid := 5000;
             child_binds := None; child_exits := false |}
    {[ Forward._pidfile "alice" :=
         {| info_name := "alice"; info_pid := 4242; info_port := 8001 |} ]}.

(** *** Further worlds *)

(** The client and the collection handle are there already. *)
Definition store_open (k : cluster_state) (s : gmap string doc)
  : World cluster_state :=
  {| cluster := k; k8s_v1 := true;
     mongodb_url := "mongodb://localhost"; pymongo_import := None;
     students_col := true; db_fault := None; students := s; trace := [] |}.


Definition failed_alice : doc :=
  {| doc_name := "alice";
     doc_input_numeric := Some (F_fin false 1 0, 512, 1);
     doc_k8s_resources :=
       Some (<["cpu" := "1"]> (<["memory" := "512Mi"]>
               (<["storage" := "1Gi"]> ∅)));
     doc_status := Some "failed";
     doc_last_error := Some "Pod not found" |}.

(** Half a cpu, 256 MiB, two GiB for [bob]. *)
Definition bob : Models.StudentSpec :=
  {| Models.name := "bob"; Models.cpu := F_fin false 1 (-1);
     Models.memory := 256; Models.storage := 2 |}.

(** A spec whose cpu is a NaN. *)
Definition nan_spec : Models.StudentSpec :=
  {| Models.name := "carol"; Models.cpu := F_nan;
     Models.memory := 256; Models.storage := 2 |}.

(** The pods of a cluster where [bob] runs: his pod with its requests and a
    sidecar without any, a pod of the system and a pod that has ended. *)
Definition bob_requests : gmap string string :=
  <["cpu" := "500m"]> (<["memory" := "256Mi"]>
    (<["ephemeral-storage" := "2Gi"]> ∅)).

Definition mixed_pods : list V1Pod :=
  [ {| pod_namespace := "bob"; pod_phase := "Running";
       pod_containers :=
         [ {| resources_requests := Some (Some bob_requests) |};
           {| resources_requests := Some None |} ] |};
    {| pod_namespace := "kube-system"; pod_phase := "Running";
       pod_containers :=
         [ {| resources_requests := Some (Some {[ "cpu" := "-1" ]}) |} ] |};
    {| pod_namespace := "dave"; pod_phase := "Succeeded";
       pod_containers :=
         [ {| resources_requests := Some (Some {[ "cpu" := "2" ]}) |} ] |} ].

(** Process 4242 runs and holds port 8001. *)
Definition one_child : machine :=
  {| busy_ports := [8001]; children := [4242]; next_pid := 4243;
     child_binds := Some 8002; child_exits := false |}.

(** A spawned child binds no port and exits once its standard error is
    read. *)
Definition mute_machine : machine :=
  {| busy_ports := []; children := []; next_pid := 4242;
     child_binds := None; child_exits := true |}.

(** A spawned child binds no port and stays. *)
Definition stuck_machine : machine :=
  {| busy_ports := []; children := []; next_pid := 4242;
     child_binds := None; child_exits := false |}.


End Sim.

(** * Properties *)

(** ** The monad *)

Lemma bind_inr {S A B} (m : ST S A) (k : A -> ST S B) w w' a :
  m w = (w', inr a) -> bind m k w = k a w'.
Proof. intros E. unfold bind. now rewrite E. Qed.

Lemma bind_inl {S A B} (m : ST S A) (k : A -> ST S B) w w' e :
  m w = (w', inl e) -> bind m k w = (w', inl e).
Proof. intros E. unfold bind. now rewrite E. Qed.

Lemma try_except_inr {S A} (m : ST S A) h w w' a :
  m w = (w', inr a) -> try_except m h w = (w', inr a).
Proof. intros E. unfold try_except. now rewrite E. Qed.

Lemma try_except_inl {S A} (m : ST S A) h w w' e :
  m w = (w', inl e) -> try_except m h w = h e w'.
Proof. intros E. unfold try_except. now rewrite E. Qed.

(** ** Quantity parsers *)

Section ParserSigns.

Import Py Quantity.

Abbreviation minus := ("-"%char).

Lemma drop_while_split (p : ascii -> bool) : forall l,
  exists h, l = (h ++ drop_while p l)%list
            /\ Forall (fun c => p c = true) h.
Proof.
  induction l as [|a l IH]; simpl.
  - exists []. split; [reflexivity|constructor].
  - destruct (p a) eqn:E.
    + destruct IH as (h & E1 & F). exists (a :: h). split.
      * simpl. now rewrite <- E1.
      * now constructor.
    + exists []. split; [reflexivity|constructor].
Qed.

Lemma drop_while_head (p : ascii -> bool) c r : forall l,
  drop_while p l = c :: r -> p c = false.
Proof.
  induction l as [|a l IH]; simpl; [discriminate|].
  destruct (p a) eqn:E; [assumption|]. now intros [= <- _].
Qed.

Lemma drop_while_skip (p : ascii -> bool) c r h :
  Forall (fun x => p x = true) h -> p c = false ->
  drop_while p (h ++ c :: r) = c :: r.
Proof.
  intros F Hc. induction F as [|a h Ha F IH]; simpl.
  - now rewrite Hc.
  - now rewrite Ha.
Qed.

(** Stripping both ends leaves a prefix of what stripping the front
    leaves. *)
Lemma strip_with_prefix (p : ascii -> bool) l :
  exists u, drop_while p l = (strip_with p l ++ u)%list.
Proof.
  unfold strip_with.
  destruct (drop_while_split p (rev (drop_while p l))) as (h & E & _).
  exists (rev h). rewrite <- rev_app_distr, <- E. now rewrite rev_involutive.
Qed.

Lemma num_space_is_space c : is_num_space c = true -> is_space c = true.
Proof.
  unfold is_num_space, is_space.
  rewrite !orb_true_iff, !andb_true_iff, !Z.leb_le, !Z.eqb_eq. lia.
Qed.

Lemma stripped_minus_starts t u ds :
  strip_with is_num_space t = minus :: ds -> starts_minus (t ++ u) = true.
Proof.
  intros E. destruct (strip_with_prefix is_num_space t) as (u1 & P).
  destruct (drop_while_split is_num_space t) as (h & S & F).
  rewrite P, E in S. unfold starts_minus.
  rewrite S. simpl. rewrite <- !app_assoc. simpl.
  rewrite drop_while_skip; [reflexivity| |reflexivity].
  eapply Forall_impl; [exact F|]. apply num_space_is_space.
Qed.

Lemma split_sign_true l ds : split_sign l = (true, ds) -> l = minus :: ds.
Proof.
  destruct l as [|c r]; simpl; [discriminate|].
  destruct (Ascii.eqb c minus) eqn:E.
  - apply Ascii.eqb_eq in E. now intros [= <-]; subst.
  - destruct (Ascii.eqb c "+"); discriminate.
Qed.

Lemma starts_minus_strip l :
  starts_minus (strip_with is_space l) = true -> starts_minus l = true.
Proof.
  unfold starts_minus.
  destruct (drop_while is_space (strip_with is_space l)) as [|c r] eqn:D;
    [discriminate|].
  intros C. apply Ascii.eqb_eq in C. subst c.
  destruct (strip_with_prefix is_space l) as (u & P).
  destruct (drop_while_split is_space (strip_with is_space l))
    as (h & S & F).
  rewrite D in S. rewrite S in P. destruct h as [|a h].
  - simpl in P. now rewrite P.
  - simpl in P. apply drop_while_head in P. inversion F; congruence.
Qed.

Lemma substring_prefix : forall s n,
  exists u, list_ascii_of_string s
            = (list_ascii_of_string (substring 0 n s) ++ u)%list.
Proof.
  induction s as [|a s IH]; intros [|n]; simpl; eauto.
  destruct (IH n) as (u & E). exists u. now rewrite <- E.
Qed.

Lemma digit_val_nonneg c : is_digit c = true -> 0 <= digit_val c.
Proof.
  unfold is_digit, digit_val. intros H.
  apply andb_true_iff in H as [H _]. apply Z.leb_le in H. lia.
Qed.

Lemma digits_from_nonneg : forall l b acc v,
  0 <= acc -> digits_from b acc l = Some v -> 0 <= v.
Proof.
  induction l as [|c l IH]; simpl; intros b acc v Hacc H.
  - destruct b; congruence.
  - destruct (is_digit c) eqn:D.
    + eapply IH; [|exact H]. pose proof (digit_val_nonneg c D). lia.
    + destruct (Ascii.eqb c "_"); [|discriminate].
      destruct b; [|discriminate]. eapply IH; eauto.
Qed.

Lemma int_of_chars_nonneg t u v :
  starts_minus (t ++ u) = false -> int_of_chars t = Some v -> 0 <= v.
Proof.
  unfold int_of_chars. intros Hn.
  destruct (split_sign (strip_with is_num_space t)) as [neg ds] eqn:S.
  destruct (digits_from false 0 ds) eqn:D; [|discriminate].
  intros [= <-]. destruct neg.
  - apply split_sign_true in S.
    rewrite (stripped_minus_starts _ u _ S) in Hn. discriminate.
  - simpl. eapply digits_from_nonneg; [|exact D]. lia.
Qed.

Lemma int_nonneg s v :
  leading_minus s = false -> Py.int s = inr v -> 0 <= v.
Proof.
  unfold Py.int, leading_minus. intros Hn.
  destruct (too_many_digits _); [discriminate|].
  destruct (int_of_chars (list_ascii_of_string s)) eqn:E; [|discriminate].
  intros [= <-]. eapply (int_of_chars_nonneg _ []); [|exact E].
  now rewrite app_nil_r.
Qed.

Lemma int_drop_last_nonneg k s v :
  leading_minus s = false -> Py.int (drop_last k s) = inr v -> 0 <= v.
Proof.
  unfold Py.int, leading_minus, drop_last. intros Hn.
  destruct (too_many_digits _); [discriminate|].
  destruct (int_of_chars _) eqn:E; [|discriminate].
  intros [= <-].
  destruct (substring_prefix s (String.length s - k)) as (u & P).
  eapply (int_of_chars_nonneg _ u); [|exact E]. now rewrite <- P.
Qed.

Lemma leading_minus_strip s :
  leading_minus s = false -> leading_minus (strip s) = false.
Proof.
  unfold leading_minus, strip. intros Hn.
  rewrite list_ascii_of_string_of_list_ascii.
  destruct (starts_minus (strip_with is_space _)) eqn:E; [|reflexivity].
  apply starts_minus_strip in E. congruence.
Qed.

Lemma round_half_even_nonneg n d : 0 <= n -> 0 < d -> 0 <= round_half_even n d.
Proof.
  intros Hn Hd. unfold round_half_even.
  assert (0 <= n / d) by (apply Z.div_pos; lia).
  repeat match goal with |- context [if ?b then _ else _] => destruct b end;
    lia.
Qed.

Lemma binary64_round_nonneg n d m e :
  0 <= n -> 0 < d -> binary64_round n d = Some (m, e) -> 0 <= m.
Proof.
  intros Hn Hd. unfold binary64_round.
  destruct (n =? 0); [intros [= <- <-]; lia|].
  set (e0 := Z.max _ _).
  destruct (0 <=? e0) eqn:Ee;
    match goal with |- context [if ?b then None else _] => destruct b end;
    try discriminate; intros [= <- <-].
  - apply round_half_even_nonneg; [lia|].
    apply Z.mul_pos_pos; [lia|]. apply Z.pow_pos_nonneg; lia.
  - apply round_half_even_nonneg; [|lia].
    apply Z.mul_nonneg_nonneg; [lia|]. apply Z.pow_nonneg. lia.
Qed.

Lemma float_of_ratio_unsigned n d :
  0 <= n -> 0 < d -> unsigned_float (float_of_ratio false n d).
Proof.
  intros Hn Hd. unfold float_of_ratio.
  destruct (binary64_round n d) as [[m e]|] eqn:E; simpl; [|reflexivity].
  split; [reflexivity|]. eapply binary64_round_nonneg; eauto.
Qed.

Lemma float_of_scaled_unsigned m e :
  0 <= m -> unsigned_float (float_of_scaled false m e).
Proof.
  intros Hm. unfold float_of_scaled.
  destruct (0 <=? e) eqn:E; apply float_of_ratio_unsigned; try lia.
  all: try (apply Z.mul_nonneg_nonneg; [lia|]; apply Z.pow_nonneg; lia).
  all: apply Z.leb_gt in E; apply Z.pow_pos_nonneg; lia.
Qed.

Lemma float_mul_1000_unsigned x :
  unsigned_float x -> unsigned_float (float_mul x float_1000).
Proof.
  destruct x as [neg m e| neg |]; simpl; try tauto.
  - intros [-> Hm]. simpl. apply float_of_scaled_unsigned. lia.
  - now intros ->.
Qed.

Lemma int_of_float_nonneg x v :
  unsigned_float x -> int_of_float x = inr v -> 0 <= v.
Proof.
  destruct x as [neg m e| neg |]; simpl; try discriminate.
  intros [-> Hm] [= <-]. simpl.
  destruct (0 <=? e) eqn:E.
  - apply Z.mul_nonneg_nonneg; [lia|]. apply Z.pow_nonneg; lia.
  - apply Z.leb_gt in E. apply Z.div_pos; [lia|].
    apply Z.pow_pos_nonneg; lia.
Qed.

Lemma true_div_unsigned a b q :
  0 <= a -> 0 < b -> true_div a b = inr q -> unsigned_float q.
Proof.
  intros Ha Hb. unfold true_div.
  destruct (b =? 0); [discriminate|].
  destruct (binary64_round (Z.abs a) (Z.abs b)) as [[m e]|] eqn:E;
    [|discriminate].
  intros [= <-]. simpl. split.
  - assert ((a <? 0) = false) as -> by (apply Z.ltb_ge; lia).
    assert ((b <? 0) = false) as -> by (apply Z.ltb_ge; lia). reflexivity.
  - eapply binary64_round_nonneg; [| |exact E]; lia.
Qed.

Lemma span_digits_spec : forall l ds rest,
  span_digits l = (ds, rest) ->
  Forall (fun c => is_digit c = true) ds /\ (forall c, In c rest -> In c l).
Proof.
  induction l as [|c l IH]; simpl; intros ds rest H.
  - inversion H; subst. split; [constructor|tauto].
  - destruct (is_digit c) eqn:D.
    + destruct (span_digits l) as [ds' rest'] eqn:S.
      inversion H; subst. destruct (IH _ _ eq_refl) as [F I].
      split; [now constructor|]. intros x Hx. right. auto.
    + inversion H; subst. split; [constructor|tauto].
Qed.

Lemma digits_value_nonneg ds :
  Forall (fun c => is_digit c = true) ds -> 0 <= digits_value ds.
Proof.
  unfold digits_value. intros F.
  assert (forall acc, 0 <= acc ->
            0 <= fold_left (fun a c => 10 * a + digit_val c) ds acc) as X.
  { induction F as [|c ds Hc F IH]; simpl; intros acc Hacc; [assumption|].
    apply IH. pose proof (digit_val_nonneg c Hc). lia. }
  apply X. lia.
Qed.

Lemma float_of_decimal_unsigned d x :
  0 <= d -> unsigned_float (float_of_decimal false d x).
Proof.
  intros Hd. unfold float_of_decimal.
  destruct (0 <=? x) eqn:E; apply float_of_ratio_unsigned; try lia.
  all: try (apply Z.mul_nonneg_nonneg; [lia|]; apply Z.pow_nonneg; lia).
  all: apply Z.leb_gt in E; apply Z.pow_pos_nonneg; lia.
Qed.

Lemma decimal_of_chars_nonneg l d x :
  decimal_of_chars l = Some (d, x) -> 0 <= d.
Proof.
  unfold decimal_of_chars.
  destruct (span_digits l) as [d1 r1] eqn:S1.
  apply span_digits_spec in S1 as [F1 _].
  set (p := match r1 with
            | [] => ([], [])
            | c :: r => if Ascii.eqb c "." then span_digits r else ([], r1)
            end).
  assert (Forall (fun c => is_digit c = true) p.1) as F2.
  { subst p. destruct r1 as [|c r]; simpl; [constructor|].
    destruct (Ascii.eqb c ".").
    - destruct (span_digits r) as [a b] eqn:S2.
      now apply span_digits_spec in S2 as [F2 _].
    - constructor. }
  destruct p as [d2 r2]. simpl in F2.
  assert (0 <= digits_value (d1 ++ d2)) as Hv.
  { apply digits_value_nonneg. apply Forall_app. now split. }
  destruct (d1 ++ d2)%list as [|c0 ds0] eqn:Eds; [discriminate|].
  destruct r2 as [|c r3]; [intros [= <- <-]; exact Hv|].
  destruct (Ascii.eqb (to_lower c) "e"); [|discriminate].
  destruct (split_sign r3) as [eneg r4].
  destruct (span_digits r4) as [d3 r5].
  destruct d3; [discriminate|]. destruct r5; [|discriminate].
  intros [= <- <-]. exact Hv.
Qed.

Lemma underscores_ok_head c r :
  underscores_ok None (c :: r) = true ->
  drop_underscores (c :: r) = c :: drop_underscores r.
Proof.
  simpl. destruct (Ascii.eqb c "_"); [discriminate|reflexivity].
Qed.

Lemma float_of_chars_unsigned l x :
  starts_minus l = false -> float_of_chars l = Some x -> unsigned_float x.
Proof.
  unfold float_of_chars. intros Hn.
  destruct (underscores_ok None (strip_with is_num_space l)) eqn:U;
    [|discriminate].
  destruct (split_sign (drop_underscores (strip_with is_num_space l)))
    as [neg body] eqn:S.
  destruct neg.
  - exfalso. apply split_sign_true in S.
    destruct (strip_with is_num_space l) as [|c r] eqn:T; [discriminate|].
    rewrite (underscores_ok_head _ _ U) in S. injection S as -> _.
    pose proof (stripped_minus_starts l [] _ T) as X.
    rewrite app_nil_r in X. congruence.
  - destruct (_ || _); [intros [= <-]; reflexivity|].
    destruct (String.eqb _ "nan"); [intros [= <-]; exact I|].
    destruct (decimal_of_chars body) as [[d e]|] eqn:D; [|discriminate].
    intros [= <-]. apply float_of_decimal_unsigned.
    eapply decimal_of_chars_nonneg; eauto.
Qed.

Lemma float_unsigned s x :
  leading_minus s = false -> Py.float s = inr x -> unsigned_float x.
Proof.
  unfold Py.float. intros Hn.
  destruct (float_of_chars (list_ascii_of_string s)) eqn:E; [|discriminate].
  intros [= <-]. eapply float_of_chars_unsigned; eauto.
Qed.

Lemma parse_cpu_nonneg s v :
  leading_minus s = false -> _parse_cpu_to_millicores s = inr v -> 0 <= v.
Proof.
  intros Hm. unfold _parse_cpu_to_millicores.
  destruct (_ || _); [intros [= <-]; lia|].
  destruct (endswith s "m").
  - now apply int_drop_last_nonneg.
  - unfold rbind. destruct (Py.float s) as [e|x] eqn:F; [discriminate|].
    apply int_of_float_nonneg, float_mul_1000_unsigned.
    eapply float_unsigned; eauto.
Qed.

(** [int(int(t) / b)] for a positive [b] and a non-negative [int(t)]. *)
Lemma quotient_nonneg (t : string) (b v : Z) :
  (forall n, Py.int t = inr n -> 0 <= n) -> 0 < b ->
  (do! n <- Py.int t; do! q <- true_div n b; int_of_float q)%result = inr v ->
  0 <= v.
Proof.
  intros Hn Hb. unfold rbind.
  destruct (Py.int t) as [e|n] eqn:E; [discriminate|].
  destruct (true_div n b) as [e|q] eqn:Q; [discriminate|].
  apply int_of_float_nonneg. eapply true_div_unsigned; [| |exact Q]; auto.
Qed.

Lemma scaled_nonneg (t : string) (b v : Z) :
  (forall n, Py.int t = inr n -> 0 <= n) -> 0 <= b ->
  (do! n <- Py.int t; inr (n * b))%result = inr v -> 0 <= v.
Proof.
  intros Hn Hb. unfold rbind.
  destruct (Py.int t) as [e|n] eqn:E; [discriminate|].
  intros [= <-]. apply Z.mul_nonneg_nonneg; auto.
Qed.

Lemma parse_memory_nonneg s v :
  leading_minus s = false -> _parse_memory_to_mi s = inr v -> 0 <= v.
Proof.
  intros Hm. unfold _parse_memory_to_mi.
  destruct (_ || _); [intros [= <-]; lia|].
  pose proof (leading_minus_strip s Hm) as Hs.
  pose proof (fun n => int_drop_last_nonneg 2 _ n Hs) as Hd.
  pose proof (fun n => int_nonneg _ n Hs) as Hw.
  destruct (endswith (strip s) "Ki"); [apply quotient_nonneg; [assumption|lia]|].
  destruct (endswith (strip s) "Mi"); [apply Hd|].
  destruct (endswith (strip s) "Gi"); [apply scaled_nonneg; [assumption|lia]|].
  destruct (endswith (strip s) "Ti").
  - intros H. apply (scaled_nonneg (drop_last 2 (strip s)) (1024 * 1024));
      [assumption|lia|].
    unfold rbind in *. destruct (Py.int _); [discriminate|].
    injection H as <-. f_equal. lia.
  - apply quotient_nonneg; [assumption|lia].
Qed.

Lemma parse_storage_nonneg s v :
  leading_minus s = false -> _parse_storage_to_gi s = inr v -> 0 <= v.
Proof.
  intros Hm. unfold _parse_storage_to_gi.
  destruct (_ || _); [intros [= <-]; lia|].
  pose proof (leading_minus_strip s Hm) as Hs.
  pose proof (fun n => int_drop_last_nonneg 2 _ n Hs) as Hd.
  pose proof (fun n => int_nonneg _ n Hs) as Hw.
  destruct (endswith (strip s) "Ki"); [apply quotient_nonneg; [assumption|lia]|].
  destruct (endswith (strip s) "Mi"); [apply quotient_nonneg; [assumption|lia]|].
  destruct (endswith (strip s) "Gi"); [apply Hd|].
  destruct (endswith (strip s) "Ti"); [apply scaled_nonneg; [assumption|lia]|].
  apply quotient_nonneg; [assumption|lia].
Qed.

End ParserSigns.


(** C8.  The quantity parsers on the listed literals: ["500m"] is 500
    millicores, ["1"] is 1000, ["0"] and the empty string are 0, and
    ["bogus"] raises the [ValueError] of [float()], the parse error of the
    specification; ["2Gi"] is 2048 MiB, ["1000Ki"] is 0, ["512Mi"] is 512;
    ["1024Mi"] is 1 GiB and ["10Gi"] is 10. *)
Theorem parsers_on_examples :
  Quantity._parse_cpu_to_millicores "500m" = inr 500
  /\ Quantity._parse_cpu_to_millicores "1" = inr 1000
  /\ Quantity._parse_cpu_to_millicores "0" = inr 0
  /\ Quantity._parse_cpu_to_millicores "" = inr 0
  /\ Quantity._parse_cpu_to_millicores "bogus"
     = inl (ValueError "could not convert string to float: 'bogus'")
  /\ Quantity._parse_memory_to_mi "2Gi" = inr 2048
  /\ Quantity._parse_memory_to_mi "1000Ki" = inr 0
  /\ Quantity._parse_memory_to_mi "512Mi" = inr 512
  /\ Quantity._parse_storage_to_gi "1024Mi" = inr 1
  /\ Quantity._parse_storage_to_gi "10Gi" = inr 10.
Proof. repeat split; vm_compute; reflexivity. Qed.

(** C4, as stated, fails: a minus sign before the digits is read by
    [int()] and [float()] as part of the number, so the parsers return a
    negative scalar instead of raising. *)
Lemma parsers_accept_negative_prefix :
  Quantity._parse_cpu_to_millicores "-5m" = inr (-5)
  /\ Quantity._parse_cpu_to_millicores "-1" = inr (-1000)
  /\ Quantity._parse_memory_to_mi "-2Gi" = inr (-2048)
  /\ Quantity._parse_storage_to_gi "-3Gi" = inr (-3).
Proof. repeat split; vm_compute; reflexivity. Qed.

(** C4, amended.  For every input string whose first character after the
    leading white space is not a minus sign, a scalar returned by
    [_parse_cpu_to_millicores], [_parse_memory_to_mi] or
    [_parse_storage_to_gi] is non-negative. *)
Theorem parsers_nonneg_without_minus (s : string) (v : Z) :
  Quantity.leading_minus s = false ->
  Quantity._parse_cpu_to_millicores s = inr v
  \/ Quantity._parse_memory_to_mi s = inr v
  \/ Quantity._parse_storage_to_gi s = inr v ->
  0 <= v.
Proof.
  intros Hm [H|[H|H]].
  - eapply parse_cpu_nonneg; eauto.
  - eapply parse_memory_nonneg; eauto.
  - eapply parse_storage_nonneg; eauto.
Qed.

Lemma parsers_nonneg_without_minus_witness :
  Quantity.leading_minus "1000Ki" = false
  /\ Quantity._parse_memory_to_mi "1000Ki" = inr 0
  /\ 0 <= 0.
Proof.
  split; [reflexivity|]. split; [vm_compute; reflexivity|].
  apply (parsers_nonneg_without_minus "1000Ki" 0); [reflexivity|].
  right; left. vm_compute; reflexivity.
Defined.

(** ** Capacity accounting and admission *)




Section Accounting.

Context {K : Type} `{!CoreV1Api K}.

Import K8s.

Lemma check_unfold cpu0 mem sto (w : World K) :
  check_resources_available cpu0 mem sto w =
  match get_cluster_resources (logged (CheckResources cpu0 mem sto) w) with
  | (w1, inl e) => (w1, inr (failed_check e))
  | (w1, inr res) =>
      match decide_admission res cpu0 mem sto with
      | inl e => (w1, inr (failed_check e))
      | inr d => (w1, inr d)
      end
  end.
Proof.
  unfold check_resources_available, bind, try_except, logged, log, lift, ret.
  simpl.
  destruct (get_cluster_resources _) as [w1 [e|res]]; [reflexivity|].
  destruct (decide_admission res cpu0 mem sto); reflexivity.
Qed.

(** C6.  The admission check always returns a decision, whatever the
    request and the state of the cluster: no exception leaves it.  When the
    capacity figures cannot be obtained, because [get_cluster_resources]
    raises some [e], the decision is negative, its message is the single
    sentence that describes the failure, and its details are empty. *)
Theorem admission_never_raises cpu0 mem sto (w : World K) :
  (exists w' d, check_resources_available cpu0 mem sto w = (w', inr d))
  /\ (forall w1 e,
        get_cluster_resources (logged (CheckResources cpu0 mem sto) w)
        = (w1, inl e) ->
        check_resources_available cpu0 mem sto w
        = (w1, inr {| is_available := false;
                      message := FailedToCheck (str_exn e);
                      details := None |})).
Proof.
  rewrite check_unfold. split.
  - destruct (get_cluster_resources _) as [w1 [e|res]]; [eauto|].
    destruct (decide_admission res cpu0 mem sto); eauto.
  - intros w1 e ->. reflexivity.
Qed.


(** C2, amended.  The total of the capacity figures is the parsed
    allocatable cpu, memory and storage of the first node the cluster
    interface returns; the other nodes are not read.  It is the sum over
    all the nodes exactly when the figures of the other nodes can be parsed
    and sum to zero on every axis, as they do when one node is returned.
    The computation returns no figures and raises instead when the client
    cannot be initialised, when the node list cannot be obtained, and, with
    a [RuntimeError], when the node list is empty. *)
Theorem total_is_first_node (w : World K) :
  (forall w1 e, _ensure_k8s w = (w1, inl e) ->
                get_cluster_resources w = (w1, inl e))
  /\ (forall w1 w2 e,
        _ensure_k8s w = (w1, inr tt) -> api list_node w1 = (w2, inl e) ->
        get_cluster_resources w = (w2, inl e))
  /\ (forall w1 w2,
        _ensure_k8s w = (w1, inr tt) -> api list_node w1 = (w2, inr []) ->
        get_cluster_resources w
        = (w2, inl (RuntimeError "No nodes found in cluster")))
  /\ (forall w1 w2 node rest,
        _ensure_k8s w = (w1, inr tt) ->
        api list_node w1 = (w2, inr (node :: rest)) ->
        (forall w3 tot pods use,
           parse_quantities (allocatable node) = inr tot ->
           api list_pod_for_all_namespaces w2 = (w3, inr pods) ->
           add_pods zero_capacity pods = inr use ->
           get_cluster_resources w
           = (w3, inr {| total := tot; used := use;
                         available := sub_capacity tot use |}))
        /\ (forall w3 res,
              get_cluster_resources w = (w3, inr res) ->
              parse_quantities (allocatable node) = inr (total res)
              /\ (sum_allocatable (node :: rest) = inr (total res)
                  <-> sum_allocatable rest = inr zero_capacity)
              /\ (rest = [] ->
                  sum_allocatable (node :: rest) = inr (total res)))).
Proof.
  unfold get_cluster_resources.
  split; [|split; [|split]].
  - intros w1 e E. now rewrite (bind_inl _ _ _ _ _ E).
  - intros w1 w2 e E L. rewrite (bind_inr _ _ _ _ _ E).
    now rewrite (bind_inl _ _ _ _ _ L).
  - intros w1 w2 E L. rewrite (bind_inr _ _ _ _ _ E).
    now rewrite (bind_inr _ _ _ _ _ L).
  - intros w1 w2 node rest E L. split.
    + intros w3 tot pods use P L2 U.
      rewrite (bind_inr _ _ _ _ _ E), (bind_inr _ _ _ _ _ L).
      unfold bind, lift, ret. now rewrite P, L2, U.
    + intros w3 res.
      rewrite (bind_inr _ _ _ _ _ E), (bind_inr _ _ _ _ _ L).
      unfold bind, lift, ret.
      destruct (parse_quantities (allocatable node)) as [e|tot] eqn:P;
        [discriminate|].
      destruct (api list_pod_for_all_namespaces w2) as [w4 [e|pods]];
        [discriminate|].
      destruct (add_pods zero_capacity pods) as [e|use]; [discriminate|].
      intros [= _ <-]. cbn [total].
      assert (sum_allocatable (node :: rest) = inr tot
              <-> sum_allocatable rest = inr zero_capacity) as I.
      { cbn [sum_allocatable]. rewrite P. unfold rbind.
        destruct (sum_allocatable rest) as [e|r]; [split; discriminate|].
        destruct tot as [c m g], r as [c' m' g'].
        unfold add_capacity, zero_capacity. simpl. split.
        - intros [= Hc Hm Hg]. f_equal. f_equal; lia.
        - intros [= -> -> ->]. f_equal. f_equal; lia. }
      split; [reflexivity|]. split; [exact I|].
      intros ->. now apply I.
Qed.

End Accounting.

Import Sim.

(** C2, as stated, fails: with two nodes of one cpu, one GiB of memory and
    ten GiB of storage each, the total is the figure of the first node, not
    the sum over the nodes. *)
Lemma total_ignores_other_nodes :
  sum_allocatable (Sim.sim_nodes Sim.two_nodes)
  = inr {| cpu_millicores := 2000; memory_mi := 2048; storage_gi := 20 |}
  /\ (K8s.get_cluster_resources (Sim.world_of Sim.two_nodes false ∅)).2
     = inr {| total := {| cpu_millicores := 1000; memory_mi := 1024;
                          storage_gi := 10 |};
              used := K8s.zero_capacity;
              available := {| cpu_millicores := 1000; memory_mi := 1024;
                              storage_gi := 10 |} |}.
Proof. split; vm_compute; reflexivity. Qed.

Lemma total_is_first_node_witness :
  (K8s.get_cluster_resources (world_of no_config false ∅)).2
  = inl (RuntimeError
           "could not load kube config: Invalid kube-config file")
  /\ (K8s.get_cluster_resources (world_of empty_cluster true ∅)).2
     = inr {| total := {| cpu_millicores := 4000; memory_mi := 8192;
                          storage_gi := 100 |};
              used := K8s.zero_capacity;
              available := {| cpu_millicores := 4000; memory_mi := 8192;
                              storage_gi := 100 |} |}.
Proof.
  split.
  - rewrite (proj1 (total_is_first_node (world_of no_config false ∅))
               (world_of no_config false ∅)
               (RuntimeError
                  "could not load kube config: Invalid kube-config file"));
      [reflexivity | vm_compute; reflexivity].
  - pose proof
      (proj2 (proj2 (proj2 (total_is_first_node
                              (world_of empty_cluster true ∅))))) as T.
    destruct (T (world_of empty_cluster true ∅)
                (world_of empty_cluster true ∅)
                (node_of "4" "8Gi" "100Gi") []) as [T1 _];
      [vm_compute; reflexivity | vm_compute; reflexivity |].
    rewrite (T1 (world_of empty_cluster true ∅)
               {| cpu_millicores := 4000; memory_mi := 8192;
                  storage_gi := 100 |} [] K8s.zero_capacity);
      [reflexivity | vm_compute; reflexivity | vm_compute; reflexivity
      | reflexivity].
Defined.

Lemma admission_never_raises_witness :
  (K8s.check_resources_available (F_fin false 1 0) 512 1
     (world_of server_gone true ∅)).2
  = inr {| is_available := false;
           message := FailedToCheck "Connection refused";
           details := None |}.
Proof.
  rewrite (proj2 (admission_never_raises (F_fin false 1 0) 512 1
                    (world_of server_gone true ∅))
             (logged (CheckResources (F_fin false 1 0) 512 1)
                (world_of server_gone true ∅))
             (OtherException "MaxRetryError" "Connection refused"));
    [reflexivity | vm_compute; reflexivity].
Defined.



(** ** Frames: which helpers write the collection or note a call *)

Section Frames.

Context {K : Type} `{!CoreV1Api K}.

Import K8s Db.

Lemma Quiet_ret {A} (a : A) : Quiet (K := K) (ret a).
Proof. intros w w' r [= <- _]. auto. Qed.

Lemma Quiet_raise {A} e : Quiet (K := K) (A := A) (raise e).
Proof. intros w w' r [= <- _]. auto. Qed.

Lemma Quiet_lift {A} (x : result A) : Quiet (K := K) (lift x).
Proof. intros w w' r [= <- _]. auto. Qed.

Lemma Quiet_bind {A B} (m : M K A) (k : A -> M K B) :
  Quiet m -> (forall a, Quiet (k a)) -> Quiet (bind m k).
Proof.
  intros Hm Hk w w' r. unfold bind.
  destruct (m w) as [w1 [e|a]] eqn:E.
  - intros [= <- _]. eapply Hm; eauto.
  - intros E2. destruct (Hm _ _ _ E) as [S1 T1].
    destruct (Hk a _ _ _ E2) as [S2 T2]. split; congruence.
Qed.

Lemma Quiet_try {A} (m : M K A) h :
  Quiet m -> (forall e, Quiet (h e)) -> Quiet (try_except m h).
Proof.
  intros Hm Hh w w' r. unfold try_except.
  destruct (m w) as [w1 [e|a]] eqn:E.
  - intros E2. destruct (Hm _ _ _ E) as [S1 T1].
    destruct (Hh e _ _ _ E2) as [S2 T2]. split; congruence.
  - intros [= <- _]. eapply Hm; eauto.
Qed.

Lemma Quiet_api {A} (call : K -> K * result A) : Quiet (api call).
Proof.
  intros w w' r. unfold api. destruct (call (cluster w)) as [k' x].
  intros [= <- _]. auto.
Qed.

Lemma Quiet_ensure : Quiet _ensure_k8s.
Proof.
  intros w w' r. unfold _ensure_k8s.
  repeat match goal with
         | |- context [if ?b then _ else _] => destruct b
         | |- context [match ?x with Some _ => _ | None => _ end] =>
             destruct x
         end; intros [= <- _]; auto.
Qed.

Lemma Quiet_except_status {A} code (m : M K A) fallback :
  Quiet m -> Quiet (except_status code m fallback).
Proof.
  intros Hm. apply Quiet_try; [assumption|].
  intros e. destruct e; try apply Quiet_raise.
  destruct (status =? code); [apply Quiet_ret|apply Quiet_raise].
Qed.

Lemma Quiet_get_cluster_resources : Quiet get_cluster_resources.
Proof.
  unfold get_cluster_resources.
  apply Quiet_bind; [apply Quiet_ensure|intros _].
  apply Quiet_bind; [apply Quiet_api|intros [|node rest]].
  - apply Quiet_raise.
  - repeat (apply Quiet_bind; [first [apply Quiet_lift|apply Quiet_api]|];
            intros ?).
    apply Quiet_ret.
Qed.

(** The admission check notes its call first, never raises, and leaves the
    collection alone. *)
Lemma check_frame cpu0 mem sto (w : World K) :
  exists w1 d,
    check_resources_available cpu0 mem sto w = (w1, inr d)
    /\ students w1 = students w
    /\ trace w1 = (trace w ++ [CheckResources cpu0 mem sto])%list.
Proof.
  rewrite check_unfold.
  destruct (get_cluster_resources _) as [w1 r] eqn:G.
  destruct (Quiet_get_cluster_resources _ _ _ G) as [S T].
  unfold logged, log in S, T. simpl in S, T.
  destruct r as [e|res]; [eauto 6|].
  destruct (decide_admission res cpu0 mem sto); eauto 6.
Qed.

Lemma init_db_frame (w w' : World K) r :
  _init_db w = (w', r) -> students w' = students w /\ trace w' = trace w.
Proof.
  unfold _init_db.
  repeat match goal with
         | |- context [if ?b then _ else _] => destruct b
         | |- context [match ?x with Some _ => _ | None => _ end] =>
             destruct x
         end; intros [= <- _]; auto.
Qed.

Lemma collection_trace {A} (op : gmap string doc -> gmap string doc * A)
    (w w' : World K) r :
  collection op w = (w', r) -> trace w' = trace w.
Proof.
  unfold collection.
  destruct (db_fault w) as [[e []]|]; [now intros [= <- _]..|].
  destruct (op (students w)). now intros [= <- _].
Qed.

(** A call of [save_or_update_student] adds its note and nothing else to
    the log. *)
Lemma save_trace d st (w w' : World K) r :
  save_or_update_student d st w = (w', r) ->
  trace w' = (trace w ++ [SaveStudent (doc_name d) st])%list.
Proof.
  unfold save_or_update_student, bind, log. simpl.
  destruct (_init_db _) as [w1 [e|[]]] eqn:I;
    apply init_db_frame in I as [_ T]; simpl in T.
  - intros [= <- _]. assumption.
  - intros C. apply collection_trace in C. congruence.
Qed.

(** A call of [update_student_status] that returns has set the status, and
    the error when one is given, of the record of that name and of no
    other. *)
Lemma update_status_effect nm st err (w w' : World K) :
  update_student_status nm st err w = (w', inr tt) ->
  students w' = set_status nm st err (students w).
Proof.
  unfold update_student_status, bind, log. simpl.
  destruct (_init_db _) as [w1 [e|[]]] eqn:I; [discriminate|].
  apply init_db_frame in I as [S _]. simpl in S.
  unfold collection. destruct (db_fault w1) as [[? ?]|]; [discriminate|].
  intros [= <-]. simpl. now rewrite S.
Qed.

Lemma Unchecked_silent {A} (m : M K A) :
  (forall w w' r, m w = (w', r) -> trace w' = trace w) -> Unchecked m.
Proof.
  intros Hm w w' r E. exists []. rewrite app_nil_r. split; [|reflexivity].
  eapply Hm; eauto.
Qed.

Lemma Unchecked_quiet {A} (m : M K A) : Quiet m -> Unchecked m.
Proof. intros Q. apply Unchecked_silent. intros w w' r E. eapply Q; eauto. Qed.

Lemma Unchecked_bind {A B} (m : M K A) (k : A -> M K B) :
  Unchecked m -> (forall a, Unchecked (k a)) -> Unchecked (bind m k).
Proof.
  intros Hm Hk w w' r. unfold bind.
  destruct (m w) as [w1 [e|a]] eqn:E.
  - intros [= <- _]. eapply Hm; eauto.
  - intros E2. destruct (Hm _ _ _ E) as (e1 & T1 & C1).
    destruct (Hk a _ _ _ E2) as (e2 & T2 & C2).
    exists (e1 ++ e2)%list. rewrite T2, T1, <- app_assoc.
    split; [reflexivity|]. rewrite existsb_app, C1, C2. reflexivity.
Qed.

Lemma Unchecked_try {A} (m : M K A) h :
  Unchecked m -> (forall e, Unchecked (h e)) -> Unchecked (try_except m h).
Proof.
  intros Hm Hh w w' r. unfold try_except.
  destruct (m w) as [w1 [e|a]] eqn:E.
  - intros E2. destruct (Hm _ _ _ E) as (e1 & T1 & C1).
    destruct (Hh e _ _ _ E2) as (e2 & T2 & C2).
    exists (e1 ++ e2)%list. rewrite T2, T1, <- app_assoc.
    split; [reflexivity|]. rewrite existsb_app, C1, C2. reflexivity.
  - intros [= <- _]. eapply Hm; eauto.
Qed.

Lemma Unchecked_log ev : is_check ev = false -> Unchecked (K := K) (log ev).
Proof.
  intros C w w' r [= <- _]. exists [ev]. simpl. now rewrite C.
Qed.

Lemma Unchecked_collection {A}
    (op : gmap string doc -> gmap string doc * A) :
  Unchecked (K := K) (collection op).
Proof. apply Unchecked_silent. intros w w' r. apply collection_trace. Qed.

Lemma Unchecked_init_db : Unchecked (K := K) _init_db.
Proof.
  apply Unchecked_silent. intros w w' r E. now apply init_db_frame in E.
Qed.

(** A helper that notes its call, initialises its client and then runs a
    body. *)
Local Ltac unchecked_helper :=
  apply Unchecked_bind; [now apply Unchecked_log|intros _];
  apply Unchecked_bind;
    [first [apply Unchecked_init_db
           | apply Unchecked_quiet, Quiet_ensure]|intros _];
  first [apply Unchecked_collection
        | apply Unchecked_quiet, Quiet_except_status, Quiet_api].

Lemma Unchecked_get_pod_status ns nm : Unchecked (get_pod_status ns nm).
Proof. unfold get_pod_status. unchecked_helper. Qed.

Lemma Unchecked_create_namespace ns : Unchecked (create_namespace ns).
Proof. unfold create_namespace. unchecked_helper. Qed.

Lemma Unchecked_create_pod ns nm img c m s :
  Unchecked (create_pod ns nm img c m s).
Proof. unfold create_pod. unchecked_helper. Qed.

Lemma Unchecked_save d st :
  Unchecked (K := K) (save_or_update_student d st).
Proof. unfold save_or_update_student. unchecked_helper. Qed.

Lemma Unchecked_update nm st err :
  Unchecked (K := K) (update_student_status nm st err).
Proof. unfold update_student_status. unchecked_helper. Qed.

Lemma Unchecked_get_student nm : Unchecked (K := K) (get_student nm).
Proof. unfold get_student. unchecked_helper. Qed.

Lemma set_status_lookup nm st err (s : gmap string doc) d :
  s !! nm = Some d ->
  doc_status <$> set_status nm st err s !! nm = Some (Some st).
Proof.
  intros L. unfold set_status. rewrite L, lookup_insert_eq. reflexivity.
Qed.

End Frames.

(** ** Submit, deploy and resync *)

Section HandlerFacts.

Context {K : Type} `{!CoreV1Api K}.

Variable image : string.
Variable password : string.

Import K8s Db Models App.

Local Ltac conjs :=
  repeat match goal with |- _ /\ _ => split end;
  try eassumption; try discriminate; auto.

Lemma Unchecked_provision nm c m s : Unchecked (provision image nm c m s).
Proof.
  unfold provision. apply Unchecked_try.
  - apply Unchecked_bind; [apply Unchecked_create_namespace|intros _].
    apply Unchecked_bind; [apply Unchecked_create_pod|intros _].
    apply Unchecked_bind; [apply Unchecked_get_pod_status|intros phase].
    apply Unchecked_bind; [apply Unchecked_update|intros _].
    apply Unchecked_quiet, Quiet_ret.
  - intros e. apply Unchecked_bind; [apply Unchecked_update|intros _].
    apply Unchecked_quiet, Quiet_raise.
Qed.

Lemma Unchecked_deploy spec : Unchecked (deploy image spec).
Proof.
  unfold deploy.
  apply Unchecked_bind; [apply Unchecked_get_pod_status|intros phase].
  destruct (negb _); [apply Unchecked_quiet, Quiet_raise|].
  apply Unchecked_bind; [apply Unchecked_quiet, Quiet_lift|intros d].
  apply Unchecked_bind; [apply Unchecked_save|intros _].
  apply Unchecked_bind; [apply Unchecked_quiet, Quiet_lift|intros r].
  apply Unchecked_bind; [apply Unchecked_provision|intros p].
  apply Unchecked_quiet, Quiet_ret.
Qed.

Lemma Unchecked_deploy_from_db nm : Unchecked (deploy_from_db image nm).
Proof.
  unfold deploy_from_db.
  apply Unchecked_bind; [apply Unchecked_get_student|intros [d|]];
    [|apply Unchecked_quiet, Quiet_raise].
  apply Unchecked_bind; [apply Unchecked_quiet, Quiet_lift|intros gb].
  destruct (_ || _); [apply Unchecked_quiet, Quiet_raise|].
  apply Unchecked_bind; [|intros _].
  - apply Unchecked_try.
    + apply Unchecked_bind; [apply Unchecked_get_pod_status|intros phase].
      destruct (negb _); apply Unchecked_quiet;
        [apply Quiet_raise|apply Quiet_ret].
    + intros e. destruct (is_RuntimeError e);
        [|apply Unchecked_quiet, Quiet_raise].
      apply Unchecked_bind; [apply Unchecked_update|intros _].
      apply Unchecked_quiet, Quiet_raise.
  - apply Unchecked_bind; [apply Unchecked_provision|intros p].
    apply Unchecked_quiet, Quiet_ret.
Qed.

(** C1, amended.  [submit] performs the admission check, on capacity
    figures read from the cluster during that call, before it persists the
    spec: the check is the first helper call of the handler, the collection
    is untouched while it runs, a negative decision ends the handler with
    status 400 in the state the check left, and the only call that can
    follow is the one that saves the spec as pending.  [deploy] and
    [deploy_from_db] make no call of the admission check at all. *)
Theorem submit_checks_before_saving (spec : StudentSpec) (w : World K) :
  (forall nm, Unchecked (deploy_from_db image nm))
  /\ Unchecked (deploy image spec)
  /\ exists w1 d w' r evs,
    check_resources_available (cpu spec) (memory spec) (storage spec) w
    = (w1, inr d)
    /\ submit spec w = (w', r)
    /\ trace w1
       = (trace w ++ [CheckResources (cpu spec) (memory spec) (storage spec)])%list
    /\ students w1 = students w
    /\ (is_available d = false ->
        w' = w1 /\ exists det, r = inl (HTTPException 400 det))
    /\ trace w' = (trace w1 ++ evs)%list
    /\ (evs = [] \/ evs = [SaveStudent (name spec) "pending"])
    /\ guarded_by_check (cpu spec, memory spec, storage spec) false
         (CheckResources (cpu spec) (memory spec) (storage spec) :: evs)
       = true.
Proof.
  split; [apply Unchecked_deploy_from_db|].
  split; [apply Unchecked_deploy|].
  destruct (check_frame (cpu spec) (memory spec) (storage spec) w)
    as (w1 & d & C & S & T).
  exists w1, d. unfold submit. rewrite (bind_inr _ _ _ _ _ C).
  assert (forall evs,
            evs = [] \/ evs = [SaveStudent (name spec) "pending"] ->
            guarded_by_check (cpu spec, memory spec, storage spec) false
              (CheckResources (cpu spec) (memory spec) (storage spec) :: evs)
            = true) as G.
  { intros evs [->| ->]; cbn [guarded_by_check orb];
      rewrite ?bool_decide_eq_true_2 by reflexivity; reflexivity. }
  destruct (is_available d) eqn:A; cbn [negb].
  - unfold bind at 1, lift.
    destruct (to_persisted_doc spec) as [e|dc] eqn:P.
    + eexists _, _, []. rewrite app_nil_r.
      conjs.
    + assert (doc_name dc = name spec) as N.
      { unfold to_persisted_doc, rbind in P.
        destruct (to_k8s_resources spec); [discriminate|].
        now injection P as <-. }
      unfold try_except, bind at 1.
      destruct (save_or_update_student dc "pending" w1) as [w2 [e|[]]] eqn:Sv;
        apply save_trace in Sv; rewrite N in Sv;
        eexists _, _, [SaveStudent (name spec) "pending"];
        conjs.
  - eexists _, _, []. rewrite app_nil_r.
    conjs. eauto.
Qed.

Lemma get_pod_status_found ns nm (w w1 w2 : World K) phase :
  _ensure_k8s (logged (GetPodStatus ns nm) w) = (w1, inr tt) ->
  api (read_namespaced_pod (nm ++ "-pod") ns) w1 = (w2, inr phase) ->
  get_pod_status ns nm w = (w2, inr phase)
  /\ students w2 = students w
  /\ trace w2 = (trace w ++ [GetPodStatus ns nm])%list.
Proof.
  intros E R. unfold get_pod_status, bind at 1, log.
  unfold logged, log in E. simpl in *.
  rewrite (bind_inr _ _ _ _ _ E). unfold except_status.
  rewrite (try_except_inr _ _ _ _ _ R). split; [reflexivity|].
  apply Quiet_ensure in E as [S1 T1]. apply Quiet_api in R as [S2 T2].
  simpl in *. split; congruence.
Qed.

(** C7.  [deploy] answers 409 whenever the pod of the tenant exists in a
    phase other than ["Not Found"], and then neither the collection nor the
    cluster has been written: the read of the phase is the only helper call.
    [create_namespace] and [create_pod] return normally when the create
    call of the client raises an [ApiException] of status 409. *)
Theorem deploy_conflict_and_idempotent_create :
  (forall (spec : StudentSpec) (w w1 w2 : World K) phase,
      _ensure_k8s (logged (GetPodStatus (name spec) (name spec)) w)
      = (w1, inr tt) ->
      api (read_namespaced_pod (name spec ++ "-pod") (name spec)) w1
      = (w2, inr phase) ->
      phase <> "Not Found" ->
      deploy image spec w
      = (w2, inl (HTTPException 409
                    (DetailText ("Pod already exists with status: " ++ phase
                       ++ ". Delete it first or use a different name."))))
      /\ students w2 = students w
      /\ trace w2
         = (trace w ++ [GetPodStatus (name spec) (name spec)])%list)
  /\ (forall ns (w w1 w2 : World K) reason,
        _ensure_k8s (logged (CreateNamespace ns) w) = (w1, inr tt) ->
        api (create_namespace_call ns) w1
        = (w2, inl (ApiException 409 reason)) ->
        create_namespace ns w = (w2, inr tt))
  /\ (forall ns nm img c m s (w w1 w2 : World K) reason,
        _ensure_k8s (logged (CreatePod ns nm) w) = (w1, inr tt) ->
        api (create_namespaced_pod ns (pod_manifest nm img c m s)) w1
        = (w2, inl (ApiException 409 reason)) ->
        create_pod ns nm img c m s w = (w2, inr tt)).
Proof.
  split; [|split].
  - intros spec w w1 w2 phase E R Hp.
    destruct (get_pod_status_found _ _ _ _ _ _ E R) as (G & S & T).
    split; [|now split].
    unfold deploy. rewrite (bind_inr _ _ _ _ _ G).
    assert (String.eqb phase "Not Found" = false) as ->
      by now apply String.eqb_neq.
    reflexivity.
  - intros ns w w1 w2 reason E C.
    unfold create_namespace, bind at 1, log.
    unfold logged, log in E. simpl in *.
    rewrite (bind_inr _ _ _ _ _ E). unfold except_status.
    rewrite (try_except_inl _ _ _ _ _ C). reflexivity.
  - intros ns nm img c m s w w1 w2 reason E C.
    unfold create_pod, bind at 1, log.
    unfold logged, log in E. simpl in *.
    rewrite (bind_inr _ _ _ _ _ E). unfold except_status.
    rewrite (try_except_inl _ _ _ _ _ C). reflexivity.
Qed.

Lemma sync_all_cluster_down (ds : list doc) (w : World K) :
  sync_all false ds w = (w, inr (List.map cluster_down_row ds)).
Proof.
  induction ds as [|d ds IH]; [reflexivity|].
  cbn [sync_all List.map]. unfold bind at 1.
  cbn. unfold bind at 1. rewrite IH. reflexivity.
Qed.

Lemma list_students_frame (w w' : World K) r :
  list_students w = (w', r) -> students w' = students w.
Proof.
  unfold list_students, bind, log. simpl.
  destruct (_init_db _) as [w1 [e|[]]] eqn:I;
    apply init_db_frame in I as [S _]; simpl in S.
  - now intros [= <- _].
  - unfold collection.
    destruct (db_fault w1) as [[e []]|]; [now intros [= <- _]..|].
    intros [= <- _]. simpl. assumption.
Qed.

(** C3, amended.  When the client cannot be initialised, so that the read
    of the phase raises a [RuntimeError], [deploy_from_db] sets the
    persisted status to pending, annotates the record with ["Cluster
    unreachable: "] and the error, answers 503 and does not mark the record
    failed; and [admin_students] shows every record with the live phase
    ["Cluster Down"] and leaves the collection as it was.  When the client
    is there and the read of the phase raises, the loop of [admin_students]
    shows ["Not Found"] and marks a pending record failed. *)
Theorem unreachable_client_keeps_records (nm : string) (w : World K) :
  (forall w1 w2 w3 d msg gb,
      get_student nm w = (w1, inr (Some d)) ->
      Py.int (Py.replace_empty "Gi"
                (default "1Gi" (default ∅ (doc_k8s_resources d) !! "storage")))
      = inr gb ->
      is_falsy (default ∅ (doc_k8s_resources d) !! "cpu") = false ->
      is_falsy (default ∅ (doc_k8s_resources d) !! "memory") = false ->
      get_pod_status nm nm w1 = (w2, inl (RuntimeError msg)) ->
      update_student_status nm "pending"
        (Some ("Cluster unreachable: " ++ msg)) w2 = (w3, inr tt) ->
      deploy_from_db image nm w
      = (w3, inl (HTTPException 503
                    (DetailText
                       ("Kubernetes cluster is unreachable. Request saved as pending. Error: "
                        ++ msg))))
      /\ students w3
         = set_status nm "pending" (Some ("Cluster unreachable: " ++ msg))
             (students w2)
      /\ (forall old, students w2 !! nm = Some old ->
            doc_status <$> students w3 !! nm = Some (Some "pending")))
  /\ (forall key w1 e w2 ds,
        ensure_admin password key w = (w, inr tt) ->
        _ensure_k8s w = (w1, inl e) ->
        list_students w1 = (w2, inr ds) ->
        admin_students password key w
        = (w2, inr (List.map cluster_down_row ds))
        /\ students w2 = students w)
  /\ (forall d w1 e w2,
        doc_name d = nm ->
        doc_status d = Some "pending" ->
        get_pod_status nm nm w = (w1, inl e) ->
        update_student_status nm "failed" (Some "Cannot check pod status") w1
        = (w2, inr tt) ->
        sync_student true d w
        = (w2, inr {| row_doc := with_status d "failed";
                      live_phase := "Not Found";
                      db_status := "failed" |})).
Proof.
  split; [|split].
  - intros w1 w2 w3 d msg gb G I C Mm P U.
    pose proof (update_status_effect _ _ _ _ _ U) as S.
    split; [|split; [assumption|]].
    + unfold deploy_from_db. rewrite (bind_inr _ _ _ _ _ G).
      unfold bind at 1, lift. rewrite I, C, Mm. simpl.
      unfold bind at 1.
      rewrite (try_except_inl _
                 _ _ _ _ (bind_inl _ _ _ _ _ P)).
      simpl. rewrite (bind_inr _ _ _ _ _ U). reflexivity.
    + intros old L. rewrite S. eapply set_status_lookup; eauto.
  - intros key w1 e w2 ds A E L.
    split.
    + unfold admin_students. rewrite (bind_inr _ _ _ _ _ A).
      unfold bind at 1.
      rewrite (try_except_inl _ _ _ _ _ (bind_inl _ _ _ _ _ E)).
      unfold ret at 1. rewrite (bind_inr _ _ _ _ _ L).
      apply sync_all_cluster_down.
    + apply list_students_frame in L. apply Quiet_ensure in E as [S _].
      congruence.
  - intros d w1 e w2 N P G U. unfold sync_student. rewrite N, P.
    unfold bind at 1.
    rewrite (try_except_inl _ _ _ _ _ (bind_inl _ _ _ _ _ G)).
    change (String.eqb (default "unknown" (Some "pending")) "pending")
      with true.
    cbv iota. rewrite (bind_inr _ _ _ _ _ U). reflexivity.
Qed.

End HandlerFacts.

(** C1, as stated, fails: [deploy] saves the spec and creates the
    namespace and the pod without any call of the admission check, and
    [deploy_from_db] creates them without one as well. *)
Lemma deploy_skips_admission_check :
  trace (App.deploy "student-web:latest" alice
           (world_of empty_cluster false ∅)).1
  = [GetPodStatus "alice" "alice"; SaveStudent "alice" "pending";
     CreateNamespace "alice"; CreatePod "alice" "alice";
     GetPodStatus "alice" "alice"; UpdateStatus "alice" "deployed" None]
  /\ guarded_by_check (F_fin false 1 0, 512, 1) false
       (trace (App.deploy "student-web:latest" alice
                 (world_of empty_cluster false ∅)).1) = false
  /\ doc_status
       <$> students (App.deploy "student-web:latest" alice
                       (world_of empty_cluster false ∅)).1 !! "alice"
     = Some (Some "deployed")
  /\ trace (App.deploy_from_db "student-web:latest" "alice"
              (world_of empty_cluster false {[ "alice" := pending_alice ]})).1
     = [GetStudent "alice"; GetPodStatus "alice" "alice";
        CreateNamespace "alice"; CreatePod "alice" "alice";
        GetPodStatus "alice" "alice"; UpdateStatus "alice" "deployed" None]
  /\ guarded_by_check (F_fin false 1 0, 512, 1) false
       (trace (App.deploy_from_db "student-web:latest" "alice"
                 (world_of empty_cluster false
                    {[ "alice" := pending_alice ]})).1) = false.
Proof. repeat split; vm_compute; reflexivity. Qed.

Lemma submit_checks_before_saving_witness :
  exists w1 d,
    K8s.check_resources_available (F_fin false 1 0) 512 1
      (world_of empty_cluster false ∅) = (w1, inr d)
    /\ trace w1 = [CheckResources (F_fin false 1 0) 512 1]
    /\ trace (App.submit alice (world_of empty_cluster false ∅)).1
       = [CheckResources (F_fin false 1 0) 512 1;
          SaveStudent "alice" "pending"].
Proof.
  destruct (submit_checks_before_saving "student-web:latest" alice
              (world_of empty_cluster false ∅))
    as (_ & _ & w1 & d & w' & r & evs & C & _ & T & _).
  exists w1, d. split; [exact C|]. split; [exact T|].
  vm_compute; reflexivity.
Defined.

(** C3, as stated, fails: once the client is initialised, a read of the
    phase that raises because the API server cannot be reached makes
    [admin_students] show ["Not Found"] and mark a pending record failed;
    and [deploy_from_db] lets the same error through without annotating
    the record. *)
Lemma resync_marks_failed_when_server_gone :
  (fun d => (doc_status d, doc_last_error d))
    <$> students (App.admin_students "pw" (Some "pw")
                    (world_of server_gone false
                       {[ "alice" := pending_alice ]})).1 !! "alice"
  = Some (Some "failed", Some "Cannot check pod status")
  /\ trace (App.admin_students "pw" (Some "pw")
              (world_of server_gone false {[ "alice" := pending_alice ]})).1
     = [ListStudents; GetPodStatus "alice" "alice";
        UpdateStatus "alice" "failed" (Some "Cannot check pod status")]
  /\ (App.deploy_from_db "student-web:latest" "alice"
        (world_of server_gone false {[ "alice" := pending_alice ]})).2
     = inl (OtherException "MaxRetryError" "Connection refused")
  /\ (fun d => (doc_status d, doc_last_error d))
       <$> students (App.deploy_from_db "student-web:latest" "alice"
                       (world_of server_gone false
                          {[ "alice" := pending_alice ]})).1 !! "alice"
     = Some (Some "pending", None).
Proof. repeat split; vm_compute; reflexivity. Qed.

Lemma unreachable_client_keeps_records_witness :
  (App.deploy_from_db "student-web:latest" "alice"
     (world_of no_config false {[ "alice" := pending_alice ]})).2
  = inl (HTTPException 503
           (DetailText
              "Kubernetes cluster is unreachable. Request saved as pending. Error: could not load kube config: Invalid kube-config file"))
  /\ (fun d => (doc_status d, doc_last_error d))
       <$> students (App.deploy_from_db "student-web:latest" "alice"
                       (world_of no_config false
                          {[ "alice" := pending_alice ]})).1 !! "alice"
     = Some (Some "pending",
             Some "Cluster unreachable: could not load kube config: Invalid kube-config file")
  /\ (App.admin_students "pw" (Some "pw")
        (world_of no_config false {[ "alice" := pending_alice ]})).2
     = inr [cluster_down_row pending_alice]
  /\ students (App.admin_students "pw" (Some "pw")
                 (world_of no_config false {[ "alice" := pending_alice ]})).1
     = {[ "alice" := pending_alice ]}.
Proof.
  pose (w := world_of no_config false {[ "alice" := pending_alice ]}).
  pose (msg := "could not load kube config: Invalid kube-config file").
  destruct (unreachable_client_keeps_records "student-web:latest" "pw"
              "alice" w) as (D & A & _).
  destruct (D (Db.get_student "alice" w).1
              (K8s.get_pod_status "alice" "alice"
                 (Db.get_student "alice" w).1).1
              (Db.update_student_status "alice" "pending"
                 (Some ("Cluster unreachable: " ++ msg))
                 (K8s.get_pod_status "alice" "alice"
                    (Db.get_student "alice" w).1).1).1
              pending_alice msg 1) as (D1 & _ & _);
    try (vm_compute; reflexivity).
  destruct (A (Some "pw") w (RuntimeError msg)
              (Db.list_students w).1 [pending_alice]) as (A1 & A2);
    try (vm_compute; reflexivity).
  fold w. rewrite D1, A1. cbn [fst snd]. rewrite A2.
  repeat split; vm_compute; reflexivity.
Defined.

Lemma deploy_conflict_and_idempotent_create_witness :
  (App.deploy "student-web:latest" alice
     (world_of alice_running false ∅)).2
  = inl (HTTPException 409
           (DetailText
              "Pod already exists with status: Running. Delete it first or use a different name."))
  /\ (K8s.create_namespace "alice" (world_of alice_running false ∅)).2
     = inr tt
  /\ (K8s.create_pod "alice" "alice" "student-web:latest" "1" "512Mi" 1
        (world_of alice_running false ∅)).2 = inr tt
  /\ resp_status
       <$> (match (App.deploy "student-web:latest" alice
                     (world_of alice_raced false ∅)).2 with
            | inr resp => Some resp
            | inl _ => None
            end) = Some "deploying".
Proof.
  destruct (deploy_conflict_and_idempotent_create "student-web:latest")
    as (D & N & P).
  destruct (D alice (world_of alice_running false ∅)
              (K8s._ensure_k8s
                 (logged (GetPodStatus "alice" "alice")
                    (world_of alice_running false ∅))).1
              (K8s._ensure_k8s
                 (logged (GetPodStatus "alice" "alice")
                    (world_of alice_running false ∅))).1
              "Running") as (D1 & _ & _);
    [vm_compute; reflexivity | vm_compute; reflexivity | discriminate |].
  rewrite D1.
  rewrite (N "alice" (world_of alice_running false ∅)
             (K8s._ensure_k8s
                (logged (CreateNamespace "alice")
                   (world_of alice_running false ∅))).1
             (K8s._ensure_k8s
                (logged (CreateNamespace "alice")
                   (world_of alice_running false ∅))).1 "Conflict");
    [| vm_compute; reflexivity | vm_compute; reflexivity].
  rewrite (P "alice" "alice" "student-web:latest" "1" "512Mi" 1
             (world_of alice_running false ∅)
             (K8s._ensure_k8s
                (logged (CreatePod "alice" "alice")
                   (world_of alice_running false ∅))).1
             (K8s._ensure_k8s
                (logged (CreatePod "alice" "alice")
                   (world_of alice_running false ∅))).1 "Conflict");
    [| vm_compute; reflexivity | vm_compute; reflexivity].
  repeat split; vm_compute; reflexivity.
Defined.

(** ** The port-forward supervisor *)

Section SupervisorFacts.

Context {OS : Type} `{!LocalOS OS}.

Import Forward.

Lemma Untouched_sys {A} (call : OS -> OS * result A) : Untouched (sys call).
Proof.
  intros h h' r. unfold sys. destruct (call (os h)).
  intros [= <- _]. auto.
Qed.

Lemma Untouched_ret {A} (a : A) : Untouched (OS := OS) (ret a).
Proof. intros h h' r [= <- _]. auto. Qed.

Lemma Untouched_raise {A} e : Untouched (OS := OS) (A := A) (raise e).
Proof. intros h h' r [= <- _]. auto. Qed.

Lemma Untouched_bind {A B} (m : ST (Host OS) A) (k : A -> ST (Host OS) B) :
  Untouched m -> (forall a, Untouched (k a)) -> Untouched (bind m k).
Proof.
  intros Hm Hk h h' r. unfold bind.
  destruct (m h) as [h1 [e|a]] eqn:E.
  - intros [= <- _]. eapply Hm; eauto.
  - intros E2. destruct (Hm _ _ _ E) as [F1 L1].
    destruct (Hk a _ _ _ E2) as [F2 L2]. split; congruence.
Qed.

Lemma Untouched_next_free count : forall p,
  Untouched (next_free_from count p).
Proof.
  induction count as [|n IH]; intros p; simpl.
  - apply Untouched_raise.
  - apply Untouched_bind; [apply Untouched_sys|].
    intros [|]; [apply Untouched_ret|apply IH].
Qed.

Lemma Untouched_wait_open rounds pid lp : Untouched (wait_open rounds pid lp).
Proof.
  induction rounds as [|n IH]; simpl.
  - apply Untouched_ret.
  - apply Untouched_bind; [apply Untouched_sys|intros _].
    apply Untouched_bind; [apply Untouched_sys|intros [c|]].
    + apply Untouched_ret.
    + apply Untouched_bind; [apply Untouched_sys|].
      intros [|]; [apply IH|apply Untouched_ret].
Qed.

(** The wait of [pf_start] answers [ok] only after a poll that found the
    child alive and, next, a probe that found the port taken; the state of
    the machine is then the one the probe left. *)
Lemma wait_open_true rounds pid lp : forall (h h' : Host OS),
  wait_open rounds pid lp h = (h', inr true) ->
  exists o o', poll pid o = (o', None)
               /\ connect_fails lp o' = (os h', inr false).
Proof.
  induction rounds as [|n IH]; intros h h'; [discriminate|].
  cbn [wait_open]. unfold bind at 1, sys at 1. cbn [os fst snd].
  unfold bind at 1, sys at 1. cbn [os].
  destruct (poll pid (sleep (os h))) as [o1 [c|]] eqn:P; [discriminate|].
  unfold bind at 1, _is_port_free, sys at 1. cbn [os].
  destruct (connect_fails lp o1) as [o2 [e|[|]]] eqn:C; [discriminate| |].
  - apply IH.
  - intros [= <-]. cbn [os]. eauto.
Qed.

Lemma Untouched_choose_port (lp0 : option Z) :
  Untouched (match lp0 with
             | Some p => if p =? 0 then _next_free_port 8001 9000 else ret p
             | None => _next_free_port 8001 9000
             end).
Proof.
  destruct lp0 as [p|]; [destruct (p =? 0)|];
    first [apply Untouched_next_free | apply Untouched_ret].
Qed.

Lemma start_reads_file (name : string) (target_port : Z)
    (local_port0 : option Z) (h : Host OS) (info : pf_info) :
  all_space name = false ->
  pf_files h !! _pidfile name = Some info ->
  pf_start name target_port local_port0 h
  = (h, inr (already_forwarding name (info_port info))).
Proof.
  intros N L. unfold pf_start. rewrite N.
  unfold bind, _load_pf. rewrite L. reflexivity.
Qed.

(** C10.  When the registry file of a tenant exists, [pf_start] answers
    ["already-forwarding"] with the port stored in the file, whatever the
    state of the machine: it reads nothing but the file, so the recorded
    process is neither probed nor replaced, and the state, with its log of
    process calls, is left as it was. *)
Theorem start_trusts_registry_file (name : string) (target_port : Z)
    (local_port0 : option Z) (h : Host OS) (info : pf_info) :
  all_space name = false ->
  pf_files h !! _pidfile name = Some info ->
  pf_start name target_port local_port0 h
  = (h, inr (already_forwarding name (info_port info))).
Proof. apply start_reads_file. Qed.

(** What a call of [pf_start] that returns leaves behind: the registry
    holds the port it answered, and it spawned exactly one process, without
    signalling any, unless the file was there already.  The process was
    registered after a poll found it alive and a probe found its port
    taken. *)
Lemma start_outcome (name : string) (tp : Z) (lp0 : option Z)
    (h h1 : Host OS) (r1 : pf_response) :
  pf_start name tp lp0 h = (h1, inr r1) ->
  all_space name = false
  /\ (exists info, pf_files h1 !! _pidfile name = Some info
                   /\ info_port info = local_port r1)
  /\ (pf_files h !! _pidfile name = None ->
      pf_status r1 = "forwarding"
      /\ (exists cmd, os_log h1 = (os_log h ++ [Spawned cmd])%list)
      /\ exists pid o o',
           pf_files h1
           = <[_pidfile name := {| info_name := name; info_pid := pid;
                                   info_port := local_port r1 |}]>
               (pf_files h)
           /\ poll pid o = (o', None)
           /\ connect_fails (local_port r1) o' = (os h1, inr false))
  /\ (forall info, pf_files h !! _pidfile name = Some info ->
                   h1 = h /\ r1 = already_forwarding name (info_port info)).
Proof.
  unfold pf_start. destruct (all_space name) eqn:N; [discriminate|].
  intros E. split; [reflexivity|].
  unfold bind at 1, _load_pf in E.
  destruct (pf_files h !! _pidfile name) as [info|] eqn:L.
  - injection E as <- <-. split; [eauto|]. split; [discriminate|].
    intros info' [= <-]. auto.
  - unfold bind at 1 in E.
    match type of E with
    | context [match ?m h with _ => _ end] =>
        destruct (m h) as [h2 [e|lp]] eqn:P
    end; [discriminate|].
    apply Untouched_choose_port in P as [F2 L2].
    unfold bind at 1, os_note in E.
    unfold bind at 1 in E.
    match type of E with
    | context [sys ?c ?x] => destruct (sys c x) as [h3 [e|pid]] eqn:S
    end; [discriminate|].
    apply Untouched_sys in S as [F3 L3]. simpl in F3, L3.
    unfold bind at 1 in E.
    destruct (wait_open 20 pid lp h3) as [h4 [e|ok]] eqn:W; [discriminate|].
    pose proof W as W0.
    apply Untouched_wait_open in W as [F4 L4].
    destruct ok; simpl in E.
    + apply wait_open_true in W0 as (o & o' & Pl & Cn).
      unfold bind, _save_pf, ret in E. injection E as <- <-. simpl.
      split; [|split].
      * rewrite lookup_insert_eq. eauto.
      * intros _. split; [reflexivity|]. split.
        -- eexists. rewrite L4, L3, L2. reflexivity.
        -- exists pid, o, o'. split; [|split; assumption].
           congruence.
      * discriminate.
    + exfalso. revert E. unfold bind at 1.
      destruct (read_child_stderr _ h4) as [h5 [e|err]]; [discriminate|].
      unfold bind at 1.
      destruct (try_except _ _ h5) as [h6 [e|[]]]; discriminate.
Qed.


End SupervisorFacts.

Lemma start_trusts_registry_file_witness :
  (poll 4242 (os stale_entry)).2 = Some 1
  /\ Forward.pf_start "alice" 8000 None stale_entry
     = (stale_entry, inr (already_forwarding "alice" 8001)).
Proof.
  split; [reflexivity|].
  apply (start_trusts_registry_file "alice" 8000 None stale_entry
           {| info_name := "alice"; info_pid := 4242; info_port := 8001 |});
    vm_compute; reflexivity.
Defined.



(** * Further properties *)

(** ** The client of the cluster *)

Section ClientFacts.

Context {K : Type} `{!CoreV1Api K}.

Import K8s.

(** X1.  A call of [_ensure_k8s] that raises raises a [RuntimeError] and
    leaves the state as it was, the client still unset; a call that returns
    has set the client without touching the cluster, the collection or the
    log, and every later call returns at once in the same state. *)
Theorem ensure_k8s_outcomes (w w' : World K) (r : result unit) :
  _ensure_k8s w = (w', r) ->
  match r with
  | inl e => is_RuntimeError e = true /\ w' = w /\ k8s_v1 w = false
  | inr _ =>
      k8s_v1 w' = true /\ _ensure_k8s w' = (w', inr tt)
      /\ cluster w' = cluster w /\ students w' = students w
      /\ trace w' = trace w
  end.
Proof.
  unfold _ensure_k8s at 1. destruct (k8s_v1 w) eqn:V.
  - intros [= <- <-]. unfold _ensure_k8s. rewrite V. auto.
  - destruct (import_kubernetes (cluster w)); [now intros [= <- <-]|].
    destruct (load_kube_config (cluster w)).
    + destruct (load_incluster_config (cluster w));
        [now intros [= <- <-]|].
      intros [= <- <-]. unfold _ensure_k8s. simpl. auto.
    + intros [= <- <-]. unfold _ensure_k8s. simpl. auto.
Qed.

Lemma except_status_outcome {A} code (call : K -> K * result A) fallback
    (w w' : World K) e :
  api call w = (w', inl e) ->
  except_status code (api call) fallback w
  = (w', absorb_status code fallback e).
Proof.
  intros E. unfold except_status. rewrite (try_except_inl _ _ _ _ _ E).
  destruct e; try reflexivity. simpl. destruct (status =? code); reflexivity.
Qed.

(** X2.  When the client call behind [get_pod_status], [delete_pod] or
    [delete_namespace] raises, an [ApiException] of status 404 is absorbed
    (the phase is ["Not Found"], the deletion returns normally) and every
    other exception leaves the helper unchanged. *)
Theorem not_found_is_absorbed (ns nm : string) (w w1 w2 : World K)
    (e : exn) :
  (_ensure_k8s (logged (GetPodStatus ns nm) w) = (w1, inr tt) ->
   api (read_namespaced_pod (nm ++ "-pod") ns) w1 = (w2, inl e) ->
   get_pod_status ns nm w = (w2, absorb_status 404 "Not Found" e))
  /\ (_ensure_k8s (logged (DeletePod ns nm) w) = (w1, inr tt) ->
      api (delete_namespaced_pod (nm ++ "-pod") ns) w1 = (w2, inl e) ->
      delete_pod ns nm w = (w2, absorb_status 404 tt e))
  /\ (_ensure_k8s (logged (DeleteNamespace ns) w) = (w1, inr tt) ->
      api (delete_namespace_call ns) w1 = (w2, inl e) ->
      delete_namespace ns w = (w2, absorb_status 404 tt e)).
Proof.
  repeat split; intros E C.
  - unfold get_pod_status, bind at 1, log.
    unfold logged, log in E. simpl in *.
    rewrite (bind_inr _ _ _ _ _ E). now apply except_status_outcome.
  - unfold delete_pod, bind at 1, log.
    unfold logged, log in E. simpl in *.
    rewrite (bind_inr _ _ _ _ _ E). now apply except_status_outcome.
  - unfold delete_namespace, bind at 1, log.
    unfold logged, log in E. simpl in *.
    rewrite (bind_inr _ _ _ _ _ E). now apply except_status_outcome.
Qed.

(** ** The accountant *)

Lemma add_containers_filter acc cs :
  add_containers acc cs
  = add_containers acc (List.filter declares_requests cs).
Proof.
  revert acc. induction cs as [|c cs IH]; intros acc; [reflexivity|].
  cbn [add_containers List.filter]. unfold declares_requests at 1.
  destruct (resources_requests c) as [[requests|]|] eqn:R; auto.
  destruct (bool_decide (requests = ∅)) eqn:B; cbn [negb]; auto.
  cbn [add_containers]. rewrite R, B.
  destruct (parse_quantities requests); simpl; auto.
Qed.

(** X3.  The used figures depend only on the pods outside the skipped
    namespaces whose phase is ["Running"] or ["Pending"], and of those only
    on the containers that declare requests: every other pod or container
    can be dropped from the list without changing the outcome of the
    loop, a parse error included. *)
Theorem used_ignores_skipped (acc : capacity) (pods : list V1Pod) :
  add_pods acc pods
  = add_pods acc (List.map read_containers (List.filter counted_pod pods)).
Proof.
  revert acc. induction pods as [|pod pods IH]; intros acc; [reflexivity|].
  cbn [add_pods List.filter]. unfold counted_pod at 1.
  destruct (bool_decide (pod_namespace pod ∈ skip_namespaces)) eqn:N;
    cbn [negb andb]; auto.
  destruct (bool_decide (pod_phase pod ∈ counted_phases)) eqn:P;
    cbn [negb]; auto.
  cbn [List.map add_pods read_containers pod_namespace pod_phase
       pod_containers]. rewrite N, P. cbn [negb].
  rewrite <- add_containers_filter.
  destruct (add_containers acc (pod_containers pod)); simpl; auto.
Qed.

Lemma parse_quantities_nonneg d q :
  plain_quantities d -> parse_quantities d = inr q -> nonneg_capacity q.
Proof.
  intros (C & M & S). unfold parse_quantities, rbind.
  destruct (Quantity._parse_cpu_to_millicores _) as [|c] eqn:Ec;
    [discriminate|].
  destruct (Quantity._parse_memory_to_mi _) as [|m] eqn:Em; [discriminate|].
  destruct (Quantity._parse_storage_to_gi _) as [|s] eqn:Es; [discriminate|].
  intros [= <-]. unfold nonneg_capacity. simpl. repeat split.
  - exact (parse_cpu_nonneg _ _ C Ec).
  - exact (parse_memory_nonneg _ _ M Em).
  - exact (parse_storage_nonneg _ _ S Es).
Qed.

Lemma add_containers_nonneg cs : forall acc use,
  Forall plain_container cs -> nonneg_capacity acc ->
  add_containers acc cs = inr use -> nonneg_capacity use.
Proof.
  induction cs as [|c cs IH]; intros acc use F A; simpl.
  - now intros [= <-].
  - inversion F as [|? ? Pc F']; subst. unfold plain_container in Pc.
    destruct (resources_requests c) as [[requests|]|]; eauto.
    destruct (bool_decide (requests = ∅)); eauto.
    unfold rbind. destruct (parse_quantities requests) as [|q] eqn:Q;
      [discriminate|].
    apply IH; [assumption|].
    pose proof (parse_quantities_nonneg _ _ Pc Q) as (? & ? & ?).
    destruct A as (? & ? & ?). unfold nonneg_capacity. simpl. lia.
Qed.

(** X4.  When no request the accountant parses begins with a minus sign,
    the used figures are non-negative on every axis, so that the available
    figures never exceed the total. *)
Theorem used_is_nonneg (pods : list V1Pod) (tot use : capacity) :
  Forall (fun pod => counted_pod pod = true ->
                     Forall plain_container (pod_containers pod)) pods ->
  add_pods zero_capacity pods = inr use ->
  nonneg_capacity use
  /\ cpu_millicores (sub_capacity tot use) <= cpu_millicores tot
  /\ memory_mi (sub_capacity tot use) <= memory_mi tot
  /\ storage_gi (sub_capacity tot use) <= storage_gi tot.
Proof.
  intros F E.
  assert (nonneg_capacity use) as N.
  { assert (nonneg_capacity zero_capacity) as Z0
      by (unfold nonneg_capacity; simpl; lia).
    revert E Z0. generalize zero_capacity as acc.
    induction F as [|pod pods Hp F IH]; intros acc; simpl.
    - now intros [= <-].
    - unfold counted_pod in Hp.
      destruct (bool_decide (pod_namespace pod ∈ skip_namespaces));
        [apply IH|].
      destruct (bool_decide (pod_phase pod ∈ counted_phases));
        [|apply IH]. simpl.
      unfold rbind.
      destruct (add_containers acc (pod_containers pod)) as [|acc'] eqn:C;
        [discriminate|].
      intros E Z0. eapply IH; [exact E|].
      eapply add_containers_nonneg; [apply Hp; reflexivity|exact Z0|exact C]. }
  split; [exact N|]. destruct N as (? & ? & ?). simpl. lia.
Qed.

Lemma nonfinite_check (cpu0 : pyfloat) (mem sto : Z) (w : World K) :
  is_finite cpu0 = false ->
  exists w' d,
    check_resources_available cpu0 mem sto w = (w', inr d)
    /\ is_available d = false /\ details d = None.
Proof.
  intros F. rewrite check_unfold.
  destruct (get_cluster_resources _) as [w1 [e|res]]; [eauto 6|].
  assert (exists e, decide_admission res cpu0 mem sto = inl e) as [e ->].
  { unfold decide_admission.
    destruct cpu0 as [neg m e|neg|]; [discriminate| |]; simpl; eauto. }
  eauto 6.
Qed.

(** X5.  A request whose cpu is an infinity or a NaN is never admitted:
    whatever the cluster answers, the decision is negative and carries no
    details. *)
Theorem nonfinite_cpu_never_admitted (cpu0 : pyfloat) (mem sto : Z)
    (w : World K) :
  is_finite cpu0 = false ->
  exists w' d,
    check_resources_available cpu0 mem sto w = (w', inr d)
    /\ is_available d = false /\ details d = None.
Proof. apply nonfinite_check. Qed.

(** X6.  Admission is monotone: on the same capacity figures, a request
    that asks for no more millicores, memory and storage than an admitted
    one is admitted as well. *)
Theorem admission_is_monotone (res : cluster_resources)
    (cpu1 cpu2 : pyfloat) (mem1 mem2 sto1 sto2 rc1 rc2 : Z) (d1 : decision) :
  decide_admission res cpu1 mem1 sto1 = inr d1 ->
  is_available d1 = true ->
  Py.int_of_float (Py.float_mul cpu1 Py.float_1000) = inr rc1 ->
  Py.int_of_float (Py.float_mul cpu2 Py.float_1000) = inr rc2 ->
  rc2 <= rc1 -> mem2 <= mem1 -> sto2 <= sto1 ->
  exists d2, decide_admission res cpu2 mem2 sto2 = inr d2
             /\ is_available d2 = true
             /\ message d2 = ResourcesAvailable.
Proof.
  unfold decide_admission. intros D A C1 C2 Lc Lm Ls.
  rewrite C1 in D. rewrite C2. unfold rbind in *.
  destruct (cpu_millicores (available res) <? rc1) eqn:E1.
  { destruct (Py.true_div _ 1000); [discriminate|].
    simpl in D. injection D as <-. discriminate. }
  destruct (memory_mi (available res) <? mem1) eqn:E2.
  { simpl in D. injection D as <-. discriminate. }
  destruct (storage_gi (available res) <? sto1) eqn:E3.
  { simpl in D. injection D as <-. discriminate. }
  apply Z.ltb_ge in E1, E2, E3.
  assert ((cpu_millicores (available res) <? rc2) = false) as ->
    by (apply Z.ltb_ge; lia).
  assert ((memory_mi (available res) <? mem2) = false) as ->
    by (apply Z.ltb_ge; lia).
  assert ((storage_gi (available res) <? sto2) = false) as ->
    by (apply Z.ltb_ge; lia).
  simpl. eauto.
Qed.

End ClientFacts.

(** ** The store *)

Section StoreFacts.

Context {K : Type}.

Import Db.

Lemma init_db_ok (w w' : World K) :
  _init_db w = (w', inr tt) ->
  students_col w' = true /\ db_fault w' = db_fault w
  /\ students w' = students w /\ trace w' = trace w.
Proof.
  unfold _init_db. destruct (students_col w) eqn:C.
  - intros [= <-]. auto.
  - destruct (Py.is_empty (mongodb_url w)); [discriminate|].
    destruct (pymongo_import w); [discriminate|].
    intros [= <-]. simpl. auto.
Qed.

Lemma init_db_done (w : World K) :
  students_col w = true -> _init_db w = (w, inr tt).
Proof. intros C. unfold _init_db. now rewrite C. Qed.

(** A store helper that returns: the state after its note and the
    initialisation, on which the collection call ran. *)
Lemma helper_returns {A} ev (op : gmap string doc -> gmap string doc * A)
    (w w' : World K) a :
  bind (log ev) (fun _ => bind _init_db (fun _ => collection op)) w
  = (w', inr a) ->
  students_col w' = true /\ db_fault w' = None
  /\ students w' = (op (students w)).1 /\ a = (op (students w)).2.
Proof.
  unfold bind at 1, log. simpl. unfold bind at 1.
  destruct (_init_db _) as [wi [e|[]]] eqn:I; [discriminate|].
  apply init_db_ok in I as (C & F & S & _). simpl in F, S.
  unfold collection. destruct (db_fault wi) as [[? ?]|] eqn:Fi; [discriminate|].
  rewrite S. destruct (op (students w)) as [s' a'].
  intros [= <- <-]. simpl. auto.
Qed.


Lemma helper_runs {A} ev (op : gmap string doc -> gmap string doc * A)
    (w : World K) :
  students_col w = true -> db_fault w = None ->
  exists w',
    bind (log ev) (fun _ => bind _init_db (fun _ => collection op)) w
    = (w', inr (op (students w)).2)
    /\ students w' = (op (students w)).1.
Proof.
  intros C F. unfold bind at 1, log. simpl. unfold bind at 1.
  rewrite init_db_done by assumption. unfold collection. simpl.
  rewrite F. destruct (op (students w)) as [s' a]. simpl. eauto.
Qed.

(** X7.  After a call of [save_or_update_student] that returns, a lookup
    of the name finds a record with the name of the document saved and the
    status given.  Each of the numeric inputs, the resource strings and the
    last error of that record is the one the document carries when it
    carries one, and otherwise the one of the earlier record of that name,
    if there was one; the records of other names are as before. *)
Theorem save_then_get (d : doc) (st : string) (w w1 : World K) :
  save_or_update_student d st w = (w1, inr tt) ->
  let old := students w !! doc_name d in
  exists w2 stored,
    get_student (doc_name d) w1 = (w2, inr (Some stored))
    /\ students w2 = students w1
    /\ doc_name stored = doc_name d
    /\ doc_status stored = Some st
    /\ written_over (doc_input_numeric d) (old ≫= doc_input_numeric)
         (doc_input_numeric stored)
    /\ written_over (doc_k8s_resources d) (old ≫= doc_k8s_resources)
         (doc_k8s_resources stored)
    /\ written_over (doc_last_error d) (old ≫= doc_last_error)
         (doc_last_error stored)
    /\ (forall other, other <> doc_name d ->
                      students w1 !! other = students w !! other).
Proof.
  intros E old. apply helper_returns in E as (C & F & S & _). simpl in S.
  destruct (helper_runs (GetStudent (doc_name d))
              (fun s => (s, s !! doc_name d)) w1 C F) as (w2 & G & S2).
  simpl in G, S2. exists w2. unfold get_student. rewrite G, S2, S.
  unfold upsert_set. cbn [doc_name]. rewrite lookup_insert_eq.
  eexists. split; [reflexivity|]. split; [reflexivity|].
  split; [reflexivity|]. split; [reflexivity|]. cbn.
  split; [now destruct (doc_input_numeric d)|].
  split; [now destruct (doc_k8s_resources d)|].
  split; [now destruct (doc_last_error d)|].
  intros other N. now rewrite lookup_insert_ne.
Qed.

(** X8.  A call of [update_student_status] that returns never creates a
    record: when no record has the name the collection is unchanged.  When
    one has, its status becomes the one given, its last error is replaced
    only by an error that is given and is not empty, its other fields and
    the other records are kept. *)
Theorem update_status_cases (nm st : string) (err : option string)
    (w w1 : World K) :
  update_student_status nm st err w = (w1, inr tt) ->
  (students w !! nm = None -> students w1 = students w)
  /\ (forall old, students w !! nm = Some old ->
        exists new, students w1 !! nm = Some new
          /\ doc_status new = Some st
          /\ doc_last_error new
             = (if App.is_falsy err then doc_last_error old else err)
          /\ doc_name new = doc_name old
          /\ doc_input_numeric new = doc_input_numeric old
          /\ doc_k8s_resources new = doc_k8s_resources old)
  /\ (forall other, other <> nm ->
                    students w1 !! other = students w !! other).
Proof.
  intros E. apply update_status_effect in E. rewrite E.
  unfold set_status. repeat split.
  - now intros ->.
  - intros old ->. rewrite lookup_insert_eq. eexists. split; [reflexivity|].
    simpl. repeat split.
    destruct err as [e|]; simpl; [destruct (Py.is_empty e)|]; reflexivity.
  - intros other N. destruct (students w !! nm); [|reflexivity].
    now rewrite lookup_insert_ne.
Qed.

(** X9.  A call of [delete_student] that returns answers 1 when a record
    had the name and 0 when none had; afterwards a lookup of the name finds
    nothing and the other records are as before. *)
Theorem delete_then_get (nm : string) (w w1 : World K) (n : Z) :
  delete_student nm w = (w1, inr n) ->
  n = (if bool_decide (is_Some (students w !! nm)) then 1 else 0)
  /\ students w1 = delete nm (students w)
  /\ exists w2, get_student nm w1 = (w2, inr None).
Proof.
  intros E. apply helper_returns in E as (C & F & S & N). simpl in S, N.
  split; [|split; [assumption|]].
  - rewrite N. destruct (students w !! nm); reflexivity.
  - destruct (helper_runs (GetStudent nm) (fun s => (s, s !! nm)) w1 C F)
      as (w2 & G & _).
    simpl in G. exists w2. unfold get_student. rewrite G, S.
    now rewrite lookup_delete_eq.
Qed.


End StoreFacts.

(** ** Quantities written and read back *)

Section RoundTrips.

Import Py Quantity K8s Models App.

Lemma chars_app (s t : string) :
  list_ascii_of_string (s ++ t)
  = (list_ascii_of_string s ++ list_ascii_of_string t)%list.
Proof. induction s as [|c s IH]; simpl; [reflexivity|now rewrite IH]. Qed.

Lemma length_app_string (s t : string) :
  String.length (s ++ t) = (String.length s + String.length t)%nat.
Proof. induction s as [|c s IH]; simpl; [reflexivity|now rewrite IH]. Qed.

Lemma substring_suffix (s t : string) :
  substring (String.length s) (String.length t) (s ++ t) = t.
Proof.
  induction s as [|c s IH].
  - change ("" ++ t) with t. simpl.
    induction t as [|d t IHt]; simpl; [reflexivity|now rewrite IHt].
  - change (String c s ++ t) with (String c (s ++ t)). simpl. exact IH.
Qed.

Lemma substring_front (s t : string) :
  substring 0 (String.length s) (s ++ t) = s.
Proof.
  induction s as [|c s IH].
  - change ("" ++ t) with t. simpl. now destruct t.
  - change (String c s ++ t) with (String c (s ++ t)). simpl.
    now rewrite IH.
Qed.

Lemma endswith_app (s t suf : string) :
  String.length suf = String.length t ->
  endswith (s ++ t) suf = String.eqb t suf.
Proof.
  intros L. unfold endswith. rewrite length_app_string, L.
  replace (String.length s + String.length t - String.length t)%nat
    with (String.length s) by lia.
  rewrite substring_suffix.
  assert ((String.length t <=? String.length s + String.length t)%nat = true)
    as -> by (apply Nat.leb_le; lia).
  reflexivity.
Qed.

Lemma drop_last_app (s t : string) :
  drop_last (String.length t) (s ++ t) = s.
Proof.
  unfold drop_last. rewrite length_app_string.
  replace (String.length s + String.length t - String.length t)%nat
    with (String.length s) by lia.
  apply substring_front.
Qed.

Lemma drop_while_none (p : ascii -> bool) l :
  Forall (fun c => p c = false) l -> drop_while p l = l.
Proof. intros [|c r Hc _]; simpl; [reflexivity|now rewrite Hc]. Qed.

Lemma strip_with_none (p : ascii -> bool) l :
  Forall (fun c => p c = false) l -> strip_with p l = l.
Proof.
  intros F. unfold strip_with. rewrite (drop_while_none p l F).
  rewrite drop_while_none; [apply rev_involutive|].
  now apply List.Forall_rev.
Qed.

Lemma digit_not_space c :
  is_digit c = true -> is_space c = false /\ is_num_space c = false.
Proof.
  unfold is_digit, is_space, is_num_space. intros H.
  apply andb_true_iff in H as [L U]. apply Z.leb_le in L, U.
  rewrite !orb_false_iff, !andb_false_iff, !Z.leb_gt, !Z.eqb_neq. lia.
Qed.

Lemma pretty_N_char_digit (r : N) :
  (r < 10)%N ->
  is_digit (pretty_N_char r) = true
  /\ digit_val (pretty_N_char r) = Z.of_N r.
Proof.
  intros L.
  assert (r = 0 \/ r = 1 \/ r = 2 \/ r = 3 \/ r = 4 \/ r = 5 \/ r = 6
          \/ r = 7 \/ r = 8 \/ r = 9)%N as X by lia.
  repeat (destruct X as [->|X]; [split; reflexivity|]). subst.
  split; reflexivity.
Qed.

(** Reading the digits [pretty_N_go] writes gives the number back. *)
Lemma digits_pretty_N_go (x : N) : forall (s : string) (b : bool),
  digits_from b 0 (list_ascii_of_string (pretty_N_go x s))
  = digits_from (b || (0 <? Z.of_N x)) (Z.of_N x) (list_ascii_of_string s).
Proof.
  induction (N.lt_wf_0 x) as [x _ IH]. intros s b.
  destruct (N.eq_dec x 0%N) as [->|Nz].
  - rewrite pretty_N_go_0. simpl. now rewrite orb_false_r.
  - rewrite pretty_N_go_step by lia.
    rewrite IH by (apply N.div_lt; lia).
    destruct (pretty_N_char_digit (x mod 10)) as [D V];
      [apply N.mod_lt; lia|].
    cbn [list_ascii_of_string digits_from]. rewrite D, V.
    assert ((0 <? Z.of_N x) = true) as -> by (apply Z.ltb_lt; lia).
    rewrite orb_true_r. f_equal.
    rewrite N2Z.inj_div, N2Z.inj_mod. simpl (Z.of_N 10).
    pose proof (Z.div_mod (Z.of_N x) 10). lia.
Qed.

Lemma digits_only_pretty_N_go (x : N) : forall (s : string),
  Forall (fun c => is_digit c = true) (list_ascii_of_string s) ->
  Forall (fun c => is_digit c = true)
    (list_ascii_of_string (pretty_N_go x s)).
Proof.
  induction (N.lt_wf_0 x) as [x _ IH]. intros s F.
  destruct (N.eq_dec x 0%N) as [->|Nz].
  - now rewrite pretty_N_go_0.
  - rewrite pretty_N_go_step by lia. apply IH; [apply N.div_lt; lia|].
    simpl. constructor; [|assumption].
    apply pretty_N_char_digit, N.mod_lt. lia.
Qed.

(** [str(n)] for a non-negative int: digits only, which read back as
    [n]. *)
Lemma pretty_nonneg (n : Z) :
  0 <= n ->
  Forall (fun c => is_digit c = true) (list_ascii_of_string (pretty n))
  /\ digits_from false 0 (list_ascii_of_string (pretty n)) = Some n.
Proof.
  intros Hn. destruct n as [|p|p]; [| |lia].
  - split; [repeat constructor|reflexivity].
  - change (pretty (Z.pos p)) with (pretty_N_go (N.pos p) "").
    split; [apply digits_only_pretty_N_go; constructor|].
    rewrite digits_pretty_N_go. reflexivity.
Qed.

Lemma digits_from_nonempty l n : digits_from false 0 l = Some n -> l <> [].
Proof. now destruct l. Qed.

Lemma split_sign_digit c r :
  is_digit c = true -> split_sign (c :: r) = (false, c :: r).
Proof.
  intros D. simpl.
  destruct (Ascii.eqb c "-") eqn:E1;
    [apply Ascii.eqb_eq in E1; subst; discriminate|].
  destruct (Ascii.eqb c "+") eqn:E2;
    [apply Ascii.eqb_eq in E2; subst; discriminate|].
  reflexivity.
Qed.

(** [pretty_N_go] writes at most [k] digits for a number below [10^k]. *)
Lemma pretty_N_go_length (x : N) : forall (s : string) (k : nat),
  (x < 10 ^ N.of_nat k)%N ->
  (String.length (pretty_N_go x s) <= String.length s + k)%nat.
Proof.
  induction (N.lt_wf_0 x) as [x _ IH]. intros s k B.
  destruct (N.eq_dec x 0%N) as [->|Nz].
  - rewrite pretty_N_go_0. lia.
  - rewrite pretty_N_go_step by lia.
    destruct k as [|k]; [simpl in B; lia|].
    assert (x `div` 10 < 10 ^ N.of_nat k)%N as B'.
    { apply N.Div0.div_lt_upper_bound.
      rewrite Nat2N.inj_succ, N.pow_succ_r' in B. exact B. }
    pose proof (IH (x `div` 10)%N ltac:(apply N.div_lt; lia)
                  (String (pretty_N_char (x `mod` 10)) s) k B') as L.
    simpl in L. lia.
Qed.

Lemma pretty_length (n : Z) :
  0 <= n < 10 ^ int_max_str_digits ->
  (String.length (pretty n) <= 4300)%nat.
Proof.
  intros [Hn B]. destruct n as [|p|p]; [simpl; lia| |lia].
  change (pretty (Z.pos p)) with (pretty_N_go (N.pos p) "").
  apply (pretty_N_go_length (N.pos p) "" 4300).
  apply N2Z.inj_lt. rewrite N2Z.inj_pow. exact B.
Qed.

Lemma take_while_all (p : ascii -> bool) l :
  Forall (fun c => p c = true) l -> take_while p l = l.
Proof.
  induction 1 as [|c r Hc _ IH]; simpl; [reflexivity|].
  now rewrite Hc, IH.
Qed.

Lemma filter_all (p : ascii -> bool) l :
  Forall (fun c => p c = true) l -> List.filter p l = l.
Proof.
  induction 1 as [|c r Hc _ IH]; simpl; [reflexivity|].
  now rewrite Hc, IH.
Qed.

Lemma length_chars (s : string) :
  List.length (list_ascii_of_string s) = String.length s.
Proof. induction s as [|c s IH]; simpl; [reflexivity|now rewrite IH]. Qed.

(** [int(str(n)) == n] for a non-negative [n] that [str] can write. *)
Lemma int_pretty (n : Z) :
  0 <= n < 10 ^ int_max_str_digits -> Py.int (pretty n) = inr n.
Proof.
  intros B. destruct (pretty_nonneg n (proj1 B)) as [F D].
  pose proof (pretty_length n B) as Ln.
  unfold Py.int, too_many_digits, int_of_chars.
  rewrite strip_with_none
    by (eapply Forall_impl; [exact F|]; intros c Hc;
        now apply digit_not_space).
  destruct (list_ascii_of_string (pretty n)) as [|c r] eqn:L;
    [discriminate|].
  rewrite split_sign_digit by now inversion F.
  rewrite take_while_all
    by (eapply Forall_impl; [exact F|]; intros a Ha;
        unfold is_digit_or_underscore; now rewrite Ha).
  rewrite D, (filter_all _ _ F).
  assert (List.length (c :: r) = String.length (pretty n)) as ->
    by (rewrite <- L; apply length_chars).
  assert ((int_max_str_digits <? Z.of_nat (String.length (pretty n)))
          = false) as -> by (apply Z.ltb_ge; unfold int_max_str_digits; lia).
  reflexivity.
Qed.

(** What [str_int] writes, when it writes. *)
Lemma str_int_inr (n : Z) (t : string) :
  str_int n = inr t -> t = pretty n /\ Z.abs n < 10 ^ int_max_str_digits.
Proof.
  unfold str_int.
  destruct (10 ^ int_max_str_digits <=? Z.abs n) eqn:E; [discriminate|].
  intros [= <-]. split; [reflexivity|]. now apply Z.leb_gt.
Qed.

Lemma pretty_not_empty (n : Z) : 0 <= n -> pretty n <> "".
Proof.
  intros Hn E. destruct (pretty_nonneg n Hn) as [_ D].
  rewrite E in D. discriminate.
Qed.

Lemma pretty_never_empty (n : Z) : pretty n <> "".
Proof.
  destruct n as [|p|p]; [discriminate|apply pretty_not_empty; lia|].
  change (pretty (Z.neg p)) with ("-" ++ pretty (N.pos p)).
  change ("-" ++ pretty (N.pos p)) with (String "-" (pretty (N.pos p))).
  discriminate.
Qed.

Lemma round_float_nonneg x n :
  unsigned_float x -> round_float x = inr n -> 0 <= n.
Proof.
  destruct x as [neg m e| |]; simpl; [|discriminate..].
  intros [-> Hm] [= <-]. simpl.
  destruct (0 <=? e) eqn:E.
  - apply Z.leb_le in E. apply Z.mul_nonneg_nonneg; [lia|].
    apply Z.pow_nonneg. lia.
  - apply round_half_even_nonneg; [lia|]. apply Z.pow_pos_nonneg; lia.
Qed.

(** [s.replace("Gi", "")] on digits followed by ["Gi"] leaves the digits. *)
Lemma remove_unit_after_digits (t : string) : forall fuel : nat,
  Forall (fun c => is_digit c = true) (list_ascii_of_string t) ->
  (String.length t < fuel)%nat ->
  remove_all "Gi" fuel (t ++ "Gi") = t.
Proof.
  induction t as [|c t IH]; intros fuel F L.
  - change ("" ++ "Gi") with "Gi". destruct fuel as [|fuel]; [simpl in L; lia|].
    simpl. now destruct fuel.
  - change (String c t ++ "Gi") with (String c (t ++ "Gi")).
    destruct fuel as [|fuel]; [simpl in L; lia|].
    simpl in F. inversion F as [|? ? Hc Ft]; subst.
    cbn [remove_all]. 
    assert (String.prefix "Gi" (String c (t ++ "Gi")) = false) as ->.
    { cbn [String.prefix].
      destruct (Ascii.eqb "G" c) eqn:E; [|try reflexivity].
      - apply Ascii.eqb_eq in E. subst. discriminate.
      - try (destruct (ascii_dec "G" c); [subst; discriminate|reflexivity]). }
    rewrite IH; [reflexivity|assumption|simpl in L; lia].
Qed.

(** A quantity made of the digits of [n] and a unit of letters: the
    guards at the head of the three parsers let it through and strip
    leaves it alone. *)
Lemma quantity_guards (n : Z) (unit_ : string) :
  0 <= n -> unit_ <> "" ->
  Forall (fun c => is_space c = false) (list_ascii_of_string unit_) ->
  is_empty (pretty n ++ unit_) || String.eqb (pretty n ++ unit_) "0" = false
  /\ strip (pretty n ++ unit_) = pretty n ++ unit_.
Proof.
  intros Hn Hu Fu. split.
  - apply orb_false_iff. split.
    + pose proof (pretty_not_empty n Hn). now destruct (pretty n).
    + apply String.eqb_neq. intros E.
      apply (f_equal String.length) in E.
      rewrite length_app_string in E. simpl in E.
      pose proof (pretty_not_empty n Hn).
      destruct (pretty n); [congruence|]. destruct unit_; [congruence|].
      simpl in E. lia.
  - unfold strip. rewrite strip_with_none;
      [apply string_of_list_ascii_of_string|].
    rewrite chars_app. apply Forall_app. split; [|assumption].
    destruct (pretty_nonneg n Hn) as [F _].
    eapply Forall_impl; [exact F|]. intros c Hc. now apply digit_not_space.
Qed.

Lemma written_quantities (n : Z) :
  0 <= n < 10 ^ int_max_str_digits ->
  _parse_cpu_to_millicores (pretty n ++ "m") = inr n
  /\ _parse_memory_to_mi (pretty n ++ "Mi") = inr n
  /\ _parse_memory_to_mi (pretty n ++ "Gi") = inr (n * 1024)
  /\ _parse_memory_to_mi (pretty n ++ "Ti") = inr (n * 1024 * 1024)
  /\ _parse_storage_to_gi (pretty n ++ "Gi") = inr n
  /\ _parse_storage_to_gi (pretty n ++ "Ti") = inr (n * 1024).
Proof.
  intros B. pose proof (proj1 B) as Hn.
  pose proof (int_pretty n B) as I.
  assert (forall u : string,
            Py.int (drop_last (String.length u) (pretty n ++ u)) = inr n)
    as D by (intros u; now rewrite drop_last_app).
  repeat split.
  - unfold _parse_cpu_to_millicores.
    destruct (quantity_guards n "m" Hn) as [-> _];
      [discriminate|repeat constructor|].
    rewrite endswith_app by reflexivity. simpl (String.eqb "m" "m").
    cbv iota. exact (D "m").
  - unfold _parse_memory_to_mi.
    destruct (quantity_guards n "Mi" Hn) as [-> ->];
      [discriminate|repeat constructor|].
    rewrite !endswith_app by reflexivity. simpl. exact (D "Mi").
  - unfold _parse_memory_to_mi.
    destruct (quantity_guards n "Gi" Hn) as [-> ->];
      [discriminate|repeat constructor|].
    rewrite !endswith_app by reflexivity. simpl.
    change 2%nat with (String.length "Gi"). now rewrite D.
  - unfold _parse_memory_to_mi.
    destruct (quantity_guards n "Ti" Hn) as [-> ->];
      [discriminate|repeat constructor|].
    rewrite !endswith_app by reflexivity. simpl.
    change 2%nat with (String.length "Ti"). now rewrite D.
  - unfold _parse_storage_to_gi.
    destruct (quantity_guards n "Gi" Hn) as [-> ->];
      [discriminate|repeat constructor|].
    rewrite !endswith_app by reflexivity. simpl. exact (D "Gi").
  - unfold _parse_storage_to_gi.
    destruct (quantity_guards n "Ti" Hn) as [-> ->];
      [discriminate|repeat constructor|].
    rewrite !endswith_app by reflexivity. simpl.
    change 2%nat with (String.length "Ti"). now rewrite D.
Qed.

(** X11.  The quantities the deployer writes are read back by the
    accountant as the numbers they were written from: a cpu of [n]
    millicores written as the digits of [n] and ["m"], a memory of [n] MiB
    written with ["Mi"] and a storage of [n] GiB written with ["Gi"] parse
    to [n], for every [n] that is not negative and has no more digits than
    the interpreter converts (4300); and the other units scale as the
    parsers say. *)
Theorem written_quantities_read_back (n : Z) :
  0 <= n < 10 ^ 4300 ->
  _parse_cpu_to_millicores (pretty n ++ "m") = inr n
  /\ _parse_memory_to_mi (pretty n ++ "Mi") = inr n
  /\ _parse_memory_to_mi (pretty n ++ "Gi") = inr (n * 1024)
  /\ _parse_memory_to_mi (pretty n ++ "Ti") = inr (n * 1024 * 1024)
  /\ _parse_storage_to_gi (pretty n ++ "Gi") = inr n
  /\ _parse_storage_to_gi (pretty n ++ "Ti") = inr (n * 1024).
Proof. exact (written_quantities n). Qed.

(** X12.  A pod deployed for a spec with a cpu below one core is counted by
    the accountant as it was requested: the requests of the manifest that
    [create_pod] builds from the strings of [to_k8s_resources] parse to the
    rounded millicores, the memory and the storage of the spec. *)
Theorem fractional_request_counted_as_written
    (spec : StudentSpec) (r : k8s_strings) (nm image : string) :
  unsigned_float (cpu spec) ->
  float_lt_one (cpu spec) = true ->
  0 <= memory spec -> 0 <= storage spec ->
  to_k8s_resources spec = inr r ->
  exists n,
    round_float (float_mul (cpu spec) float_1000) = inr n
    /\ 0 <= n
    /\ parse_quantities
         (manifest_requests
            (pod_manifest nm image (k8s_cpu r) (k8s_memory r) (storage spec)))
       = inr {| cpu_millicores := n;
                memory_mi := memory spec;
                storage_gi := storage spec |}.
Proof.
  intros U L Hm Hs T. unfold to_k8s_resources in T. rewrite L in T.
  destruct (round_float (float_mul (cpu spec) float_1000)) as [e|n] eqn:R;
    [discriminate|].
  unfold rbind in T.
  destruct (str_int n) as [e|tc] eqn:Sc; [discriminate|].
  destruct (str_int (memory spec)) as [e|tm] eqn:Sm; [discriminate|].
  destruct (str_int (storage spec)) as [e|ts] eqn:Ss; [discriminate|].
  apply str_int_inr in Sc as [-> Bc], Sm as [-> Bm], Ss as [-> Bs].
  injection T as <-.
  assert (0 <= n) as Hn
    by (eapply round_float_nonneg; [apply float_mul_1000_unsigned, U|exact R]).
  exists n. split; [reflexivity|]. split; [assumption|].
  destruct (written_quantities n) as (C & _); [lia|].
  destruct (written_quantities (memory spec)) as (_ & Me & _); [lia|].
  destruct (written_quantities (storage spec)) as (_ & _ & _ & _ & St & _);
    [lia|].
  unfold parse_quantities, pod_manifest, get_or_zero.
  cbn [manifest_requests k8s_cpu k8s_memory].
  rewrite lookup_insert_eq.
  rewrite lookup_insert_ne by discriminate. rewrite lookup_insert_eq.
  rewrite !lookup_insert_ne by discriminate. rewrite lookup_insert_eq.
  cbn [from_option id]. rewrite C, Me, St. reflexivity.
Qed.

(** X13.  The record [to_persisted_doc] builds carries what
    [deploy_from_db] reads back: its cpu and memory strings are the ones
    [deploy] passes to the cluster, neither is empty, and the storage
    string, with its unit removed, converts to the storage of the spec. *)
Theorem stored_record_feeds_redeploy (spec : StudentSpec) (d : doc) :
  0 <= storage spec ->
  to_persisted_doc spec = inr d ->
  let k8s := default ∅ (doc_k8s_resources d) in
  exists r,
    to_k8s_resources spec = inr r
    /\ k8s !! "cpu" = Some (k8s_cpu r)
    /\ k8s !! "memory" = Some (k8s_memory r)
    /\ is_falsy (k8s !! "cpu") || is_falsy (k8s !! "memory") = false
    /\ Py.int (replace_empty "Gi" (default "1Gi" (k8s !! "storage")))
       = inr (storage spec).
Proof.
  intros Hs P k8s. unfold to_persisted_doc in P.
  destruct (to_k8s_resources spec) as [e|r] eqn:T; [discriminate|].
  simpl in P. injection P as <-. exists r. subst k8s.
  cbn [doc_k8s_resources from_option id]. unfold k8s_dict.
  rewrite lookup_insert_eq.
  rewrite lookup_insert_ne by discriminate. rewrite lookup_insert_eq.
  rewrite !lookup_insert_ne by discriminate. rewrite lookup_insert_eq.
  split; [reflexivity|]. split; [reflexivity|]. split; [reflexivity|].
  unfold to_k8s_resources, rbind in T.
  assert (k8s_memory r = pretty (memory spec) ++ "Mi"
          /\ k8s_storage r = pretty (storage spec) ++ "Gi"
          /\ k8s_cpu r <> ""
          /\ Z.abs (storage spec) < 10 ^ int_max_str_digits)
    as (Em & Es & Ec & Bs).
  { destruct (float_lt_one (cpu spec)) eqn:L.
    - destruct (round_float (float_mul (cpu spec) float_1000)) as [e|n] eqn:R;
        [discriminate|].
      destruct (str_int n) as [e|tc] eqn:Sc; [discriminate|].
      destruct (str_int (memory spec)) as [e|tm] eqn:Sm; [discriminate|].
      destruct (str_int (storage spec)) as [e|ts] eqn:Ss; [discriminate|].
      apply str_int_inr in Sm as [-> _], Ss as [-> Bs].
      injection T as <-. repeat split; [|assumption]. simpl.
      destruct tc; discriminate.
    - destruct (round_float (cpu spec)) as [e|n] eqn:R; [discriminate|].
      destruct (str_int n) as [e|tc] eqn:Sc; [discriminate|].
      destruct (str_int (memory spec)) as [e|tm] eqn:Sm; [discriminate|].
      destruct (str_int (storage spec)) as [e|ts] eqn:Ss; [discriminate|].
      apply str_int_inr in Sc as [-> _], Sm as [-> _], Ss as [-> Bs].
      injection T as <-. repeat split; [|assumption]. simpl.
      apply pretty_never_empty. }
  split.
  - apply orb_false_iff. split; cbn [is_falsy].
    + now destruct (k8s_cpu r).
    + rewrite Em. now destruct (pretty (memory spec)).
  - cbn [from_option id]. rewrite Es. unfold replace_empty.
    rewrite remove_unit_after_digits.
    + apply int_pretty. lia.
    + now apply pretty_nonneg.
    + rewrite length_app_string. simpl. lia.
Qed.

End RoundTrips.

(** ** Handlers *)

Section MoreHandlerFacts.

Context {K : Type} `{!CoreV1Api K}.

Variable image : string.
Variable password : string.

Import K8s Db Models App.

Lemma same_store_refl (w : World K) : same_store w w.
Proof. unfold same_store. auto. Qed.

Lemma same_store_trans (w1 w2 w3 : World K) :
  same_store w1 w2 -> same_store w2 w3 -> same_store w1 w3.
Proof. unfold same_store. intuition congruence. Qed.

Lemma same_store_ready (w w' : World K) :
  same_store w w' -> store_ready w -> store_ready w'.
Proof. unfold same_store, store_ready. intuition congruence. Qed.

Lemma KeepsStore_ret {A} (a : A) : KeepsStore (K := K) (ret a).
Proof. intros w w' r [= <- _]. apply same_store_refl. Qed.

Lemma KeepsStore_raise {A} e : KeepsStore (K := K) (A := A) (raise e).
Proof. intros w w' r [= <- _]. apply same_store_refl. Qed.

Lemma KeepsStore_lift {A} (x : result A) : KeepsStore (K := K) (lift x).
Proof. intros w w' r [= <- _]. apply same_store_refl. Qed.

Lemma KeepsStore_log ev : KeepsStore (K := K) (log ev).
Proof. intros w w' r [= <- _]. unfold same_store. simpl. auto. Qed.

Lemma KeepsStore_bind {A B} (m : M K A) (k : A -> M K B) :
  KeepsStore m -> (forall a, KeepsStore (k a)) -> KeepsStore (bind m k).
Proof.
  intros Hm Hk w w' r. unfold bind.
  destruct (m w) as [w1 [e|a]] eqn:E.
  - intros [= <- _]. eapply Hm; eauto.
  - intros E2. eapply same_store_trans; [eapply Hm|eapply Hk]; eauto.
Qed.

Lemma KeepsStore_try {A} (m : M K A) h :
  KeepsStore m -> (forall e, KeepsStore (h e)) -> KeepsStore (try_except m h).
Proof.
  intros Hm Hh w w' r. unfold try_except.
  destruct (m w) as [w1 [e|a]] eqn:E.
  - intros E2. eapply same_store_trans; [eapply Hm|eapply Hh]; eauto.
  - intros [= <- _]. eapply Hm; eauto.
Qed.

Lemma KeepsStore_api {A} (call : K -> K * result A) : KeepsStore (api call).
Proof.
  intros w w' r. unfold api. destruct (call (cluster w)) as [k' x].
  intros [= <- _]. unfold same_store. simpl. auto.
Qed.

Lemma KeepsStore_ensure : KeepsStore _ensure_k8s.
Proof.
  intros w w' r. unfold _ensure_k8s.
  repeat match goal with
         | |- context [if ?b then _ else _] => destruct b
         | |- context [match ?x with Some _ => _ | None => _ end] =>
             destruct x
         end; intros [= <- _]; unfold same_store; simpl; auto.
Qed.

Lemma KeepsStore_except_status {A} code (m : M K A) fallback :
  KeepsStore m -> KeepsStore (except_status code m fallback).
Proof.
  intros Hm. apply KeepsStore_try; [assumption|].
  intros e. destruct e as [?|?|?|?|st rs|? ?|?|? ?|?];
    try apply KeepsStore_raise.
  destruct (st =? code); [apply KeepsStore_ret|apply KeepsStore_raise].
Qed.

(** A helper of [k8s.py]: its note, the client, then one absorbed call. *)
Local Ltac keeps_store_helper :=
  apply KeepsStore_bind; [apply KeepsStore_log|intros _];
  apply KeepsStore_bind; [apply KeepsStore_ensure|intros _];
  apply KeepsStore_except_status, KeepsStore_api.

Lemma KeepsStore_get_pod_status ns nm : KeepsStore (get_pod_status ns nm).
Proof. unfold get_pod_status. keeps_store_helper. Qed.

Lemma KeepsStore_create_namespace ns : KeepsStore (create_namespace ns).
Proof. unfold create_namespace. keeps_store_helper. Qed.

Lemma KeepsStore_create_pod ns nm img c m s :
  KeepsStore (create_pod ns nm img c m s).
Proof. unfold create_pod. keeps_store_helper. Qed.

Lemma KeepsStore_delete_pod ns nm : KeepsStore (delete_pod ns nm).
Proof. unfold delete_pod. keeps_store_helper. Qed.

Lemma KeepsStore_delete_namespace ns : KeepsStore (delete_namespace ns).
Proof. unfold delete_namespace. keeps_store_helper. Qed.

Lemma KeepsStore_get_cluster_resources : KeepsStore get_cluster_resources.
Proof.
  unfold get_cluster_resources.
  apply KeepsStore_bind; [apply KeepsStore_ensure|intros _].
  apply KeepsStore_bind; [apply KeepsStore_api|intros [|node rest]].
  - apply KeepsStore_raise.
  - repeat (apply KeepsStore_bind;
              [first [apply KeepsStore_lift|apply KeepsStore_api]|];
            intros ?).
    apply KeepsStore_ret.
Qed.

Lemma KeepsStore_check cpu0 mem sto :
  KeepsStore (check_resources_available cpu0 mem sto).
Proof.
  unfold check_resources_available.
  apply KeepsStore_bind; [apply KeepsStore_log|intros _].
  apply KeepsStore_try.
  - apply KeepsStore_bind; [apply KeepsStore_get_cluster_resources|].
    intros res. apply KeepsStore_lift.
  - intros e. apply KeepsStore_ret.
Qed.

Lemma ensure_admin_cases key (w : World K) :
  (password <> "" /\ key = Some password
   /\ ensure_admin password key w = (w, inr tt))
  \/ (~ (password <> "" /\ key = Some password)
      /\ ensure_admin password key w
         = (w, inl (HTTPException (if Py.is_empty password then 500 else 401)
                      (DetailText (if Py.is_empty password
                                   then "ADMIN_PASSWORD not configured"
                                   else "Unauthorized"))))).
Proof.
  unfold ensure_admin. destruct password as [|c p] eqn:P; simpl.
  - right. split; [|reflexivity]. intros [N _]. now apply N.
  - destruct (bool_decide (key = Some (String c p))) eqn:B.
    + apply bool_decide_eq_true in B. left. auto.
    + apply bool_decide_eq_false in B. right. split; [|reflexivity].
      intros [_ E]. auto.
Qed.

(** X14.  The admin routes are guarded: [ensure_admin] lets a request
    through exactly when an admin password is configured and the key sent
    equals it.  Otherwise [admin_students] and [cleanup] answer 500 (no
    password configured) or 401 and leave the state as it was: no helper is
    called, nothing is deleted. *)
Theorem admin_routes_are_guarded (nm : string) (key : option string)
    (w : World K) :
  (ensure_admin password key w = (w, inr tt)
   <-> password <> "" /\ key = Some password)
  /\ (~ (password <> "" /\ key = Some password) ->
      exists e,
        e = HTTPException (if Py.is_empty password then 500 else 401)
              (DetailText (if Py.is_empty password
                           then "ADMIN_PASSWORD not configured"
                           else "Unauthorized"))
        /\ admin_students password key w = (w, inl e)
        /\ cleanup password nm key w = (w, inl e)).
Proof.
  destruct (ensure_admin_cases key w) as [(N & E & A)|(N & A)].
  - split; [split; auto|]. intros X. exfalso. auto.
  - split.
    + split; [|intros X; exfalso; auto]. rewrite A. discriminate.
    + intros _. eexists. split; [reflexivity|].
      unfold admin_students, cleanup.
      rewrite !(bind_inl _ _ _ _ _ A). auto.
Qed.

Lemma swallowed_keeps_store (m : M K unit) :
  KeepsStore m -> forall w, exists w',
    try_except m (fun _ => ret tt) w = (w', inr tt) /\ same_store w w'.
Proof.
  intros Hm w. unfold try_except.
  destruct (m w) as [w1 [e|[]]] eqn:E; exists w1;
    (split; [reflexivity|eapply Hm; eauto]).
Qed.

(** X15.  [cleanup] by an admin, with a store that can be used, always
    returns, whatever the cluster does with the two deletions (their
    exceptions are dropped): the record of the name is gone from the
    collection, the other records are kept, and the answer tells whether a
    record was there. *)
Theorem cleanup_removes_record (nm : string) (w : World K) :
  password <> "" -> store_ready w ->
  exists w',
    cleanup password nm (Some password) w
    = (w', inr (bool_decide (is_Some (students w !! nm))))
    /\ students w' = delete nm (students w).
Proof.
  intros N R.
  destruct (ensure_admin_cases (Some password) w) as [(_ & _ & A)|(X & _)];
    [|exfalso; auto].
  unfold cleanup. rewrite (bind_inr _ _ _ _ _ A).
  destruct (swallowed_keeps_store _ (KeepsStore_delete_pod nm nm) w)
    as (w1 & E1 & S1).
  rewrite (bind_inr _ _ _ _ _ E1).
  destruct (swallowed_keeps_store _ (KeepsStore_delete_namespace nm) w1)
    as (w2 & E2 & S2).
  rewrite (bind_inr _ _ _ _ _ E2).
  pose proof (same_store_trans _ _ _ S1 S2) as S.
  destruct (same_store_ready _ _ S R) as [C F].
  destruct (helper_runs (DeleteStudent nm)
              (fun s => (delete nm s,
                         match s !! nm with Some _ => 1 | None => 0 end))
              w2 C F) as (w3 & D & S3).
  unfold delete_student. rewrite (bind_inr _ _ _ _ _ D).
  exists w3. destruct S as (S & _). simpl in *. rewrite S3, S. split; [|reflexivity].
  unfold ret. do 2 f_equal. destruct (students w !! nm); reflexivity.
Qed.

Lemma get_pod_status_trace ns nm (w w1 : World K) r :
  get_pod_status ns nm w = (w1, r) ->
  trace w1 = (trace w ++ [GetPodStatus ns nm])%list.
Proof.
  unfold get_pod_status, bind at 1, log. simpl. intros E.
  assert (Quiet (bind _ensure_k8s (fun _ =>
            except_status 404
              (api (read_namespaced_pod (nm ++ "-pod") ns)) "Not Found")))
    as Q.
  { apply Quiet_bind; [apply Quiet_ensure|intros _].
    apply Quiet_except_status, Quiet_api. }
  now apply Q in E as [_ T].
Qed.

Lemma create_namespace_trace ns (w w1 : World K) r :
  create_namespace ns w = (w1, r) ->
  trace w1 = (trace w ++ [CreateNamespace ns])%list.
Proof.
  unfold create_namespace, bind at 1, log. simpl. intros E.
  assert (Quiet (bind _ensure_k8s (fun _ =>
            except_status 409 (api (create_namespace_call ns)) tt))) as Q.
  { apply Quiet_bind; [apply Quiet_ensure|intros _].
    apply Quiet_except_status, Quiet_api. }
  now apply Q in E as [_ T].
Qed.

Lemma update_trace nm st err (w w' : World K) r :
  update_student_status nm st err w = (w', r) ->
  trace w' = (trace w ++ [UpdateStatus nm st err])%list.
Proof.
  unfold update_student_status, bind at 1, log. simpl. unfold bind.
  destruct (_init_db _) as [xi [e'|[]]] eqn:I;
    apply init_db_frame in I as [_ T]; simpl in T.
  - now intros [= <- _].
  - intros Cc. apply collection_trace in Cc. congruence.
Qed.

(** X16.  The creation step of both deploy handlers ends in one of two
    ways.  When [create_namespace] or [create_pod] raises some [e], the
    record is marked failed with the text of [e] and the handler answers
    500; when the namespace could not be created the pod is not attempted.
    When both return and the phase is read, the record is marked deployed
    whatever that phase is, and the phase is the answer. *)
Theorem provision_outcomes (nm c m : string) (s : Z) (w : World K) :
  (forall w1 w2 e,
      create_namespace nm w = (w1, inl e) ->
      update_student_status nm "failed" (Some (str_exn e)) w1 = (w2, inr tt) ->
      provision image nm c m s w
      = (w2, inl (HTTPException 500
                    (DetailText ("K8s error: " ++ str_exn e))))
      /\ students w2
         = set_status nm "failed" (Some (str_exn e)) (students w)
      /\ trace w2
         = (trace w ++ [CreateNamespace nm;
                        UpdateStatus nm "failed" (Some (str_exn e))])%list)
  /\ (forall w1 w2 w3 e,
        create_namespace nm w = (w1, inr tt) ->
        create_pod nm nm image c m s w1 = (w2, inl e) ->
        update_student_status nm "failed" (Some (str_exn e)) w2
        = (w3, inr tt) ->
        provision image nm c m s w
        = (w3, inl (HTTPException 500
                      (DetailText ("K8s error: " ++ str_exn e))))
        /\ students w3
           = set_status nm "failed" (Some (str_exn e)) (students w))
  /\ (forall w1 w2 w3 w4 phase,
        create_namespace nm w = (w1, inr tt) ->
        create_pod nm nm image c m s w1 = (w2, inr tt) ->
        get_pod_status nm nm w2 = (w3, inr phase) ->
        update_student_status nm "deployed" None w3 = (w4, inr tt) ->
        provision image nm c m s w = (w4, inr phase)
        /\ students w4 = set_status nm "deployed" None (students w)).
Proof.
  unfold provision. split; [|split].
  - intros w1 w2 e N U.
    rewrite (try_except_inl _ _ _ _ _ (bind_inl _ _ _ _ _ N)).
    rewrite (bind_inr _ _ _ _ _ U).
    pose proof (update_status_effect _ _ _ _ _ U) as S.
    destruct (KeepsStore_create_namespace _ _ _ _ N) as (S1 & _).
    apply create_namespace_trace in N.
    split; [reflexivity|]. split; [congruence|].
    pose proof (update_trace _ _ _ _ _ _ U) as T.
    rewrite T, N, <- app_assoc. reflexivity.
  - intros w1 w2 w3 e N P U.
    rewrite (try_except_inl _ _ _ _ _
               (eq_trans (bind_inr _ _ _ _ _ N) (bind_inl _ _ _ _ _ P))).
    rewrite (bind_inr _ _ _ _ _ U).
    pose proof (update_status_effect _ _ _ _ _ U) as S.
    destruct (KeepsStore_create_namespace _ _ _ _ N) as (S1 & _).
    destruct (KeepsStore_create_pod _ _ _ _ _ _ _ _ _ P) as (S2 & _).
    split; [reflexivity|congruence].
  - intros w1 w2 w3 w4 phase N P G U.
    erewrite try_except_inr.
    2:{ rewrite (bind_inr _ _ _ _ _ N), (bind_inr _ _ _ _ _ P),
          (bind_inr _ _ _ _ _ G), (bind_inr _ _ _ _ _ U). reflexivity. }
    pose proof (update_status_effect _ _ _ _ _ U) as S.
    destruct (KeepsStore_create_namespace _ _ _ _ N) as (S1 & _).
    destruct (KeepsStore_create_pod _ _ _ _ _ _ _ _ _ P) as (S2 & _).
    destruct (KeepsStore_get_pod_status _ _ _ _ _ G) as (S3 & _).
    split; [reflexivity|congruence].
Qed.

(** X17.  With the cluster accessible and the phase of the pod read,
    [admin_students] moves a record along exactly two edges: pending
    becomes deployed when the phase is ["Running"], and pending or
    deployed becomes failed, with the error ["Pod not found"], when the
    phase is ["Not Found"].  In every other case, a failed record whose pod
    runs included, the record is shown as it is and nothing is written. *)
Theorem resync_transitions (d : doc) (w w1 : World K) (phase : string) :
  get_pod_status (doc_name d) (doc_name d) w = (w1, inr phase) ->
  match resync_target (default "unknown" (doc_status d)) phase with
  | Some (st, err) =>
      forall w2,
        update_student_status (doc_name d) st err w1 = (w2, inr tt) ->
        sync_student true d w
        = (w2, inr {| row_doc := with_status d st; live_phase := phase;
                      db_status := st |})
  | None =>
      sync_student true d w
      = (w1, inr {| row_doc := d; live_phase := phase;
                    db_status := default "unknown" (doc_status d) |})
  end
  /\ (resync_target (default "unknown" (doc_status d)) phase <> None ->
      (doc_status d = Some "pending" /\ phase = "Running")
      \/ ((doc_status d = Some "pending" \/ doc_status d = Some "deployed")
          /\ phase = "Not Found")).
Proof.
  intros G. split.
  - unfold sync_student, resync_target, try_except, bind. rewrite G.
    destruct (String.eqb phase "Running"
              && String.eqb (default "unknown" (doc_status d)) "pending").
    + intros w2 U. rewrite U. reflexivity.
    + destruct (String.eqb phase "Not Found" && _).
      * intros w2 U. rewrite U. reflexivity.
      * reflexivity.
  - unfold resync_target. destruct (doc_status d) as [st|]; simpl.
    + destruct (String.eqb phase "Running") eqn:P1,
        (String.eqb st "pending") eqn:S1,
        (String.eqb phase "Not Found") eqn:P2,
        (String.eqb st "deployed") eqn:S2; simpl; intros X;
        try congruence;
        repeat match goal with
               | H : String.eqb _ _ = true |- _ => apply String.eqb_eq in H
               end; subst; auto.
    + destruct (String.eqb phase "Running"), (String.eqb phase "Not Found");
        simpl; congruence.
Qed.

(** X18.  [admin_students] never writes a record whose status is neither
    pending nor deployed: whatever the cluster answers or raises, the loop
    body leaves the collection as it was for such a record and makes no
    call of [update_student_status]. *)
Theorem resync_leaves_other_statuses (accessible : bool) (d : doc)
    (w w' : World K) (r : result student_row) :
  doc_status d <> Some "pending" -> doc_status d <> Some "deployed" ->
  sync_student accessible d w = (w', r) ->
  students w' = students w
  /\ exists evs, trace w' = (trace w ++ evs)%list
                 /\ existsb is_status_update evs = false
  /\ exists row, r = inr row /\ row_doc row = d.
Proof.
  intros Np Nd.
  assert (String.eqb (default "unknown" (doc_status d)) "pending" = false)
    as Ep.
  { apply String.eqb_neq. destruct (doc_status d); simpl; congruence. }
  assert (String.eqb (default "unknown" (doc_status d)) "deployed" = false)
    as Ed.
  { apply String.eqb_neq. destruct (doc_status d); simpl; congruence. }
  unfold sync_student, try_except, bind. rewrite Ep, Ed.
  destruct accessible.
  - destruct (get_pod_status (doc_name d) (doc_name d) w) as [w1 [e|phase]]
      eqn:G; rewrite ?andb_false_r; cbn [orb];
      intros [= <- <-];
      (destruct (KeepsStore_get_pod_status _ _ _ _ _ G) as (S & _);
       apply get_pod_status_trace in G;
       split; [assumption|]; eexists; (split; [eassumption|]);
       split; [reflexivity|]; eexists; split; reflexivity).
  - intros [= <- <-]. split; [reflexivity|]. exists [].
    rewrite app_nil_r. repeat split. eexists; split; reflexivity.
Qed.

(** X19.  [status] answers the phase of the pod, ["Not Found"] included
    when the cluster knows no such pod, and turns every exception of the
    read, whatever its class, into the status 404 with the text of the
    exception. *)
Theorem status_errors_are_404 (nm : string) (w w' : World K)
    (r : result string) :
  status nm w = (w', r) ->
  get_pod_status nm nm w
  = (w', match r with
         | inr phase => inr phase
         | inl _ => (get_pod_status nm nm w).2
         end)
  /\ match r with
     | inr _ => True
     | inl e =>
         exists cause, (get_pod_status nm nm w).2 = inl cause
           /\ e = HTTPException 404
                    (DetailText ("Pod not found or error: " ++ str_exn cause))
     end.
Proof.
  unfold status, try_except.
  destruct (get_pod_status nm nm w) as [w1 [e|phase]] eqn:G.
  - intros [= <- <-]. simpl. eauto.
  - intros [= <- <-]. auto.
Qed.

Lemma nonfinite_spec_not_rendered (spec : StudentSpec) :
  is_finite (cpu spec) = false ->
  exists e, to_k8s_resources spec = inl e.
Proof.
  unfold to_k8s_resources. destruct (cpu spec) as [neg m e|neg|];
    [discriminate| |]; intros _; simpl.
  - destruct neg; simpl; eauto.
  - eauto.
Qed.

(** X20.  A spec whose cpu is an infinity or a NaN (the validator of the
    field refuses only a cpu that is at most zero) is never persisted: [submit] answers 400 and [deploy]
    raises, and both leave the collection as it was; [deploy] creates
    neither namespace nor pod. *)
Theorem nonfinite_cpu_never_persisted (spec : StudentSpec) (w : World K) :
  is_finite (cpu spec) = false ->
  (exists w' det, submit spec w = (w', inl (HTTPException 400 det))
                  /\ students w' = students w)
  /\ (exists w' e, deploy image spec w = (w', inl e)
                   /\ students w' = students w
                   /\ trace w'
                      = (trace w ++ [GetPodStatus (name spec) (name spec)])%list).
Proof.
  intros F. split.
  - destruct (nonfinite_check (cpu spec) (memory spec) (storage spec) w F)
      as (w1 & dd & C & A & _).
    destruct (KeepsStore_check _ _ _ _ _ _ C) as (S & _).
    unfold submit. rewrite (bind_inr _ _ _ _ _ C), A. simpl.
    eexists _, _. split; [reflexivity|assumption].
  - destruct (nonfinite_spec_not_rendered spec F) as [e R].
    unfold deploy.
    destruct (get_pod_status (name spec) (name spec) w) as [w1 [e'|phase]]
      eqn:G;
      destruct (KeepsStore_get_pod_status _ _ _ _ _ G) as (S & _);
      pose proof (get_pod_status_trace _ _ _ _ _ G) as T.
    + rewrite (bind_inl _ _ _ _ _ G). eauto.
    + rewrite (bind_inr _ _ _ _ _ G).
      destruct (negb _); [unfold raise; eauto|].
      unfold bind at 1, lift, to_persisted_doc. rewrite R. simpl. eauto.
Qed.

End MoreHandlerFacts.

(** ** The supervisor: ports, signals and the registry *)

Section MoreSupervisorFacts.

Context {OS : Type} `{!LocalOS OS}.

Import Forward.

Lemma next_free_from_spec count : forall p (h h' : Host OS) r,
  next_free_from count p h = (h', r) ->
  match r with
  | inr q =>
      p <= q < p + Z.of_nat count
      /\ exists o, taken_run (Z.to_nat (q - p)) p (os h) o
                   /\ connect_fails q o = (os h', inr true)
  | inl e =>
      (e = no_free_port /\ taken_run count p (os h) (os h'))
      \/ exists q o,
           p <= q < p + Z.of_nat count
           /\ taken_run (Z.to_nat (q - p)) p (os h) o
           /\ connect_fails q o = (os h', inl e)
  end.
Proof.
  induction count as [|n IH]; intros p h h' r; cbn [next_free_from].
  - intros [= <- <-]. left. split; reflexivity.
  - unfold bind, _is_port_free, sys.
    destruct (connect_fails p (os h)) as [o1 [e|free]] eqn:C.
    + intros [= <- <-]. right. exists p, (os h).
      rewrite Z.sub_diag. cbn. split; [lia|]. split; [reflexivity|exact C].
    + destruct free.
      * intros [= <- <-]. split; [lia|]. exists (os h).
        rewrite Z.sub_diag. cbn. split; [reflexivity|exact C].
      * intros E. apply IH in E. cbn [os] in E.
        assert (forall q, p + 1 <= q ->
                  Z.to_nat (q - p) = S (Z.to_nat (q - (p + 1)))) as Sq
          by (intros; lia).
        destruct r as [e|q].
        -- destruct E as [[-> T]|(q & o & B & T & X)].
           ++ left. split; [reflexivity|]. cbn. eauto.
           ++ right. exists q, o. split; [lia|].
              split; [|exact X]. rewrite Sq by lia. cbn. eauto.
        -- destruct E as (B & o & T & X). split; [lia|].
           exists o. split; [|exact X]. rewrite Sq by lia. cbn. eauto.
Qed.

Lemma next_free_from_taken count : forall p (h : Host OS) o',
  taken_run count p (os h) o' ->
  next_free_from count p h
  = (Build_Host o' (pf_files h) (os_log h), inl no_free_port).
Proof.
  induction count as [|n IH]; intros p h o'; cbn [next_free_from taken_run].
  - intros ->. now destruct h.
  - intros (o1 & C & T). unfold bind, _is_port_free, sys. rewrite C.
    now rewrite (IH (p + 1) (Build_Host o1 (pf_files h) (os_log h)) o' T).
Qed.

(** X21.  [_next_free_port] answers the first port of the range, bounds
    included, that a probe reports free: every port below it was probed
    before, in order, and found taken.  It raises its [RuntimeError] exactly
    when the probes of all the ports of the range, in order, found them
    taken, which is at once when the range is empty; any other exception
    is the one a probe raised.  No registry file is written and no process
    is started or signalled. *)
Theorem next_free_port_in_range (start end_ : Z) (h h' : Host OS)
    (r : result Z) :
  _next_free_port start end_ h = (h', r) ->
  match r with
  | inr p =>
      start <= p <= end_
      /\ exists o, taken_run (Z.to_nat (p - start)) start (os h) o
                   /\ connect_fails p o = (os h', inr true)
  | inl e =>
      (e = RuntimeError "No free local port found in range 8001-9000"
       /\ taken_run (Z.to_nat (end_ + 1 - start)) start (os h) (os h'))
      \/ exists p o,
           start <= p <= end_
           /\ taken_run (Z.to_nat (p - start)) start (os h) o
           /\ connect_fails p o = (os h', inl e)
  end
  /\ (forall o',
        taken_run (Z.to_nat (end_ + 1 - start)) start (os h) o' ->
        r = inl (RuntimeError "No free local port found in range 8001-9000")
        /\ os h' = o')
  /\ (end_ < start ->
      h' = h
      /\ r = inl (RuntimeError "No free local port found in range 8001-9000"))
  /\ pf_files h' = pf_files h /\ os_log h' = os_log h.
Proof.
  unfold _next_free_port. intros E. split; [|split; [|split]].
  - apply next_free_from_spec in E. destruct r as [e|p].
    + destruct E as [E|(q & o & B & T & X)]; [left; exact E|].
      right. exists q, o. split; [lia|]. split; assumption.
    + destruct E as (B & X). split; [lia|exact X].
  - intros o' T. apply next_free_from_taken in T. rewrite T in E.
    injection E as <- <-. split; reflexivity.
  - intros L. replace (Z.to_nat (end_ + 1 - start)) with O in E by lia.
    simpl in E. now injection E as <- <-.
  - eapply Untouched_next_free; eauto.
Qed.

Lemma kill_or_gone_spec pid signal (h h' : Host OS) r :
  kill_or_gone pid signal h = (h', r) ->
  pf_files h' = pf_files h
  /\ os_log h' = (os_log h ++ [Signalled pid signal])%list
  /\ (forall e m, r = inl e -> e <> ProcessLookupError m).
Proof.
  unfold kill_or_gone, bind at 1, os_note. simpl.
  unfold try_except, bind, sys. simpl.
  destruct (kill pid signal (os h)) as [o' [e|[]]].
  - destruct e; intros [= <- <-]; simpl;
      (split; [reflexivity|]); (split; [reflexivity|]);
      intros e0 m0 [= <-]; discriminate.
  - intros [= <- <-]. simpl. split; [reflexivity|]. split; [reflexivity|].
    discriminate.
Qed.

Lemma wait_exit_spec rounds pid : forall (h h' : Host OS) r,
  wait_exit rounds pid h = (h', r) ->
  pf_files h' = pf_files h
  /\ (forall e m, r = inl e -> e <> ProcessLookupError m)
  /\ exists probes,
       os_log h' = (os_log h ++ repeat (Signalled pid 0) probes)%list
       /\ (probes <= rounds)%nat
       /\ (r = inr false -> probes = rounds).
Proof.
  induction rounds as [|n IH]; intros h h' r; simpl.
  - intros [= <- <-]. split; [reflexivity|]. split; [discriminate|].
    exists O.
    simpl. rewrite app_nil_r. auto.
  - unfold bind at 1, sys at 1. simpl. unfold bind at 1.
    destruct (kill_or_gone pid 0 _) as [h1 [e|there]] eqn:Kg;
      apply kill_or_gone_spec in Kg as (F1 & L1 & N1); simpl in F1, L1.
    + intros [= <- <-]. split; [assumption|].
      split; [intros e0 m0 [= <-]; now apply (N1 e m0)|].
      exists 1%nat. simpl. split; [assumption|]. split; [lia|discriminate].
    + destruct there.
      * intros E. apply IH in E as (F2 & N2 & k & L2 & B & X).
        split; [congruence|]. split; [assumption|]. exists (S k).
        rewrite L2, L1, <- app_assoc. simpl.
        split; [reflexivity|]. split; [lia|]. intros R. f_equal. auto.
      * intros [= <- <-]. split; [assumption|]. split; [discriminate|].
        exists 1%nat. simpl. split; [assumption|]. split; [lia|discriminate].
Qed.

Lemma kill_pid_spec pid (h h' : Host OS) r :
  _kill_pid pid h = (h', r) ->
  pf_files h' = pf_files h
  /\ (forall e m, r = inl e -> e <> ProcessLookupError m)
  /\ exists probes forced,
       os_log h'
       = (os_log h ++ Signalled pid SIGTERM :: escalation pid probes forced)%list
       /\ (probes <= 10)%nat
       /\ (forced = true -> probes = 10%nat).
Proof.
  unfold _kill_pid, bind at 1.
  destruct (kill_or_gone pid SIGTERM h) as [h1 [e|there]] eqn:K1;
    apply kill_or_gone_spec in K1 as (F1 & L1 & N1).
  - intros [= <- <-]. split; [assumption|].
    split; [intros e0 m0 [= <-]; now apply (N1 e m0)|].
    exists O, false. split; [exact L1|]. split; [lia|discriminate].
  - destruct there.
    + unfold bind at 1.
      destruct (wait_exit 10 pid h1) as [h2 [e|gone]] eqn:W;
        apply wait_exit_spec in W as (F2 & N2 & k & L2 & B & X).
      * intros [= <- <-]. split; [congruence|].
        split; [intros e0 m0 [= <-]; now apply (N2 e m0)|].
        exists k, false. unfold escalation. rewrite app_nil_r.
        rewrite L2, L1, <- app_assoc. simpl.
        split; [reflexivity|]. split; [assumption|discriminate].
      * destruct gone.
        -- intros [= <- <-]. split; [congruence|].
           split; [discriminate|].
           exists k, false. unfold escalation. rewrite app_nil_r.
           rewrite L2, L1, <- app_assoc. simpl.
           split; [reflexivity|]. split; [assumption|discriminate].
        -- unfold bind.
           destruct (kill_or_gone pid SIGKILL h2) as [h3 [e|b]] eqn:K3;
             apply kill_or_gone_spec in K3 as (F3 & L3 & N3);
             intros [= <- <-]; (split; [congruence|]);
             (split; [first [discriminate
                            |intros e0 m0 [= <-]; now apply (N3 e m0)]|]);
             exists k, true; unfold escalation;
             rewrite L3, L2, L1, <- !app_assoc; simpl;
             (split; [reflexivity|]); (split; [assumption|]);
             intros _; now apply X.
    + intros [= <- <-]. split; [assumption|]. split; [discriminate|].
      exists O, false. split; [exact L1|]. split; [lia|discriminate].
Qed.


Lemma KeepsFiles_untouched {A} (m : ST (Host OS) A) :
  Untouched m -> KeepsFiles m.
Proof. intros U h h' r E. now apply U in E as [F _]. Qed.

Lemma KeepsFiles_bind {A B} (m : ST (Host OS) A) (k : A -> ST (Host OS) B) :
  KeepsFiles m -> (forall a, KeepsFiles (k a)) -> KeepsFiles (bind m k).
Proof.
  intros Hm Hk h h' r. unfold bind.
  destruct (m h) as [h1 [e|a]] eqn:E.
  - intros [= <- _]. eapply Hm; eauto.
  - intros E2. rewrite (Hk a _ _ _ E2). eapply Hm; eauto.
Qed.

Lemma KeepsFiles_try {A} (m : ST (Host OS) A) hd :
  KeepsFiles m -> (forall e, KeepsFiles (hd e)) ->
  KeepsFiles (try_except m hd).
Proof.
  intros Hm Hh h h' r. unfold try_except.
  destruct (m h) as [h1 [e|a]] eqn:E.
  - intros E2. rewrite (Hh e _ _ _ E2). eapply Hm; eauto.
  - intros [= <- _]. eapply Hm; eauto.
Qed.

Lemma KeepsFiles_kill pid : KeepsFiles (_kill_pid pid).
Proof. intros h h' r E. now apply kill_pid_spec in E as [F _]. Qed.

Lemma KeepsFiles_note ev : KeepsFiles (OS := OS) (os_note ev).
Proof. now intros h h' r [= <- _]. Qed.

(** The part of [pf_start] that runs when the port did not open: read the
    error output to its end, kill the child, raise. *)
Lemma unready_spec (pid lp : Z) (h h' : Host OS) (r : result pf_response) :
  bind (read_child_stderr pid)
    (fun err =>
       bind (try_except (_kill_pid pid) (fun _ => ret tt))
         (fun _ =>
            raise (HTTPException 500
                     (DetailText ("Failed to start port-forward (port="
                                  ++ pretty lp ++ "). " ++ err))))) h
  = (h', r) ->
  pf_files h' = pf_files h
  /\ match read_stderr pid (os h) with
     | None => h' = h /\ r = inl (Blocked "proc.stderr.read()")
     | Some (o, out) =>
         exists rest,
           r = inl (HTTPException 500
                      (DetailText
                         ("Failed to start port-forward (port="
                          ++ pretty lp ++ "). "
                          ++ match out with
                             | inr text => Py.strip text
                             | inl _ => ""
                             end)))
           /\ os_log h'
              = (os_log h ++ Signalled pid SIGTERM :: rest)%list
     end.
Proof.
  unfold bind at 1, read_child_stderr.
  destruct (read_stderr pid (os h)) as [[o out]|].
  - unfold bind at 1, try_except.
    destruct (_kill_pid pid _) as [h2 [e|[]]] eqn:Kp;
      apply kill_pid_spec in Kp as (F2 & _ & probes & forced & L2 & _);
      simpl in F2, L2; intros [= <- <-]; (split; [exact F2|]);
      eexists; (split; [reflexivity|]); exact L2.
  - intros [= <- <-]. auto.
Qed.

Lemma failed_start_files (name : string) (tp : Z)
    (lp0 : option Z) (h h' : Host OS) (e : exn) :
  pf_start name tp lp0 h = (h', inl e) ->
  pf_files h' = pf_files h
  /\ (all_space name = true ->
      h' = h /\ e = HTTPException 400 (DetailText "name required")).
Proof.
  unfold pf_start. destruct (all_space name).
  { intros [= <- <-]. auto. }
  intros E. split; [|discriminate].
  revert E. unfold bind at 1, _load_pf.
  destruct (pf_files h !! _pidfile name); [discriminate|].
  unfold bind at 1.
  match goal with
  | |- context [match ?m h with _ => _ end] =>
      destruct (m h) as [h1 [e1|lp]] eqn:P
  end; apply Untouched_choose_port in P as [F1 _].
  { now intros [= <- _]. }
  unfold bind at 1, os_note. unfold bind at 1.
  match goal with
  | |- context [sys ?c ?x] => destruct (sys c x) as [h2 [e2|pid]] eqn:S
  end; apply Untouched_sys in S as [F2 _]; simpl in F2.
  { intros [= <- _]. congruence. }
  unfold bind at 1.
  destruct (wait_open 20 pid lp h2) as [h3 [e3|ok]] eqn:W;
    apply Untouched_wait_open in W as [F3 _].
  { intros [= <- _]. congruence. }
  destruct ok; cbn [negb].
  - unfold bind, _save_pf, ret. discriminate.
  - intros E. apply unready_spec in E as [F4 _]. congruence.
Qed.

(** X23.  A call of [pf_start] that raises has written no registry file;
    a blank name is refused with status 400 before anything is read or
    started. *)
Theorem failed_start_leaves_registry (name : string) (tp : Z)
    (lp0 : option Z) (h h' : Host OS) (e : exn) :
  pf_start name tp lp0 h = (h', inl e) ->
  pf_files h' = pf_files h
  /\ (all_space name = true ->
      h' = h /\ e = HTTPException 400 (DetailText "name required")).
Proof. apply failed_start_files. Qed.

(** X24.  When the child was spawned and the wait ended without the port
    open, [pf_start] reads the error output of the child to its end.  When
    that read returns, [pf_start] sends the child the termination signal,
    then answers 500 with the text read, and writes no registry file.  When
    the read never returns, because the child stays and keeps its error
    output open, [pf_start] gives no answer and has sent no signal. *)
Theorem unready_child_read_then_terminated (name : string) (tp lp pid : Z)
    (lp0 : option Z) (h h1 h2 h3 : Host OS) :
  all_space name = false ->
  pf_files h !! _pidfile name = None ->
  (match lp0 with
   | Some p => if p =? 0 then _next_free_port 8001 9000 else ret p
   | None => _next_free_port 8001 9000
   end) h = (h1, inr lp) ->
  let cmd := ["kubectl"; "port-forward"; "-n"; name;
              "pod/" ++ name ++ "-pod"; pretty lp ++ ":" ++ pretty tp] in
  sys (popen cmd) (os_note (Spawned cmd) h1).1 = (h2, inr pid) ->
  wait_open 20 pid lp h2 = (h3, inr false) ->
  match read_stderr pid (os h3) with
  | Some (o, out) =>
      exists h' rest,
        pf_start name tp lp0 h
        = (h', inl (HTTPException 500
                      (DetailText
                         ("Failed to start port-forward (port="
                          ++ pretty lp ++ "). "
                          ++ match out with
                             | inr text => Py.strip text
                             | inl _ => ""
                             end))))
        /\ os_log h'
           = (os_log h ++ Spawned cmd :: Signalled pid SIGTERM :: rest)%list
        /\ pf_files h' = pf_files h
  | None =>
      pf_start name tp lp0 h = (h3, inl (Blocked "proc.stderr.read()"))
      /\ os_log h3 = (os_log h ++ [Spawned cmd])%list
      /\ pf_files h3 = pf_files h
  end.
Proof.
  intros N L P cmd S W.
  assert (pf_start name tp lp0 h
          = bind (read_child_stderr pid)
              (fun err =>
                 bind (try_except (_kill_pid pid) (fun _ => ret tt))
                   (fun _ =>
                      raise (HTTPException 500
                               (DetailText
                                  ("Failed to start port-forward (port="
                                   ++ pretty lp ++ "). " ++ err))))) h3)
    as ->.
  { unfold pf_start. rewrite N.
    unfold bind at 1, _load_pf. rewrite L.
    rewrite (bind_inr _ _ _ _ _ P).
    unfold bind at 1. unfold os_note at 1. fold cmd.
    unfold os_note in S. simpl in S.
    rewrite (bind_inr _ _ _ _ _ S), (bind_inr _ _ _ _ _ W). reflexivity. }
  apply Untouched_choose_port in P as [F1 L1].
  apply Untouched_sys in S as [F2 L2]. simpl in F2, L2.
  apply Untouched_wait_open in W as [F3 L3].
  match goal with
  | |- context [bind ?m ?k h3] => destruct (bind m k h3) as [h' r] eqn:G
  end.
  apply unready_spec in G as (F4 & G).
  destruct (read_stderr pid (os h3)) as [[o out]|].
  - destruct G as (rest & -> & L4). exists h', rest.
    split; [reflexivity|]. split; [|congruence].
    rewrite L4, L3, L2, L1, <- app_assoc. reflexivity.
  - destruct G as [-> ->]. split; [reflexivity|].
    split; [congruence|congruence].
Qed.

(** X25.  [pf_start] keeps the registry well formed: when every file lies
    at the path of the name it records, the same holds after the call,
    whether it returns or raises. *)
Theorem start_keeps_registry_well_formed (name : string) (tp : Z)
    (lp0 : option Z) (h h' : Host OS) (r : result pf_response) :
  registry_wf (pf_files h) ->
  pf_start name tp lp0 h = (h', r) ->
  registry_wf (pf_files h').
Proof.
  intros Wf E. destruct r as [e|resp].
  - apply failed_start_files in E as [F _]. now rewrite F.
  - destruct (pf_files h !! _pidfile name) as [info|] eqn:L.
    + apply start_outcome in E as (_ & _ & _ & Old).
      destruct (Old info L) as [-> _]. exact Wf.
    + apply start_outcome in E as (_ & _ & Fresh & _).
      destruct (Fresh L) as (_ & _ & pid & o & o' & -> & _).
      intros path info. destruct (decide (path = _pidfile name)) as [->|N].
      * rewrite lookup_insert_eq. now intros [= <-].
      * rewrite lookup_insert_ne by congruence. apply Wf.
Qed.














End MoreSupervisorFacts.

(** ** Instances on the simulated cluster and machine *)

Lemma ensure_k8s_outcomes_witness :
  k8s_v1 (world_of empty_cluster true ∅) = true
  /\ K8s._ensure_k8s (world_of empty_cluster true ∅)
     = (world_of empty_cluster true ∅, inr tt)
  /\ cluster (world_of empty_cluster true ∅)
     = cluster (world_of empty_cluster false ∅)
  /\ students (world_of empty_cluster true ∅)
     = students (world_of empty_cluster false ∅)
  /\ trace (world_of empty_cluster true ∅)
     = trace (world_of empty_cluster false ∅).
Proof.
  apply (ensure_k8s_outcomes (world_of empty_cluster false ∅)
           (world_of empty_cluster true ∅) (inr tt)).
  vm_compute; reflexivity.
Defined.

Lemma not_found_is_absorbed_witness :
  (K8s.get_pod_status "alice" "alice" (world_of empty_cluster true ∅)).2
  = inr "Not Found"
  /\ (K8s.delete_pod "alice" "alice" (world_of empty_cluster true ∅)).2
     = inr tt
  /\ (K8s.get_pod_status "alice" "alice" (world_of server_gone true ∅)).2
     = inl (OtherException "MaxRetryError" "Connection refused").
Proof.
  pose (w := world_of empty_cluster true ∅).
  pose (g := world_of server_gone true ∅).
  split; [|split].
  - rewrite (proj1 (not_found_is_absorbed "alice" "alice" w
                      (logged (GetPodStatus "alice" "alice") w)
                      (logged (GetPodStatus "alice" "alice") w)
                      Sim.not_found));
      [reflexivity | vm_compute; reflexivity | vm_compute; reflexivity].
  - rewrite (proj1 (proj2 (not_found_is_absorbed "alice" "alice" w
                             (logged (DeletePod "alice" "alice") w)
                             (logged (DeletePod "alice" "alice") w)
                             Sim.not_found)));
      [reflexivity | vm_compute; reflexivity | vm_compute; reflexivity].
  - rewrite (proj1 (not_found_is_absorbed "alice" "alice" g
                      (logged (GetPodStatus "alice" "alice") g)
                      (logged (GetPodStatus "alice" "alice") g)
                      (OtherException "MaxRetryError" "Connection refused")));
      [reflexivity | vm_compute; reflexivity | vm_compute; reflexivity].
Defined.

Lemma used_is_nonneg_witness :
  K8s.add_pods K8s.zero_capacity mixed_pods
  = inr {| cpu_millicores := 500; memory_mi := 256; storage_gi := 2 |}
  /\ nonneg_capacity
       {| cpu_millicores := 500; memory_mi := 256; storage_gi := 2 |}.
Proof.
  split; [vm_compute; reflexivity|].
  apply (used_is_nonneg mixed_pods K8s.zero_capacity
           {| cpu_millicores := 500; memory_mi := 256; storage_gi := 2 |}).
  - repeat apply List.Forall_cons; try apply List.Forall_nil; intros C;
      try (vm_compute in C; discriminate C).
    repeat apply List.Forall_cons; try apply List.Forall_nil.
    + repeat split; vm_compute; reflexivity.
    + exact I.
  - vm_compute; reflexivity.
Defined.

Lemma nonfinite_cpu_never_admitted_witness :
  exists w' d,
    K8s.check_resources_available F_nan 512 1 (world_of empty_cluster true ∅)
    = (w', inr d)
    /\ is_available d = false /\ details d = None.
Proof.
  apply (nonfinite_cpu_never_admitted F_nan 512 1
           (world_of empty_cluster true ∅)).
  reflexivity.
Defined.

Lemma admission_is_monotone_witness :
  exists d2,
    K8s.decide_admission
      {| total := {| cpu_millicores := 4000; memory_mi := 8192;
                     storage_gi := 100 |};
         used := K8s.zero_capacity;
         available := {| cpu_millicores := 4000; memory_mi := 8192;
                         storage_gi := 100 |} |}
      (F_fin false 1 0) 512 1 = inr d2
    /\ is_available d2 = true
    /\ message d2 = ResourcesAvailable.
Proof.
  eapply (admission_is_monotone _ (F_fin false 2 0) (F_fin false 1 0)
            1024 512 10 1 2000 1000).
  - vm_compute; reflexivity.
  - reflexivity.
  - vm_compute; reflexivity.
  - vm_compute; reflexivity.
  - lia.
  - lia.
  - lia.
Defined.

Lemma save_then_get_witness :
  exists w2 stored,
    Db.get_student "alice"
      (Db.save_or_update_student pending_alice "deployed"
         (world_of empty_cluster false {[ "alice" := failed_alice ]})).1
    = (w2, inr (Some stored))
    /\ doc_status stored = Some "deployed"
    /\ doc_last_error stored = Some "Pod not found".
Proof.
  destruct (save_then_get pending_alice "deployed"
              (world_of empty_cluster false {[ "alice" := failed_alice ]})
              (Db.save_or_update_student pending_alice "deployed"
                 (world_of empty_cluster false
                    {[ "alice" := failed_alice ]})).1)
    as (w2 & stored & G & _ & _ & S & _ & _ & E & _);
    [vm_compute; reflexivity|].
  exists w2, stored. split; [exact G|]. split; [exact S | exact E].
Defined.

Lemma update_status_cases_witness :
  (exists new,
     students (Db.update_student_status "alice" "failed" (Some "")
                 (world_of empty_cluster false
                    {[ "alice" := failed_alice ]})).1 !! "alice" = Some new
     /\ doc_status new = Some "failed"
     /\ doc_last_error new = Some "Pod not found")
  /\ students (Db.update_student_status "bob" "failed" None
                 (world_of empty_cluster false
                    {[ "alice" := failed_alice ]})).1
     = {[ "alice" := failed_alice ]}.
Proof.
  pose (w := world_of empty_cluster false {[ "alice" := failed_alice ]}).
  split.
  - destruct (update_status_cases "alice" "failed" (Some "") w
                (Db.update_student_status "alice" "failed" (Some "") w).1)
      as (_ & U & _); [vm_compute; reflexivity|].
    destruct (U failed_alice) as (new & L & S & E & _);
      [vm_compute; reflexivity|].
    exists new. split; [exact L|]. split; [exact S | exact E].
  - destruct (update_status_cases "bob" "failed" None w
                (Db.update_student_status "bob" "failed" None w).1)
      as (N & _); [vm_compute; reflexivity|].
    apply N. vm_compute; reflexivity.
Defined.

Lemma delete_then_get_witness :
  (Db.delete_student "alice"
     (world_of empty_cluster false {[ "alice" := pending_alice ]})).2
  = inr 1
  /\ students (Db.delete_student "alice"
                 (world_of empty_cluster false
                    {[ "alice" := pending_alice ]})).1
     = delete "alice" {[ "alice" := pending_alice ]}.
Proof.
  pose (w := world_of empty_cluster false {[ "alice" := pending_alice ]}).
  destruct (delete_then_get "alice" w (Db.delete_student "alice" w).1 1)
    as (_ & D & _); [vm_compute; reflexivity|].
  split; [vm_compute; reflexivity | exact D].
Defined.


Lemma written_quantities_read_back_witness :
  Quantity._parse_cpu_to_millicores "500m" = inr 500
  /\ Quantity._parse_memory_to_mi "500Mi" = inr 500
  /\ Quantity._parse_memory_to_mi "500Gi" = inr (500 * 1024)
  /\ Quantity._parse_memory_to_mi "500Ti" = inr (500 * 1024 * 1024)
  /\ Quantity._parse_storage_to_gi "500Gi" = inr 500
  /\ Quantity._parse_storage_to_gi "500Ti" = inr (500 * 1024).
Proof.
  apply (written_quantities_read_back 500).
  split; [lia | vm_compute; reflexivity].
Defined.

Lemma fractional_request_counted_as_written_witness :
  exists n,
    Py.round_float (Py.float_mul (Models.cpu bob) Py.float_1000) = inr n
    /\ 0 <= n
    /\ K8s.parse_quantities
         (manifest_requests
            (K8s.pod_manifest "bob" "student-web:latest" "500m" "256Mi" 2))
       = inr {| cpu_millicores := n; memory_mi := 256; storage_gi := 2 |}.
Proof.
  apply (fractional_request_counted_as_written bob
           {| Models.k8s_cpu := "500m"; Models.k8s_memory := "256Mi";
              Models.k8s_storage := "2Gi" |} "bob" "student-web:latest").
  - split; [reflexivity | lia].
  - reflexivity.
  - simpl; lia.
  - simpl; lia.
  - vm_compute; reflexivity.
Defined.

Lemma stored_record_feeds_redeploy_witness :
  exists r,
    Models.to_k8s_resources alice = inr r
    /\ doc_k8s_resources pending_alice ≫= (.!! "cpu") = Some (Models.k8s_cpu r)
    /\ Py.int (Py.replace_empty "Gi" "1Gi") = inr 1.
Proof.
  destruct (stored_record_feeds_redeploy alice
              {| doc_name := "alice";
                 doc_input_numeric := Some (F_fin false 1 0, 512, 1);
                 doc_k8s_resources := doc_k8s_resources pending_alice;
                 doc_status := None; doc_last_error := None |})
    as (r & T & C & _ & _ & S).
  - simpl; lia.
  - vm_compute; reflexivity.
  - exists r. split; [exact T|]. split; [exact C | exact S].
Defined.

Lemma admin_routes_are_guarded_witness :
  App.admin_students "pw" (Some "guess")
    (world_of empty_cluster false {[ "alice" := pending_alice ]})
  = (world_of empty_cluster false {[ "alice" := pending_alice ]},
     inl (HTTPException 401 (DetailText "Unauthorized")))
  /\ App.cleanup "pw" "alice" None
       (world_of empty_cluster false {[ "alice" := pending_alice ]})
     = (world_of empty_cluster false {[ "alice" := pending_alice ]},
        inl (HTTPException 401 (DetailText "Unauthorized"))).
Proof.
  pose (w := world_of empty_cluster false {[ "alice" := pending_alice ]}).
  split.
  - destruct (proj2 (admin_routes_are_guarded "pw" "alice" (Some "guess") w))
      as (e & -> & A & _); [intros [_ [=]] | exact A].
  - destruct (proj2 (admin_routes_are_guarded "pw" "alice" None w))
      as (e & -> & _ & C); [intros [_ [=]] | exact C].
Defined.

Lemma cleanup_removes_record_witness :
  exists w',
    App.cleanup "pw" "alice" (Some "pw")
      (store_open server_gone {[ "alice" := pending_alice ]})
    = (w', inr true)
    /\ students w' = delete "alice" {[ "alice" := pending_alice ]}.
Proof.
  destruct (cleanup_removes_record "pw" "alice"
              (store_open server_gone {[ "alice" := pending_alice ]}))
    as (w' & C & S).
  - discriminate.
  - split; reflexivity.
  - exists w'. split; [exact C | exact S].
Defined.

Lemma provision_outcomes_witness :
  (App.provision "student-web:latest" "alice" "1" "512Mi" 1
     (store_open empty_cluster {[ "alice" := pending_alice ]})).2
  = inr "Pending"
  /\ (App.provision "student-web:latest" "alice" "1" "512Mi" 1
        (store_open server_gone {[ "alice" := pending_alice ]})).2
     = inl (HTTPException 500
              (DetailText "K8s error: Connection refused")).
Proof.
  pose (w := store_open empty_cluster {[ "alice" := pending_alice ]}).
  pose (g := store_open server_gone {[ "alice" := pending_alice ]}).
  pose (w1 := (K8s.create_namespace "alice" w).1).
  pose (w2 := (K8s.create_pod "alice" "alice" "student-web:latest" "1"
                 "512Mi" 1 w1).1).
  pose (w3 := (K8s.get_pod_status "alice" "alice" w2).1).
  pose (w4 := (Db.update_student_status "alice" "deployed" None w3).1).
  pose (g1 := (K8s.create_namespace "alice" g).1).
  pose (g2 := (Db.update_student_status "alice" "failed"
                 (Some "Connection refused") g1).1).
  split.
  - destruct (proj2 (proj2 (provision_outcomes "student-web:latest" "alice"
                              "1" "512Mi" 1 w)) w1 w2 w3 w4 "Pending")
      as (P & _); [vm_compute; reflexivity..|].
    fold w. rewrite P. reflexivity.
  - destruct (proj1 (provision_outcomes "student-web:latest" "alice"
                       "1" "512Mi" 1 g) g1 g2
                (OtherException "MaxRetryError" "Connection refused"))
      as (P & _); [vm_compute; reflexivity..|].
    fold g. rewrite P. reflexivity.
Defined.

Lemma resync_transitions_witness :
  (App.sync_student true pending_alice
     (store_open alice_running {[ "alice" := pending_alice ]})).2
  = inr {| row_doc := App.with_status pending_alice "deployed";
           live_phase := "Running"; db_status := "deployed" |}
  /\ (App.sync_student true failed_alice
        (store_open alice_running {[ "alice" := failed_alice ]})).2
     = inr {| row_doc := failed_alice;
              live_phase := "Running"; db_status := "failed" |}.
Proof.
  pose (w := store_open alice_running {[ "alice" := pending_alice ]}).
  pose (f := store_open alice_running {[ "alice" := failed_alice ]}).
  split.
  - destruct (resync_transitions pending_alice w
                (K8s.get_pod_status "alice" "alice" w).1 "Running")
      as [T _]; [vm_compute; reflexivity|].
    fold w.
    rewrite (T (Db.update_student_status "alice" "deployed" None
                  (K8s.get_pod_status "alice" "alice" w).1).1);
      [reflexivity | vm_compute; reflexivity].
  - destruct (resync_transitions failed_alice f
                (K8s.get_pod_status "alice" "alice" f).1 "Running")
      as [T _]; [vm_compute; reflexivity|].
    fold f. simpl in T. rewrite T. reflexivity.
Defined.

Lemma resync_leaves_other_statuses_witness :
  students (App.sync_student true failed_alice
              (store_open empty_cluster {[ "alice" := failed_alice ]})).1
  = {[ "alice" := failed_alice ]}.
Proof.
  pose (w := store_open empty_cluster {[ "alice" := failed_alice ]}).
  destruct (resync_leaves_other_statuses true failed_alice w
              (App.sync_student true failed_alice w).1
              (App.sync_student true failed_alice w).2) as (S & _).
  - discriminate.
  - discriminate.
  - vm_compute; reflexivity.
  - exact S.
Defined.

Lemma status_errors_are_404_witness :
  exists cause,
    (K8s.get_pod_status "alice" "alice" (world_of server_gone true ∅)).2
    = inl cause
    /\ (App.status "alice" (world_of server_gone true ∅)).2
       = inl (HTTPException 404
                (DetailText
                   ("Pod not found or error: " ++ str_exn cause))).
Proof.
  pose (w := world_of server_gone true ∅).
  destruct (status_errors_are_404 "alice" w (App.status "alice" w).1
              (inl (HTTPException 404
                      (DetailText
                         "Pod not found or error: Connection refused"))))
    as (_ & cause & G & E); [vm_compute; reflexivity|].
  exists cause. split; [exact G|]. fold w. rewrite <- E.
  vm_compute; reflexivity.
Defined.

Lemma nonfinite_cpu_never_persisted_witness :
  (exists w' det,
     App.submit nan_spec (world_of empty_cluster false ∅)
     = (w', inl (HTTPException 400 det))
     /\ students w' = ∅)
  /\ (exists w' e,
        App.deploy "student-web:latest" nan_spec
          (world_of empty_cluster false ∅) = (w', inl e)
        /\ students w' = ∅
        /\ trace w' = [GetPodStatus "carol" "carol"]).
Proof.
  apply (nonfinite_cpu_never_persisted "student-web:latest" nan_spec
           (world_of empty_cluster false ∅)).
  reflexivity.
Defined.

Lemma next_free_port_in_range_witness :
  (8001 <= 8002 <= 9000
   /\ exists o, taken_run 1 8001 (os (host_of one_child ∅)) o
                /\ connect_fails 8002 o = (os (host_of one_child ∅), inr true))
  /\ (Forward._next_free_port 8001 8001 (host_of one_child ∅)).2
     = inl (RuntimeError "No free local port found in range 8001-9000").
Proof.
  split.
  - destruct (next_free_port_in_range 8001 9000 (host_of one_child ∅)
                (host_of one_child ∅) (inr 8002)) as (P & _);
      [vm_compute; reflexivity | exact P].
  - destruct (next_free_port_in_range 8001 8001 (host_of one_child ∅)
                (Forward._next_free_port 8001 8001 (host_of one_child ∅)).1
                (Forward._next_free_port 8001 8001 (host_of one_child ∅)).2)
      as (_ & T & _); [vm_compute; reflexivity|].
    destruct (T one_child) as [R _]; [|exact R].
    exists one_child. split; reflexivity.
Defined.


Lemma failed_start_leaves_registry_witness :
  Forward.pf_start "  " 8000 None stale_entry
  = (stale_entry, inl (HTTPException 400 (DetailText "name required"))).
Proof.
  destruct (failed_start_leaves_registry "  " 8000 None stale_entry
              (Forward.pf_start "  " 8000 None stale_entry).1
              (HTTPException 400 (DetailText "name required")))
    as (_ & B); [vm_compute; reflexivity|].
  destruct (B eq_refl) as (E & _).
  rewrite <- E at 2. vm_compute; reflexivity.
Defined.

Lemma unready_child_read_then_terminated_witness :
  (exists h' rest,
     Forward.pf_start "alice" 8000 None (host_of mute_machine ∅)
     = (h', inl (HTTPException 500
                   (DetailText
                      "Failed to start port-forward (port=8001). error: unable to listen on port")))
     /\ os_log h'
        = (Spawned ["kubectl"; "port-forward"; "-n"; "alice";
                    "pod/alice-pod"; "8001:8000"]
           :: Signalled 4242 Forward.SIGTERM :: rest)%list
     /\ pf_files h' = ∅)
  /\ (Forward.pf_start "alice" 8000 None (host_of stuck_machine ∅)).2
     = inl (Blocked "proc.stderr.read()").
Proof.
  pose (cmd := ["kubectl"; "port-forward"; "-n"; "alice";
                "pod/alice-pod"; "8001:8000"]).
  split.
  - pose (h := host_of mute_machine ∅).
    pose (h1 := (Forward._next_free_port 8001 9000 h).1).
    pose (h2 := (Forward.sys (popen cmd)
                   (Forward.os_note (Spawned cmd) h1).1).1).
    pose (h3 := (Forward.wait_open 20 4242 8001 h2).1).
    pose proof (unready_child_read_then_terminated "alice" 8000 8001 4242
                  None h h1 h2 h3) as U.
    assert (read_stderr 4242 (os h3)
            = Some (without_child 4242 (os h3),
                    inr "error: unable to listen on port")) as R
      by (vm_compute; reflexivity).
    rewrite R in U. apply U; vm_compute; reflexivity.
  - pose (h := host_of stuck_machine ∅).
    pose (h1 := (Forward._next_free_port 8001 9000 h).1).
    pose (h2 := (Forward.sys (popen cmd)
                   (Forward.os_note (Spawned cmd) h1).1).1).
    pose (h3 := (Forward.wait_open 20 4242 8001 h2).1).
    pose proof (unready_child_read_then_terminated "alice" 8000 8001 4242
                  None h h1 h2 h3) as U.
    assert (read_stderr 4242 (os h3) = None) as R
      by (vm_compute; reflexivity).
    rewrite R in U. destruct U as (U & _); [vm_compute; reflexivity..|].
    fold h. rewrite U. reflexivity.
Defined.

Lemma start_keeps_registry_well_formed_witness :
  registry_wf (pf_files (Forward.pf_start "bob" 8000 None stale_entry).1).
Proof.
  apply (start_keeps_registry_well_formed "bob" 8000 None stale_entry
           (Forward.pf_start "bob" 8000 None stale_entry).1
           (Forward.pf_start "bob" 8000 None stale_entry).2).
  - intros path info L. unfold stale_entry, host_of in L.
    cbn [pf_files] in L. apply lookup_singleton_Some in L as [<- <-].
    reflexivity.
  - vm_compute; reflexivity.
Defined.


